(** * duck: chunk splitting engine, compiler driver and compile cache

    A shallow embedding of the parts of [src/compiler.ts], [src/gendeps.ts]
    and [src/commands/serve.ts] that split the dependencies of an entry
    config into chunks, drive the external compiler and serve the compiled
    chunks out of the per-entry cache.

    JavaScript [Map]s and [Set]s iterate in insertion order, and the code
    relies on it; they are modelled as lists.  The module-level caches, where
    only lookups matter, are finite maps.  Exceptions are an explicit result
    type; module-level state and the calls to the external compiler are
    threaded through a state-and-exception monad. *)

From stdpp Require Import gmap strings list pretty.
From Stdlib Require Import ZArith Lia.

Open Scope string_scope.

(** ** Exceptions *)

Inductive JsError : Type :=
| AssertionError (msg : string)
| TypeError (msg : string)
| Error (msg : string)
| CompilerError (msg : string) (exitCode : Z)
| CycleError.

Inductive result (A : Type) : Type :=
| Ok (a : A)
| Throw (e : JsError).
Arguments Ok {A} a.
Arguments Throw {A} e.

Definition bind {A B : Type} (r : result A) (k : A -> result B) : result B :=
  match r with
  | Ok a => k a
  | Throw e => Throw e
  end.

Declare Scope result_scope.
Delimit Scope result_scope with result.
Notation "x <- e ;; k" := (bind e (fun x => k))
  (at level 100, e at next level, right associativity) : result_scope.

Definition isOk {A : Type} (r : result A) : bool :=
  match r with Ok _ => true | Throw _ => false end.

(** [Array.prototype.forEach] with a body that may throw. *)
Fixpoint foldM {A B : Type} (f : A -> B -> result A) (l : list B) (a : A) : result A :=
  match l with
  | [] => Ok a
  | b :: l' =>
      match f a b with
      | Ok a' => foldM f l' a'
      | Throw e => Throw e
      end
  end.

(** [Array.prototype.map] with a callback that may throw. *)
Fixpoint mapM {A B : Type} (f : A -> result B) (l : list A) : result (list B) :=
  match l with
  | [] => Ok []
  | a :: l' =>
      match f a with
      | Ok b =>
          match mapM f l' with
          | Ok bs => Ok (b :: bs)
          | Throw e => Throw e
          end
      | Throw e => Throw e
      end
  end.

(** [assertNonNullable] of [./assert]. *)
Definition assertNonNullable {A : Type} (x : option A) (msg : string) : result A :=
  match x with
  | Some a => Ok a
  | None => Throw (AssertionError msg)
  end.

(** ** Insertion-ordered [Set<string>] and [Map<string, V>] *)

Module Js.

Definition has (x : string) (s : list string) : bool :=
  existsb (String.eqb x) s.

(** [s.add(x)]: a value already present keeps its position. *)
Definition add (s : list string) (x : string) : list string :=
  if has x s then s else s ++ [x].

(** [new Set(iterable)]. *)
Definition newSet (l : list string) : list string :=
  fold_left add l [].

Section MapOps.
Context {V : Type}.

Fixpoint get (k : string) (m : list (string * V)) : option V :=
  match m with
  | [] => None
  | (k', v) :: m' => if String.eqb k k' then Some v else get k m'
  end.

(** [m.set(k, v)]: an existing key keeps its position, a new key goes last. *)
Fixpoint set (k : string) (v : V) (m : list (string * V)) : list (string * V) :=
  match m with
  | [] => [(k, v)]
  | (k', v') :: m' =>
      if String.eqb k k' then (k, v) :: m' else (k', v') :: set k v m'
  end.

Definition keys (m : list (string * V)) : list string := map fst m.
Definition values (m : list (string * V)) : list V := map snd m.

(** [new Map(entries)]. *)
Definition newMap (entries : list (string * V)) : list (string * V) :=
  fold_left (fun m kv => set (fst kv) (snd kv) m) entries [].
End MapOps.

End Js.

(** ** Dependencies (google-closure-deps) *)

Module depGraph.

Inductive DependencyType : Type :=
| CLOSURE_PROVIDE
| CLOSURE_MODULE
| ES6_MODULE
| SCRIPT.

Record Dependency : Type := {
  type : DependencyType;
  path : string;
  closureSymbols : list string;
  imports : list string;
  language : string
}.

(** The library's [Graph]: construction and [order] happen outside this
    repository. *)
Class Lib : Type := {
  Graph : Type;
  newGraph : list Dependency -> result Graph;
  order : Graph -> list Dependency -> result (list Dependency)
}.

End depGraph.

(** ** The chunk DAG *)

Module Dag.

(** Modelled from the spec: the class [Dag] of [./dag] is not among the
    sources.  A chunk carries its id, its entry files and the ids of its
    parents. *)
Record Chunk : Type := {
  id : string;
  explicitInputs : list string;
  parentIds : list string
}.

(** Modelled from the spec: the built [Dag] of [./dag]; the chunks in
    declaration order, with an edge parent -> child for every declared
    parent id. *)
Record t : Type := { chunks : list Chunk }.

(** Modelled from the spec: the chunk declared under an id, and the parents
    it declares ("child -> parent edges"). *)
Definition findChunk (d : t) (i : string) : option Chunk :=
  find (fun c => String.eqb (id c) i) (chunks d).

Definition parentsOf (d : t) (i : string) : list string :=
  match findChunk d i with
  | Some c => parentIds c
  | None => []
  end.

(** Modelled from the spec: [getSortedIds] of [./dag]; "topological order,
    ancestors before descendants; ties between mutually unordered chunks
    are broken by declaration order".  Each round emits the first chunk in
    declaration order whose parents have all been emitted. *)
Fixpoint topoOrder (fuel : nat) (remaining : list Chunk) (emitted : list string)
  : list string :=
  match fuel with
  | O => emitted
  | S n =>
      match find (fun c => forallb (fun p => Js.has p emitted) (parentIds c)) remaining with
      | Some c =>
          topoOrder n
            (List.filter (fun c' => negb (String.eqb (id c') (id c))) remaining)
            (emitted ++ [id c])
      | None => emitted
      end
  end.

(** Modelled from the spec: [getSortedIds] of [./dag], with one round for
    every chunk. *)
Definition getSortedIds (d : t) : list string :=
  topoOrder (length (chunks d)) (chunks d) [].

(** Modelled from the spec: [build] of [./dag]; "fails with CycleError if
    the declared edges are cyclic": some chunk can never be emitted. *)
Definition build (chunkDefs : list Chunk) : result t :=
  let d := {| chunks := chunkDefs |} in
  if Nat.eqb (length (getSortedIds d)) (length chunkDefs)
  then Ok d
  else Throw CycleError.

(** Modelled from the spec: the "ancestor-closure (inclusive of self)" of
    an id, as the list of the ids met on the way up. *)
Fixpoint ancestorClosure (fuel : nat) (d : t) (i : string) : list string :=
  i :: match fuel with
       | O => []
       | S n => flat_map (ancestorClosure n d) (parentsOf d i)
       end.

(** Modelled from the spec: the topological depth of a chunk, the length
    of the longest chain of parents above it. *)
Fixpoint depth (fuel : nat) (d : t) (i : string) : nat :=
  match fuel with
  | O => 0
  | S n =>
      match parentsOf d i with
      | [] => 0
      | ps => S (list_max (map (depth n d) ps))
      end
  end.

(** Modelled from the spec: "compute the ancestor-closure (inclusive of
    self) of each input id; intersect the closures". *)
Definition commonAncestors (d : t) (ids : list string) : list string :=
  match ids with
  | [] => []
  | i0 :: rest =>
      List.filter
        (fun c => forallb (fun i => Js.has c (ancestorClosure (length (chunks d)) d i)) rest)
        (ancestorClosure (length (chunks d)) d i0)
  end.

(** Modelled from the spec: [getLcaNode] of [./dag]; "among the
    intersection, select the element at maximal topological depth", ties
    resolved "by picking the one appearing latest in getSortedIds() order".
    What it does without a common ancestor is not specified; here it
    throws. *)
Definition getLcaNode (d : t) (ids : list string) : result Chunk :=
  let common := commonAncestors d ids in
  let fuel := length (chunks d) in
  let maxDepth := list_max (map (depth fuel d) common) in
  match find (fun i => Js.has i common && Nat.eqb (depth fuel d i) maxDepth)
             (rev (getSortedIds d)) with
  | Some i =>
      match findChunk d i with
      | Some c => Ok c
      | None => Throw (Error "getLcaNode: unknown chunk")
      end
  | None => Throw (Error "getLcaNode: no common ancestor")
  end.

(** A single root dominates the DAG: the ancestor closure of every sorted
    chunk stays among the sorted chunks, and one chunk is in all of them. *)
Definition dominated (d : t) : bool :=
  let sorted := getSortedIds d in
  let fuel := length (chunks d) in
  forallb (fun i => forallb (fun a => Js.has a sorted) (ancestorClosure fuel d i)) sorted
  && existsb (fun r => forallb (fun i => Js.has r (ancestorClosure fuel d i)) sorted) sorted.

(** [ancestorOrSelf d a i]: [a] is [i] or reaches [i] along declared
    parent -> child edges. *)
Inductive ancestorOrSelf (d : t) : string -> string -> Prop :=
| aos_self (i : string) : ancestorOrSelf d i i
| aos_parent (a p i : string) :
    In p (parentsOf d i) -> ancestorOrSelf d a p -> ancestorOrSelf d a i.

End Dag.

(** ** The splitting engine ([src/compiler.ts]) *)

Record ModuleConfig : Type := {
  inputs : list string;
  deps : list string
}.

Section SplittingEngine.
Context {G : depGraph.Lib}.

Definition findTransitiveDeps
    (sortedChunkIds : list string)
    (dependencies : list depGraph.Dependency)
    (modules : list (string * ModuleConfig))
  : result (list (string * list string)) :=
  let pathToDep := Js.newMap (map (fun dep => (depGraph.path dep, dep)) dependencies) in
  (graph <- depGraph.newGraph dependencies ;;
   foldM
     (fun chunkToTransitiveDepPathSet chunkId =>
        chunkConfig <-
          match Js.get chunkId modules with
          | Some c => Ok c
          | None => Throw (TypeError "Cannot read property 'inputs' of undefined")
          end ;;
        entryPoints <-
          mapM (fun input =>
                  assertNonNullable (Js.get input pathToDep)
                    ("entryConfig.paths does not include the inputs: " ++ input))
               (inputs chunkConfig) ;;
        ordered <- depGraph.order graph entryPoints ;;
        let depPaths := map depGraph.path ordered in
        Ok (Js.set chunkId (Js.newSet depPaths) chunkToTransitiveDepPathSet))
     sortedChunkIds [])%result.

(** The ids of the chunks whose transitive set has [targetDepPath], in map
    order. *)
Definition chunkIdsWithDep
    (chunkToTransitiveDepPathSet : list (string * list string))
    (targetDepPath : string) : list string :=
  map fst
    (List.filter (fun kv => Js.has targetDepPath (snd kv)) chunkToTransitiveDepPathSet).

(** The body of the inner loop: one path of one transitive set. *)
Definition placeDepPath
    (chunkToTransitiveDepPathSet : list (string * list string))
    (dag : Dag.t)
    (chunkToInputPathSet : list (string * list string))
    (targetDepPath : string)
  : result (list (string * list string)) :=
  (targetChunk <- Dag.getLcaNode dag (chunkIdsWithDep chunkToTransitiveDepPathSet targetDepPath) ;;
   inputPathSet <- assertNonNullable (Js.get (Dag.id targetChunk) chunkToInputPathSet) "" ;;
   Ok (Js.set (Dag.id targetChunk) (Js.add inputPathSet targetDepPath) chunkToInputPathSet))%result.

Definition splitDepsIntoChunks
    (sortedChunkIds : list string)
    (chunkToTransitiveDepPathSet : list (string * list string))
    (dag : Dag.t)
  : result (list (string * list string)) :=
  let chunkToInputPathSet :=
    fold_left (fun m chunk => Js.set chunk [] m) sortedChunkIds [] in
  foldM
    (fun acc targetDepPathSet =>
       foldM (placeDepPath chunkToTransitiveDepPathSet dag) targetDepPathSet acc)
    (Js.values chunkToTransitiveDepPathSet)
    chunkToInputPathSet.

End SplittingEngine.


(** ** Vocabulary of the splitting engine's properties *)

(** The id of the chunk a path is placed in: the lowest common ancestor of
    the chunks whose transitive set has the path. *)
Definition placement
    (chunkToTransitiveDepPathSet : list (string * list string))
    (dag : Dag.t) (depPath : string) : result string :=
  (targetChunk <-
     Dag.getLcaNode dag (chunkIdsWithDep chunkToTransitiveDepPathSet depPath) ;;
   Ok (Dag.id targetChunk))%result.

Definition placedIn
    (chunkToTransitiveDepPathSet : list (string * list string))
    (dag : Dag.t) (chunkId depPath : string) : bool :=
  match placement chunkToTransitiveDepPathSet dag depPath with
  | Ok t => String.eqb t chunkId
  | Throw _ => false
  end.





(** Lines 244-246 of [createCompilerOptionsForChunks]: the splitting engine
    proper, from the chunk DAG and the dependencies to the files of each
    chunk. *)
Definition splitChunks {G : depGraph.Lib}
    (dag : Dag.t)
    (dependencies : list depGraph.Dependency)
    (modules : list (string * ModuleConfig))
  : result (list string * list (string * list string)) :=
  let sortedChunkIds := Dag.getSortedIds dag in
  (chunkToTransitiveDepPathSet <- findTransitiveDeps sortedChunkIds dependencies modules ;;
   chunkToInputPathSet <- splitDepsIntoChunks sortedChunkIds chunkToTransitiveDepPathSet dag ;;
   Ok (sortedChunkIds, chunkToInputPathSet))%result.

(** ** Entry configs and compiler options *)

Inductive PlovrMode : Type := RAW | WHITESPACE | SIMPLE | ADVANCED.

Definition modeName (m : PlovrMode) : string :=
  match m with
  | RAW => "RAW"
  | WHITESPACE => "WHITESPACE"
  | SIMPLE => "SIMPLE"
  | ADVANCED => "ADVANCED"
  end.

(** A value of the [define] object: a string, or a boolean or number given
    by its rendering in a template literal. *)
Inductive DefineValue : Type :=
| DString (s : string)
| DOther (rendered : string).

Module EntryConfig.

(** The fields of [EntryConfig] ([./entryconfig]) that the code reads; an
    absent key is [None]. *)
Record t : Type := {
  id : string;
  mode : PlovrMode;
  paths : list string;
  inputs : option (list string);
  externs : option (list string);
  modules : option (list (string * ModuleConfig));
  test_excludes : option (list string);
  debug : option bool;
  language_in : option string;
  language_out : option string;
  level : option string;
  global_scope_name : option string;
  module_output_path : option string;
  output_file : option string;
  output_wrapper : option string;
  pretty_print : option bool;
  print_input_delimiter : option bool;
  define : option (list (string * DefineValue));
  checks : option (list (string * string))
}.

End EntryConfig.

(** The value of a compiler option. *)
Inductive OptValue : Type :=
| OStr (s : string)
| OBool (b : bool)
| OList (l : list string).

(** [CompilerOptions]: an object, its keys in insertion order. *)
Definition CompilerOptions : Type := list (string * OptValue).

Record CompilerOutput : Type := {
  path : string;
  src : string;
  source_map : string
}.

Record DuckConfig : Type := {
  closureLibraryDir : string;
  inputsRoot : string
}.

(** An argument handed to [path.join]: [getDependencies] is called with a
    string in [generateDepFileText] and with an array in
    [createCompilerOptionsForChunks]. *)
Inductive PathArg : Type :=
| PStr (s : string)
| PArr (l : list string).

Module parser.

(** What [parser.parseFileAsync] and [parser.parseDependencyFile] of
    google-closure-deps resolve to. *)
Record ParseResult : Type := {
  dependencies : list depGraph.Dependency;
  hasFatalError : bool;
  errors : list string
}.

End parser.

(** A WHATWG [URL], as far as the code looks into it: the search parameters
    and everything else. *)
Record URL : Type := {
  beforeSearch : string;
  searchParams : list (string * string)
}.

(** [URLSearchParams.prototype.set]: the first pair of that name takes the
    value and the others go; without one the pair is appended. *)
Fixpoint searchParams_set (name value : string) (params : list (string * string))
  : list (string * string) :=
  match params with
  | [] => [(name, value)]
  | (n, v) :: params' =>
      if String.eqb n name
      then (name, value) :: List.filter (fun nv => negb (String.eqb (fst nv) name)) params'
      else (n, v) :: searchParams_set name value params'
  end.


(** What the process sends to an HTTP client. *)
Inductive Response : Type :=
| Returned (body : string)
| Sent (code : Z) (contentType : string) (body : string).

(** ** The world outside the repository

    Node's [path], [fs] and [URL], recursive-readdir, tempy, common-tags,
    [JSON], the parser of google-closure-deps and the compiler of
    google-closure-compiler. *)
Class Env : Type := {
  depLib :: depGraph.Lib;
  path_join : list PathArg -> result string;
  path_dirname : string -> string;
  path_resolve : string -> string -> string;
  path_relative : string -> string -> string;
  recursive : string -> list string -> result (list string);
  fs_readFile : string -> result string;
  parseFileAsync : string -> result parser.ParseResult;
  parseDependencyFile : string -> string -> parser.ParseResult;
  setClosurePath : string -> depGraph.Dependency -> depGraph.Dependency;
  getDepFileText : string -> list depGraph.Dependency -> string;
  (** [compiler.run]: the exit code, stdout and stderr for these options,
      native or not, given the flagfiles written so far. *)
  compiler_run : bool -> CompilerOptions -> list (string * string) -> Z * string * option string;
  (** [tempy.file] with a name made of the current date. *)
  tempy_file : nat -> string;
  JSON_parse : string -> result (list CompilerOutput);
  JSON_stringify : list (string * list string) -> string;
  stripIndents : list string -> list string -> string;
  String_replace : string -> string -> string -> string;
  replaceNewlines : string -> string -> string;
  new_URL : string -> URL -> result URL;
  URL_toString : URL -> string;
  (** [./urls] *)
  inputsUrlPath : string;
  googBaseUrlPath : string
}.

(** ** Module-level state and the monad of the server

    A request handler runs from its first line to its last on one state:
    what other requests do while it awaits is outside this model. *)

Record State : Type := {
  (** [entryIdToChunkCache] of serve.ts: entry id -> request id -> chunk id
      -> output.  The innermost object is used as a map of its own
      properties; a chunk id assigned [undefined] maps to [None]. *)
  entryIdToChunkCache : gmap string (gmap string (gmap string (option CompilerOutput)));
  (** [depFileTextCache] and [dependenciesCache] of gendeps.ts *)
  depFileTextCache : gmap string string;
  dependenciesCache : gmap string (list depGraph.Dependency);
  (** every [compiler.run] so far, oldest first *)
  compilerRuns : list (bool * CompilerOptions);
  (** every file written by [convertToFlagfile] so far, oldest first *)
  flagfiles : list (string * string)
}.

Definition M (A : Type) : Type := State -> result A * State.

Definition ret {A : Type} (a : A) : M A := fun st => (Ok a, st).

Definition lift {A : Type} (r : result A) : M A := fun st => (r, st).

Definition bindM {A B : Type} (m : M A) (k : A -> M B) : M B :=
  fun st =>
    match m st with
    | (Ok a, st') => k a st'
    | (Throw e, st') => (Throw e, st')
    end.

Declare Scope M_scope.
Delimit Scope M_scope with M.
Notation "x <- e ;; k" := (bindM e (fun x => k))
  (at level 100, e at next level, right associativity) : M_scope.

(** ** Strings and truthiness *)

Definition endsWith (s suffix : string) : bool :=
  Nat.leb (String.length suffix) (String.length s)
  && String.eqb
       (String.substring (String.length s - String.length suffix) (String.length suffix) s)
       suffix.

Definition startsWith (s prefix : string) : bool := String.prefix prefix s.

Definition includes (s sub : string) : bool :=
  match String.index 0 sub s with
  | Some _ => true
  | None => false
  end.

Definition quot : string := String (Ascii.ascii_of_nat 34) EmptyString.
Definition newline : string := String (Ascii.ascii_of_nat 10) EmptyString.

(** A string is truthy when it is there and not empty. *)
Definition truthyString (o : option string) : bool :=
  match o with
  | Some s => negb (String.eqb s "")
  | None => false
  end.

Definition truthyBool (o : option bool) : bool :=
  match o with
  | Some b => b
  | None => false
  end.

Definition truthyPathArg (a : PathArg) : bool :=
  match a with
  | PStr s => negb (String.eqb s "")
  | PArr _ => true
  end.

(** ** gendeps.ts *)

Section Gendeps.
Context {E : Env}.

Definition set_dependenciesCache
    (c : gmap string (list depGraph.Dependency)) (st : State) : State :=
  {| entryIdToChunkCache := entryIdToChunkCache st;
     depFileTextCache := depFileTextCache st;
     dependenciesCache := c;
     compilerRuns := compilerRuns st;
     flagfiles := flagfiles st |}.

Definition set_depFileTextCache (c : gmap string string) (st : State) : State :=
  {| entryIdToChunkCache := entryIdToChunkCache st;
     depFileTextCache := c;
     dependenciesCache := dependenciesCache st;
     compilerRuns := compilerRuns st;
     flagfiles := flagfiles st |}.

(** The body of [getDependencies] below the cache check: read and parse the
    files under the paths of the entry config. *)
Definition parsePaths (entryConfig : EntryConfig.t) (ignoreDir : option PathArg)
  : result (list depGraph.Dependency) :=
  (parseResults <-
     mapM
       (fun p =>
          ignoreDirs <-
            match ignoreDir with
            | Some dir =>
                if truthyPathArg dir
                then (joined <- path_join [dir; PStr "*"] ;; Ok [joined])
                else Ok []
            | None => Ok []
            end ;;
          let testExcludes := EntryConfig.test_excludes entryConfig in
          files <- recursive p ignoreDirs ;;
          mapM parseFileAsync
            (List.filter
               (fun file =>
                  match testExcludes with
                  | Some excludes =>
                      if existsb (fun exclude => startsWith file exclude) excludes
                      then negb (endsWith file "_test.js")
                      else true
                  | None => true
                  end)
               (List.filter (fun file => endsWith file ".js") files)))
       (EntryConfig.paths entryConfig) ;;
   let results := concat parseResults in
   if existsb parser.hasFatalError results
   then Throw (Error "Fatal parse error")
   else Ok (concat (map parser.dependencies results)))%result.

Definition getDependencies (entryConfig : EntryConfig.t) (ignoreDir : option PathArg)
  : M (list depGraph.Dependency) :=
  fun st =>
    match dependenciesCache st !! EntryConfig.id entryConfig with
    | Some cached => (Ok cached, st)
    | None =>
        match parsePaths entryConfig ignoreDir with
        | Ok deps =>
            (Ok deps,
             set_dependenciesCache
               (<[EntryConfig.id entryConfig := deps]> (dependenciesCache st)) st)
        | Throw e => (Throw e, st)
        end
    end.

(** The dependencies as [getDepFileText] sees them: SCRIPT turned into
    CLOSURE_PROVIDE for the call, and restored after it. *)
Definition scriptAsProvide (dep : depGraph.Dependency) : depGraph.Dependency :=
  match depGraph.type dep with
  | depGraph.SCRIPT =>
      {| depGraph.type := depGraph.CLOSURE_PROVIDE;
         depGraph.path := depGraph.path dep;
         depGraph.closureSymbols := depGraph.closureSymbols dep;
         depGraph.imports := depGraph.imports dep;
         depGraph.language := depGraph.language dep |}
  | _ => dep
  end.

Definition generateDepFileText
    (entryConfig : EntryConfig.t) (closureLibraryDir inputsRoot : string) : M string :=
  fun st =>
    match depFileTextCache st !! EntryConfig.id entryConfig with
    | Some cached => (Ok cached, st)
    | None =>
        (dependencies <- getDependencies entryConfig (Some (PStr closureLibraryDir)) ;;
         let googBaseDirVirtualPath :=
           path_dirname
             (path_resolve inputsRoot (path_relative inputsUrlPath googBaseUrlPath)) in
         let depFileText :=
           getDepFileText googBaseDirVirtualPath (map scriptAsProvide dependencies) in
         fun st' =>
           (Ok depFileText,
            set_depFileTextCache
              (<[EntryConfig.id entryConfig := depFileText]> (depFileTextCache st')) st'))%M
          st
    end.

Definition getClosureLibraryDependencies (closureLibraryDir : string)
  : result (list depGraph.Dependency) :=
  (googBasePath <-
     path_join [PStr closureLibraryDir; PStr "closure"; PStr "goog"; PStr "deps.js"] ;;
   depsContent <- fs_readFile googBasePath ;;
   let result := parseDependencyFile depsContent googBasePath in
   if Nat.ltb 0 (length (parser.errors result))
   then Throw (Error ("Fail to parse deps.js of Closure Library: "
                      ++ String.concat ", " (parser.errors result)))
   else
     let googBaseDir := path_dirname googBasePath in
     Ok (map (setClosurePath googBaseDir) (parser.dependencies result)))%result.

End Gendeps.

(** ** compiler.ts *)

Definition GLOBAL_NAMESPACE : string := "z".

Definition wrapperMarker : string := "%output%".

Section Compiler.
Context {E : Env}.

Definition set_compilerRuns (runs : list (bool * CompilerOptions)) (st : State) : State :=
  {| entryIdToChunkCache := entryIdToChunkCache st;
     depFileTextCache := depFileTextCache st;
     dependenciesCache := dependenciesCache st;
     compilerRuns := runs;
     flagfiles := flagfiles st |}.

Definition set_flagfiles (files : list (string * string)) (st : State) : State :=
  {| entryIdToChunkCache := entryIdToChunkCache st;
     depFileTextCache := depFileTextCache st;
     dependenciesCache := dependenciesCache st;
     compilerRuns := compilerRuns st;
     flagfiles := files |}.

(** The local function [copy] of [createBaseOptions]. *)
Definition copy {A : Type} (value : option A) (inj : A -> OptValue)
    (closureKey : string) (opts : CompilerOptions) : CompilerOptions :=
  match value with
  | Some v => Js.set closureKey (inj v) opts
  | None => opts
  end.

Definition defineEntry (kv : string * DefineValue) : result string :=
  match snd kv with
  | DString value =>
      if includes value "'"
      then Throw (Error ("define value should not include single-quote: "
                         ++ quot ++ fst kv ++ ": " ++ value ++ quot))
      else Ok (fst kv ++ "='" ++ value ++ "'")
  | DOther rendered => Ok (fst kv ++ "=" ++ rendered)
  end.

Definition checkEntry (acc : list string * list string * list string)
    (kv : string * string) : result (list string * list string * list string) :=
  let '(jscompError, jscompWarning, jscompOff) := acc in
  if String.eqb (snd kv) "ERROR" then Ok ((jscompError ++ [fst kv])%list, jscompWarning, jscompOff)
  else if String.eqb (snd kv) "WARNING" then Ok (jscompError, (jscompWarning ++ [fst kv])%list, jscompOff)
  else if String.eqb (snd kv) "OFF" then Ok (jscompError, jscompWarning, (jscompOff ++ [fst kv])%list)
  else Throw (Error ("Unexpected value: " ++ quot ++ fst kv ++ ": " ++ snd kv ++ quot)).

Definition setIfNonEmpty (key : string) (l : list string) (opts : CompilerOptions)
  : CompilerOptions :=
  if Nat.ltb 0 (length l) then Js.set key (OList l) opts else opts.

Definition createBaseOptions (entryConfig : EntryConfig.t) (outputToFile : bool)
  : result CompilerOptions :=
  let opts : CompilerOptions := [] in
  let opts := if negb outputToFile then Js.set "json_streams" (OStr "OUT") opts else opts in
  let opts := copy (EntryConfig.language_in entryConfig) OStr "language_in" opts in
  let opts := copy (EntryConfig.language_out entryConfig) OStr "language_out" opts in
  let opts := copy (EntryConfig.level entryConfig) OStr "warning_level" opts in
  let opts := copy (EntryConfig.debug entryConfig) OBool "debug" opts in
  let opts :=
    if truthyString (EntryConfig.global_scope_name entryConfig)
    then Js.set "rename_prefix_namespace" (OStr GLOBAL_NAMESPACE) opts
    else opts in
  let opts :=
    match EntryConfig.mode entryConfig with
    | RAW => Js.set "compilation_level" (OStr "WHITESPACE") opts
    | m => Js.set "compilation_level" (OStr (modeName m)) opts
    end in
  (opts <-
     match EntryConfig.modules entryConfig with
     | Some _ =>
         let opts := Js.set "dependency_mode" (OStr "NONE") opts in
         if outputToFile then
           if negb (truthyString (EntryConfig.module_output_path entryConfig))
           then Throw (Error ("entryConfig[" ++ quot ++ "module-output-path" ++ quot
                              ++ "] must be specified"))
           else
             let outputPath := default "" (EntryConfig.module_output_path entryConfig) in
             let suffix := "%s.js" in
             if negb (endsWith outputPath suffix)
             then Throw (TypeError (quot ++ "moduleOutputPath" ++ quot ++ " must end with "
                                    ++ quot ++ suffix ++ quot ++ ", but actual "
                                    ++ quot ++ outputPath ++ quot))
             else
               Ok (Js.set "chunk_output_path_prefix"
                     (OStr (String.substring 0
                              (String.length outputPath - String.length suffix) outputPath))
                     opts)
         else Ok opts
     | None =>
         let opts := Js.set "dependency_mode" (OStr "PRUNE") opts in
         let js :=
           (EntryConfig.paths entryConfig
            ++ match EntryConfig.externs entryConfig with
               | Some externs => map (fun extern => String.append "!" extern) externs
               | None => []
               end)%list in
         let opts := Js.set "js" (OList js) opts in
         inputs <- assertNonNullable (EntryConfig.inputs entryConfig) "" ;;
         let opts := Js.set "entry_point" (OList inputs) opts in
         if outputToFile then
           if negb (truthyString (EntryConfig.output_file entryConfig))
           then Throw (Error ("entryConfig[" ++ quot ++ "output-file" ++ quot
                              ++ "] must be specified"))
           else Ok (copy (EntryConfig.output_file entryConfig) OStr "js_output_file" opts)
         else Ok opts
     end ;;
   let opts :=
     match EntryConfig.externs entryConfig with
     | Some externs => Js.set "externs" (OList externs) opts
     | None => opts
     end in
   let formatting :=
     ((if truthyBool (EntryConfig.pretty_print entryConfig) then ["PRETTY_PRINT"] else [])
      ++ (if truthyBool (EntryConfig.print_input_delimiter entryConfig)
          then ["PRINT_INPUT_DELIMITER"] else []))%list in
   let opts := setIfNonEmpty "formatting" formatting opts in
   opts <-
     match EntryConfig.define entryConfig with
     | Some define =>
         defined <- mapM defineEntry define ;;
         Ok (Js.set "define" (OList defined) opts)
     | None => Ok opts
     end ;;
   opts <-
     match EntryConfig.checks entryConfig with
     | Some checks =>
         sorted <- foldM checkEntry checks ([], [], []) ;;
         let '(jscompError, jscompWarning, jscompOff) := sorted in
         Ok (setIfNonEmpty "jscomp_off" jscompOff
               (setIfNonEmpty "jscomp_warning" jscompWarning
                  (setIfNonEmpty "jscomp_error" jscompError opts)))
     | None => Ok opts
     end ;;
   Ok opts)%result.

(** [escape]: a backslash before every double quote. *)
Fixpoint escape (str : string) : string :=
  match str with
  | EmptyString => EmptyString
  | String c rest =>
      if Ascii.eqb c (Ascii.ascii_of_nat 34)
      then String (Ascii.ascii_of_nat 92) (String c (escape rest))
      else String c (escape rest)
  end.

Definition createKeyValue (key value : string) : string :=
  "--" ++ key ++ " " ++ quot ++ escape value ++ quot.

Definition flagfileLines (kv : string * OptValue) : list string :=
  match snd kv with
  | OList value => map (createKeyValue (fst kv)) value
  | OStr value => [createKeyValue (fst kv) value]
  | OBool value => [createKeyValue (fst kv) (if value then "true" else "false")]
  end.

(** [convertToFlagfile]: the options go to a fresh file, one line each. *)
Definition convertToFlagfile (opts : CompilerOptions) : M CompilerOptions :=
  fun st =>
    let flagfile := tempy_file (length (flagfiles st)) in
    let lines := flat_map flagfileLines opts in
    (Ok [("flagfile", OStr flagfile)],
     set_flagfiles (flagfiles st ++ [(flagfile, String.concat newline lines)])%list st).

(** [opts.js && opts.js.length > 100] *)
Definition tooManyJs (opts : CompilerOptions) : bool :=
  match Js.get "js" opts with
  | Some (OList js) => Nat.ltb 100 (length js)
  | Some (OStr js) => Nat.ltb 100 (String.length js)
  | _ => false
  end.

(** [compile]: one run of the compiler; the promise rejects when the
    compiler wrote to stderr and resolves to stdout otherwise. *)
Definition compile (opts : CompilerOptions) (useNative : bool) : M string :=
  (opts <- (if tooManyJs opts then convertToFlagfile opts else ret opts) ;;
   fun st =>
     let '(exitCode, stdout, stderr) := compiler_run useNative opts (flagfiles st) in
     let st' := set_compilerRuns (compilerRuns st ++ [(useNative, opts)])%list st in
     if truthyString stderr
     then (Throw (CompilerError (default "" stderr) exitCode), st')
     else (Ok stdout, st'))%M.

Definition compileToJson (opts : CompilerOptions) : M (list CompilerOutput) :=
  let opts := Js.set "json_streams" (OStr "OUT") opts in
  (stdout <- compile opts false ;;
   lift (JSON_parse stdout))%M.

Definition convertModuleInfos
    (entryConfig : EntryConfig.t) (createModuleUris : string -> result (list string))
  : result (list (string * list string) * list (string * list string)) :=
  (modules <- assertNonNullable (EntryConfig.modules entryConfig) "" ;;
   foldM
     (fun acc entry =>
        let '(moduleInfo, moduleUris) := acc in
        uris <- createModuleUris (fst entry) ;;
        Ok (Js.set (fst entry) (deps (snd entry)) moduleInfo,
            Js.set (fst entry) uris moduleUris))
     modules ([], []))%result.

(** [createBaseOutputWrapper]; a tagged template is handed to [stripIndents]
    as its literal strings and its values. *)
Definition createBaseOutputWrapper
    (entryConfig : EntryConfig.t) (level : string) (isRoot : bool) : string :=
  let wrapper := wrapperMarker in
  let wrapper :=
    if truthyString (EntryConfig.output_wrapper entryConfig)
    then default "" (EntryConfig.output_wrapper entryConfig)
    else wrapper in
  if truthyString (EntryConfig.global_scope_name entryConfig)
     && negb (String.eqb level "WHITESPACE")
  then
    let globalScope := default "" (EntryConfig.global_scope_name entryConfig) in
    let globalScopeWrapper :=
      stripIndents
        [newline ++ "        ";
         newline ++ "        (function(";
         "){" ++ newline ++ "        ";
         newline ++ "        }).call(this,";
         ");"]
        [(if isRoot then "var " ++ globalScope ++ "={};" else "");
         GLOBAL_NAMESPACE; wrapperMarker; globalScope] in
    String_replace wrapper wrapperMarker globalScopeWrapper
  else wrapper.

Definition createChunkWrapper
    (entryConfig : EntryConfig.t) (sortedChunkIds : list string)
    (compilationLevel : string) (createModuleUris : string -> result (list string))
  : result (list string) :=
  (infos <- convertModuleInfos entryConfig createModuleUris ;;
   let '(moduleInfo, moduleUris) := infos in
   Ok (imap
         (fun index chunkId =>
            let isRootChunk := Nat.eqb index 0 in
            let wrapper := createBaseOutputWrapper entryConfig compilationLevel isRootChunk in
            let wrapper :=
              if isRootChunk then
                stripIndents
                  [newline ++ "      var PLOVR_MODULE_INFO=";
                   ";" ++ newline ++ "      var PLOVR_MODULE_URIS=";
                   ";" ++ newline ++ "      ";
                   newline ++ "      ";
                   ""]
                  [JSON_stringify moduleInfo; JSON_stringify moduleUris;
                   (if truthyBool (EntryConfig.debug entryConfig)
                    then "var PLOVR_MODULE_USE_DEBUG_MODE=true;" else "");
                   wrapper]
              else wrapper in
            chunkId ++ ":" ++ replaceNewlines wrapper "%n%")
         sortedChunkIds))%result.

(** Modelled from the spec: [createDag] of [./entryconfig] is not among the
    sources; the chunk declarations "chunkId -> {inputs, deps}" are built
    into a DAG, "deps" being the parent chunk ids. *)
Definition createDag (entryConfig : EntryConfig.t) : result Dag.t :=
  (modules <- assertNonNullable (EntryConfig.modules entryConfig) "" ;;
   Dag.build
     (map (fun entry =>
             {| Dag.id := fst entry;
                Dag.explicitInputs := inputs (snd entry);
                Dag.parentIds := deps (snd entry) |})
          modules))%result.

(** One entry of [options.chunk]: [id:num-js-files:dep,...]. *)
Definition chunkFlag
    (modules : list (string * ModuleConfig))
    (chunkToInputPathSet : list (string * list string)) (id : string) : result string :=
  match Js.get id chunkToInputPathSet, Js.get id modules with
  | Some inputPathSet, Some module =>
      Ok (id ++ ":" ++ pretty (length inputPathSet) ++ ":" ++ String.concat "," (deps module))
  | _, _ => Throw (TypeError "Cannot read property of undefined")
  end.

Definition compilationLevelOf (options : CompilerOptions) : option string :=
  match Js.get "compilation_level" options with
  | Some (OStr l) => Some l
  | _ => None
  end.

(** Lines 237-259 of [createCompilerOptionsForChunks] without the read of
    the entry config's own dependencies, which is the one step that touches
    module-level state. *)
Definition chunkOptions
    (entryConfig : EntryConfig.t) (config : DuckConfig) (outputToFile : bool)
    (createModuleUris : string -> result (list string))
    (modules : list (string * ModuleConfig))
    (ownDependencies : list depGraph.Dependency)
  : result (CompilerOptions * list string * option string) :=
  (libraryDependencies <- getClosureLibraryDependencies (closureLibraryDir config) ;;
   let dependencies := (ownDependencies ++ libraryDependencies)%list in
   dag <- createDag entryConfig ;;
   split <- splitChunks dag dependencies modules ;;
   let sortedChunkIds := fst split in
   let chunkToInputPathSet := snd split in
   options <- createBaseOptions entryConfig outputToFile ;;
   let options := Js.set "js" (OList (concat (Js.values chunkToInputPathSet))) options in
   chunk <- mapM (chunkFlag modules chunkToInputPathSet) sortedChunkIds ;;
   let options := Js.set "chunk" (OList chunk) options in
   compilationLevel <- assertNonNullable (compilationLevelOf options) "" ;;
   chunkWrapper <-
     createChunkWrapper entryConfig sortedChunkIds compilationLevel createModuleUris ;;
   let options := Js.set "chunk_wrapper" (OList chunkWrapper) options in
   Ok (options, sortedChunkIds, hd_error sortedChunkIds))%result.

Definition createCompilerOptionsForChunks
    (entryConfig : EntryConfig.t) (config : DuckConfig) (outputToFile : bool)
    (createModuleUris : string -> result (list string))
  : M (CompilerOptions * list string * option string) :=
  (modules <- lift (assertNonNullable (EntryConfig.modules entryConfig) "") ;;
   ownDependencies <- getDependencies entryConfig (Some (PArr [closureLibraryDir config])) ;;
   lift (chunkOptions entryConfig config outputToFile createModuleUris
           modules ownDependencies))%M.

End Compiler.

(** ** commands/serve.ts *)

Record CompileQuery : Type := {
  query_id : string;
  query_mode : option PlovrMode;
  chunk : option string;
  parentRequest : option string
}.

Section Serve.
Context {E : Env}.

Definition set_entryIdToChunkCache
    (c : gmap string (gmap string (gmap string (option CompilerOutput))))
    (st : State) : State :=
  {| entryIdToChunkCache := c;
     depFileTextCache := depFileTextCache st;
     dependenciesCache := dependenciesCache st;
     compilerRuns := compilerRuns st;
     flagfiles := flagfiles st |}.

(** The local function [createModuleUris] of [replyChunksCompile]. *)
Definition createModuleUris (baseUrl : URL) (url requestId chunkId : string)
  : result (list string) :=
  (uri <- new_URL url baseUrl ;;
   let params := searchParams uri in
   let params := searchParams_set "chunk" chunkId params in
   let params := searchParams_set "parentRequest" requestId params in
   let uri := {| beforeSearch := beforeSearch uri; searchParams := params |} in
   Ok [URL_toString uri])%result.

(** [sortedChunkIds.forEach((id, index) => chunkIdToOutput[id] = chunkOutputs[index])] *)
Fixpoint assignOutputs (ids : list string) (index : nat)
    (chunkOutputs : list CompilerOutput)
    (chunkIdToOutput : gmap string (option CompilerOutput))
  : gmap string (option CompilerOutput) :=
  match ids with
  | [] => chunkIdToOutput
  | id :: ids' =>
      assignOutputs ids' (S index) chunkOutputs
        (<[id := nth_error chunkOutputs index]> chunkIdToOutput)
  end.

(** [obj[key]] on a chunk-id-to-output object: [None] is [undefined]. *)
Definition outputOf (chunkIdToOutput : gmap string (option CompilerOutput)) (key : string)
  : option CompilerOutput :=
  match chunkIdToOutput !! key with
  | Some (Some output) => Some output
  | _ => None
  end.

(** The map under the entry id once lines 190-193 have run. *)
Definition chunkCacheOf (entryId : string) (st : State)
  : gmap string (gmap string (option CompilerOutput)) :=
  default ∅ (entryIdToChunkCache st !! entryId).

Definition ensureChunkCache (entryId : string) (st : State) : State :=
  match entryIdToChunkCache st !! entryId with
  | Some _ => st
  | None => set_entryIdToChunkCache (<[entryId := ∅]> (entryIdToChunkCache st)) st
  end.

(** [chunkCache.set(requestId, chunkIdToOutput)] *)
Definition storeSession (entryId requestId : string)
    (chunkIdToOutput : gmap string (option CompilerOutput)) : M unit :=
  fun st =>
    (Ok tt,
     set_entryIdToChunkCache
       (<[entryId := <[requestId := chunkIdToOutput]> (chunkCacheOf entryId st)]>
          (entryIdToChunkCache st))
       st).

(** [requestedChunkId || rootChunkId], as a property key. *)
Definition sentChunkId (requestedChunkId rootChunkId : option string) : string :=
  if truthyString requestedChunkId then default "" requestedChunkId
  else default "undefined" rootChunkId.

(** Lines 202-226 of [replyChunksCompile]: compile all chunks, store them
    under the request id, send one of them. *)
Definition compileChunks
    (config : DuckConfig) (baseUrl : URL) (entryConfig : EntryConfig.t)
    (url requestId : string) (requestedChunkId : option string) : M Response :=
  (created <-
     createCompilerOptionsForChunks entryConfig config false
       (createModuleUris baseUrl url requestId) ;;
   let '(options, sortedChunkIds, rootChunkId) := created in
   flagfileOptions <- convertToFlagfile options ;;
   chunkOutputs <- compileToJson flagfileOptions ;;
   let chunkIdToOutput := assignOutputs sortedChunkIds 0 chunkOutputs ∅ in
   _ <- storeSession (EntryConfig.id entryConfig) requestId chunkIdToOutput ;;
   match outputOf chunkIdToOutput (sentChunkId requestedChunkId rootChunkId) with
   | Some output => ret (Sent 200 "application/javascript" (src output))
   | None => lift (Throw (TypeError "Cannot read property 'src' of undefined"))
   end)%M.

Definition replyChunksCompile
    (config : DuckConfig) (baseUrl : URL) (entryConfig : EntryConfig.t)
    (url requestId : string) (query : CompileQuery) : M Response :=
  fun st =>
    let parentRequest := parentRequest query in
    let requestedChunkId := chunk query in
    let st := ensureChunkCache (EntryConfig.id entryConfig) st in
    let chunkCache := chunkCacheOf (EntryConfig.id entryConfig) st in
    match
      (if truthyString requestedChunkId && truthyString parentRequest
       then chunkCache !! default "" parentRequest
       else None)
    with
    | Some parentChunkCache =>
        match outputOf parentChunkCache (default "" requestedChunkId) with
        | None =>
            (Throw (Error ("Unexpected requested chunk: " ++ default "" requestedChunkId)), st)
        | Some output => (Ok (Returned (src output)), st)
        end
    | None =>
        compileChunks config baseUrl entryConfig url requestId requestedChunkId st
    end.

Definition clearEntryIdToChunkCache : M unit :=
  fun st => (Ok tt, set_entryIdToChunkCache ∅ st).

End Serve.

(** ** Vocabulary of the serving protocol *)


(** A full compile took the server from [st] to [st']: [options] were made
    for the chunks [sortedChunkIds], written to one flagfile and handed to
    the compiler in one run, which printed [chunkOutputs] and nothing on
    stderr; the outputs were stored by chunk id under the entry id and the
    request id. *)
Definition fullCompile {E : Env}
    (config : DuckConfig) (baseUrl : URL) (entryConfig : EntryConfig.t)
    (url requestId : string) (st st' : State)
    (options : CompilerOptions)
    (sortedChunkIds : list string) (rootChunkId : option string)
    (chunkOutputs : list CompilerOutput) : Prop :=
  exists st1 exitCode stdout stderr,
    let entryId := EntryConfig.id entryConfig in
    let flagfile := tempy_file (length (flagfiles st)) in
    let runOptions := [("flagfile", OStr flagfile); ("json_streams", OStr "OUT")] in
    createCompilerOptionsForChunks entryConfig config false
      (createModuleUris baseUrl url requestId) (ensureChunkCache entryId st)
    = (Ok (options, sortedChunkIds, rootChunkId), st1) /\
    flagfiles st'
    = (flagfiles st
       ++ [(flagfile, String.concat newline (flat_map flagfileLines options))])%list /\
    compilerRuns st' = (compilerRuns st ++ [(false, runOptions)])%list /\
    compiler_run false runOptions (flagfiles st') = (exitCode, stdout, stderr) /\
    truthyString stderr = false /\
    JSON_parse stdout = Ok chunkOutputs /\
    entryIdToChunkCache st'
    = <[entryId := <[requestId := assignOutputs sortedChunkIds 0 chunkOutputs ∅]>
                     (chunkCacheOf entryId st)]>
        (entryIdToChunkCache st).

(** ** A small world to run the code in

    Three chunks, [app] with children [a] and [b]; [x.js] is required by
    [a.js] and [b.js] only. *)

Module Example.

Definition dep (p : string) (provides requires : list string) : depGraph.Dependency :=
  {| depGraph.type := depGraph.CLOSURE_PROVIDE;
     depGraph.path := p;
     depGraph.closureSymbols := provides;
     depGraph.imports := requires;
     depGraph.language := "es3" |}.

Definition files : list depGraph.Dependency :=
  [ dep "/src/base.js" ["goog"] [];
    dep "/src/x.js" ["x"] ["goog"];
    dep "/src/app.js" ["app"] ["goog"];
    dep "/src/a.js" ["a"] ["x"; "app"];
    dep "/src/b.js" ["b"] ["x"; "app"] ].

(** A depth-first closure: the providers of the imports of a file, then the
    file. *)
Fixpoint visit (fuel : nat) (all acc : list depGraph.Dependency) (d : depGraph.Dependency)
  : list depGraph.Dependency :=
  if Js.has (depGraph.path d) (map depGraph.path acc) then acc
  else
    match fuel with
    | O => (acc ++ [d])%list
    | S n =>
        let acc' :=
          fold_left
            (fun acc sym =>
               match find (fun e => Js.has sym (depGraph.closureSymbols e)) all with
               | Some e => visit n all acc e
               | None => acc
               end)
            (depGraph.imports d) acc in
        if Js.has (depGraph.path d) (map depGraph.path acc') then acc'
        else (acc' ++ [d])%list
    end.

Definition graphLib : depGraph.Lib :=
  {| depGraph.Graph := list depGraph.Dependency;
     depGraph.newGraph := fun dependencies => Ok dependencies;
     depGraph.order := fun graph entrypoints =>
       Ok (fold_left (visit (length graph) graph) entrypoints []) |}.

Definition pathArgText (a : PathArg) : string :=
  match a with
  | PStr s => s
  | PArr l => String.concat "," l
  end.

Definition output (name : string) : CompilerOutput :=
  {| path := name ++ ".js"; src := "/* " ++ name ++ " */"; source_map := "" |}.

(** The world, up to what the compiler prints. *)
Definition env (run : Z * string * option string) (outputs : list CompilerOutput) : Env :=
  {| depLib := graphLib;
     path_join := fun args => Ok (String.concat "/" (map pathArgText args));
     path_dirname := fun p => p;
     path_resolve := fun a b => a ++ "/" ++ b;
     path_relative := fun _ b => b;
     recursive := fun p _ => Ok (map (fun d => depGraph.path d) files);
     fs_readFile := fun _ => Ok "";
     parseFileAsync := fun file =>
       Ok {| parser.dependencies :=
               List.filter (fun d => String.eqb (depGraph.path d) file) files;
             parser.hasFatalError := false;
             parser.errors := [] |};
     parseDependencyFile := fun _ _ =>
       {| parser.dependencies := []; parser.hasFatalError := false; parser.errors := [] |};
     setClosurePath := fun _ d => d;
     getDepFileText := fun _ deps => String.concat ";" (map depGraph.path deps);
     compiler_run := fun _ _ _ => run;
     tempy_file := fun n => "/tmp/" ++ pretty n ++ ".closure.conf";
     JSON_parse := fun _ => Ok outputs;
     JSON_stringify := fun o => String.concat "," (map fst o);
     stripIndents := fun _ values => String.concat "" values;
     String_replace := fun s _ _ => s;
     replaceNewlines := fun s _ => s;
     new_URL := fun url base =>
       Ok {| beforeSearch := beforeSearch base ++ url; searchParams := [("id", "main")] |};
     URL_toString := fun u =>
       beforeSearch u ++ "?"
       ++ String.concat "&" (map (fun kv => fst kv ++ "=" ++ snd kv) (searchParams u));
     inputsUrlPath := "/inputs";
     googBaseUrlPath := "/closure/goog/base.js" |}.

Definition modules : list (string * ModuleConfig) :=
  [ ("app", {| inputs := ["/src/app.js"]; deps := [] |});
    ("a", {| inputs := ["/src/a.js"]; deps := ["app"] |});
    ("b", {| inputs := ["/src/b.js"]; deps := ["app"] |}) ].

Definition entryConfig : EntryConfig.t :=
  {| EntryConfig.id := "main";
     EntryConfig.mode := SIMPLE;
     EntryConfig.paths := ["/src"];
     EntryConfig.inputs := None;
     EntryConfig.externs := None;
     EntryConfig.modules := Some modules;
     EntryConfig.test_excludes := None;
     EntryConfig.debug := None;
     EntryConfig.language_in := None;
     EntryConfig.language_out := None;
     EntryConfig.level := None;
     EntryConfig.global_scope_name := None;
     EntryConfig.module_output_path := None;
     EntryConfig.output_file := None;
     EntryConfig.output_wrapper := None;
     EntryConfig.pretty_print := None;
     EntryConfig.print_input_delimiter := None;
     EntryConfig.define := None;
     EntryConfig.checks := None |}.

Definition config : DuckConfig :=
  {| closureLibraryDir := "/closure-library"; inputsRoot := "/" |}.

Definition baseUrl : URL :=
  {| beforeSearch := "http://localhost:9810"; searchParams := [] |}.

Definition dag : Dag.t :=
  {| Dag.chunks :=
       [ {| Dag.id := "app"; Dag.explicitInputs := ["/src/app.js"]; Dag.parentIds := [] |};
         {| Dag.id := "a"; Dag.explicitInputs := ["/src/a.js"]; Dag.parentIds := ["app"] |};
         {| Dag.id := "b"; Dag.explicitInputs := ["/src/b.js"]; Dag.parentIds := ["app"] |} ] |}.

Definition sortedChunkIds : list string := ["app"; "a"; "b"].

Definition transitive : list (string * list string) :=
  [ ("app", ["/src/base.js"; "/src/app.js"]);
    ("a", ["/src/base.js"; "/src/x.js"; "/src/app.js"; "/src/a.js"]);
    ("b", ["/src/base.js"; "/src/x.js"; "/src/app.js"; "/src/b.js"]) ].

Definition placed : list (string * list string) :=
  [ ("app", ["/src/base.js"; "/src/app.js"; "/src/x.js"]);
    ("a", ["/src/a.js"]);
    ("b", ["/src/b.js"]) ].

Definition outputs : list CompilerOutput := [output "app"; output "a"; output "b"].


Definition quiet : Z * string * option string := (0%Z, "[]", Some "").

Definition initial : State :=
  {| entryIdToChunkCache := ∅;
     depFileTextCache := ∅;
     dependenciesCache := ∅;
     compilerRuns := [];
     flagfiles := [] |}.

Definition session : gmap string (option CompilerOutput) :=
  <["app" := Some (output "app")]>
    (<["a" := Some (output "a")]> (<["b" := Some (output "b")]> ∅)).

Definition query (chunkId parent : option string) : CompileQuery :=
  {| query_id := "main"; query_mode := None; chunk := chunkId; parentRequest := parent |}.

(** The state after the deps file and the root chunk have been requested:
    the dependencies and the deps file text are cached under [main], and one
    session is stored under request id [1]. *)
Definition served : State :=
  let E := env quiet outputs in
  snd (@replyChunksCompile E config baseUrl entryConfig "/compile?id=main" "1"
         (query None None)
         (snd (@generateDepFileText E entryConfig "/closure-library" "/" initial))).

(** The entry config after an edit of its paths. *)
Definition movedEntryConfig : EntryConfig.t :=
  {| EntryConfig.id := "main";
     EntryConfig.mode := SIMPLE;
     EntryConfig.paths := ["/elsewhere"];
     EntryConfig.inputs := None;
     EntryConfig.externs := None;
     EntryConfig.modules := Some modules;
     EntryConfig.test_excludes := Some ["/elsewhere/test"];
     EntryConfig.debug := None;
     EntryConfig.language_in := None;
     EntryConfig.language_out := None;
     EntryConfig.level := None;
     EntryConfig.global_scope_name := None;
     EntryConfig.module_output_path := None;
     EntryConfig.output_file := None;
     EntryConfig.output_wrapper := None;
     EntryConfig.pretty_print := None;
     EntryConfig.print_input_delimiter := None;
     EntryConfig.define := None;
     EntryConfig.checks := None |}.

End Example.

(** ** Pages: the rest of compiler.ts and serve.ts *)

Section Pages.
Context {E : Env}.

(** [createOutputWrapper]: [output_wrapper] does not support "%n%", so the
    newlines are dropped. *)
Definition createOutputWrapper (entryConfig : EntryConfig.t) (level : string) : string :=
  replaceNewlines (createBaseOutputWrapper entryConfig level true) "".

Definition createCompilerOptionsForPage (entryConfig : EntryConfig.t) (outputToFile : bool)
  : result CompilerOptions :=
  (opts <- createBaseOptions entryConfig outputToFile ;;
   level <- assertNonNullable (compilationLevelOf opts) "" ;;
   let wrapper := createOutputWrapper entryConfig level in
   if negb (String.eqb wrapper "") && negb (String.eqb wrapper wrapperMarker)
   then Ok (Js.set "output_wrapper" (OStr wrapper) opts)
   else Ok opts)%result.

(** [replyPageCompile] of serve.ts. *)
Definition replyPageCompile (entryConfig : EntryConfig.t) : M Response :=
  (options <- lift (createCompilerOptionsForPage entryConfig false) ;;
   compileOutputs <- compileToJson options ;;
   match compileOutputs with
   | [output] => ret (Sent 200 "application/javascript" (src output))
   | _ =>
       lift (Throw (Error ("Unexpectedly chunkOutputs.length must be 1, but actual "
                           ++ pretty (length compileOutputs))))
   end)%M.

End Pages.

(** ** The three steps of [createBaseOptions]

    The options that do not depend on the kind of entry config, the options
    of a chunked entry config or of a page, and the options that follow
    them.  [createBaseOptions] is their composition; see
    [createBaseOptions_steps]. *)

Definition commonOptions (entryConfig : EntryConfig.t) (outputToFile : bool)
  : CompilerOptions :=
  let opts : CompilerOptions := [] in
  let opts := if negb outputToFile then Js.set "json_streams" (OStr "OUT") opts else opts in
  let opts := copy (EntryConfig.language_in entryConfig) OStr "language_in" opts in
  let opts := copy (EntryConfig.language_out entryConfig) OStr "language_out" opts in
  let opts := copy (EntryConfig.level entryConfig) OStr "warning_level" opts in
  let opts := copy (EntryConfig.debug entryConfig) OBool "debug" opts in
  let opts :=
    if truthyString (EntryConfig.global_scope_name entryConfig)
    then Js.set "rename_prefix_namespace" (OStr GLOBAL_NAMESPACE) opts
    else opts in
  match EntryConfig.mode entryConfig with
  | RAW => Js.set "compilation_level" (OStr "WHITESPACE") opts
  | m => Js.set "compilation_level" (OStr (modeName m)) opts
  end.

Definition inputOptions (entryConfig : EntryConfig.t) (outputToFile : bool)
    (opts : CompilerOptions) : result CompilerOptions :=
  match EntryConfig.modules entryConfig with
  | Some _ =>
      let opts := Js.set "dependency_mode" (OStr "NONE") opts in
      if outputToFile then
        if negb (truthyString (EntryConfig.module_output_path entryConfig))
        then Throw (Error ("entryConfig[" ++ quot ++ "module-output-path" ++ quot
                           ++ "] must be specified"))
        else
          let outputPath := default "" (EntryConfig.module_output_path entryConfig) in
          let suffix := "%s.js" in
          if negb (endsWith outputPath suffix)
          then Throw (TypeError (quot ++ "moduleOutputPath" ++ quot ++ " must end with "
                                 ++ quot ++ suffix ++ quot ++ ", but actual "
                                 ++ quot ++ outputPath ++ quot))
          else
            Ok (Js.set "chunk_output_path_prefix"
                  (OStr (String.substring 0
                           (String.length outputPath - String.length suffix) outputPath))
                  opts)
      else Ok opts
  | None =>
      let opts := Js.set "dependency_mode" (OStr "PRUNE") opts in
      let js :=
        (EntryConfig.paths entryConfig
         ++ match EntryConfig.externs entryConfig with
            | Some externs => map (fun extern => String.append "!" extern) externs
            | None => []
            end)%list in
      let opts := Js.set "js" (OList js) opts in
      (inputs <- assertNonNullable (EntryConfig.inputs entryConfig) "" ;;
       let opts := Js.set "entry_point" (OList inputs) opts in
       if outputToFile then
         if negb (truthyString (EntryConfig.output_file entryConfig))
         then Throw (Error ("entryConfig[" ++ quot ++ "output-file" ++ quot
                            ++ "] must be specified"))
         else Ok (copy (EntryConfig.output_file entryConfig) OStr "js_output_file" opts)
       else Ok opts)%result
  end.

Definition checkOptions (entryConfig : EntryConfig.t) (opts : CompilerOptions)
  : result CompilerOptions :=
  let opts :=
    match EntryConfig.externs entryConfig with
    | Some externs => Js.set "externs" (OList externs) opts
    | None => opts
    end in
  let formatting :=
    ((if truthyBool (EntryConfig.pretty_print entryConfig) then ["PRETTY_PRINT"] else [])
     ++ (if truthyBool (EntryConfig.print_input_delimiter entryConfig)
         then ["PRINT_INPUT_DELIMITER"] else []))%list in
  let opts := setIfNonEmpty "formatting" formatting opts in
  (opts <-
     match EntryConfig.define entryConfig with
     | Some define =>
         defined <- mapM defineEntry define ;;
         Ok (Js.set "define" (OList defined) opts)
     | None => Ok opts
     end ;;
   opts <-
     match EntryConfig.checks entryConfig with
     | Some checks =>
         sorted <- foldM checkEntry checks ([], [], []) ;;
         let '(jscompError, jscompWarning, jscompOff) := sorted in
         Ok (setIfNonEmpty "jscomp_off" jscompOff
               (setIfNonEmpty "jscomp_warning" jscompWarning
                  (setIfNonEmpty "jscomp_error" jscompError opts)))
     | None => Ok opts
     end ;;
   Ok opts)%result.

(** ** Vocabulary of the further properties *)

(** The options [createBaseOptions] may write. *)
Definition baseOptionKeys : list string :=
  [ "json_streams"; "language_in"; "language_out"; "warning_level"; "debug";
    "rename_prefix_namespace"; "compilation_level"; "dependency_mode";
    "chunk_output_path_prefix"; "js"; "entry_point"; "js_output_file"; "externs";
    "formatting"; "define"; "jscomp_error"; "jscomp_warning"; "jscomp_off" ].

(** A [define] entry that [createBaseOptions] accepts: no single quote in a
    string value. *)
Definition defineAccepted (kv : string * DefineValue) : bool :=
  match snd kv with
  | DString value => negb (includes value "'")
  | DOther _ => true
  end.

(** A [checks] entry that [createBaseOptions] accepts. *)
Definition checkAccepted (kv : string * string) : bool :=
  String.eqb (snd kv) "ERROR" || String.eqb (snd kv) "WARNING" || String.eqb (snd kv) "OFF".

(** The compilation level of a mode: the compiler knows no RAW. *)
Definition compilationLevel (mode : PlovrMode) : string :=
  match mode with
  | RAW => "WHITESPACE"
  | m => modeName m
  end.

(** A list option that is left out when the list is empty. *)
Definition listOption (l : list string) : option OptValue :=
  match l with
  | [] => None
  | _ => Some (OList l)
  end.

(** The entry configs [createBaseOptions] makes options of: a chunked one
    that is written to files needs a module output path ending in "%s.js", a
    page needs inputs, and an output file when it is written to one. *)
Definition entryAccepted (entryConfig : EntryConfig.t) (outputToFile : bool) : bool :=
  match EntryConfig.modules entryConfig with
  | Some _ =>
      negb outputToFile
      || (truthyString (EntryConfig.module_output_path entryConfig)
          && endsWith (default "" (EntryConfig.module_output_path entryConfig)) "%s.js")
  | None =>
      match EntryConfig.inputs entryConfig with
      | Some _ => negb outputToFile || truthyString (EntryConfig.output_file entryConfig)
      | None => false
      end
  end
  && forallb defineAccepted (default [] (EntryConfig.define entryConfig))
  && forallb checkAccepted (default [] (EntryConfig.checks entryConfig)).

(** The names of the checks set to a level, in the order of the entry
    config. *)
Definition checksAt (level : string) (checks : list (string * string)) : list string :=
  map fst (List.filter (fun kv => String.eqb (snd kv) level) checks).

(** A file [getDependencies] hands to the parser: it ends in ".js", and it is
    no "_test.js" file under a test-excluded prefix. *)
Definition parsedFile (entryConfig : EntryConfig.t) (file : string) : bool :=
  endsWith file ".js"
  && match EntryConfig.test_excludes entryConfig with
     | Some excludes =>
         if existsb (fun exclude => startsWith file exclude) excludes
         then negb (endsWith file "_test.js")
         else true
     | None => true
     end.

(** The pairs of a name among search parameters. *)
Definition paramsNamed (name : string) (params : list (string * string))
  : list (string * string) :=
  List.filter (fun nv => String.eqb (fst nv) name) params.

(** ** A page to run the code on *)

Module ExamplePage.

Definition entryConfig : EntryConfig.t :=
  {| EntryConfig.id := "page";
     EntryConfig.mode := RAW;
     EntryConfig.paths := ["/src"];
     EntryConfig.inputs := Some ["/src/app.js"];
     EntryConfig.externs := Some ["/externs/e.js"];
     EntryConfig.modules := None;
     EntryConfig.test_excludes := Some ["/src/x"];
     EntryConfig.debug := Some true;
     EntryConfig.language_in := Some "ES6";
     EntryConfig.language_out := None;
     EntryConfig.level := Some "VERBOSE";
     EntryConfig.global_scope_name := None;
     EntryConfig.module_output_path := None;
     EntryConfig.output_file := None;
     EntryConfig.output_wrapper := None;
     EntryConfig.pretty_print := Some true;
     EntryConfig.print_input_delimiter := None;
     EntryConfig.define := Some [("goog.DEBUG", DOther "false"); ("NAME", DString "duck")];
     EntryConfig.checks :=
       Some [("checkTypes", "ERROR"); ("deprecated", "OFF"); ("checkVars", "ERROR")] |}.

(** A chunked entry config that is written to files. *)
Definition chunked : EntryConfig.t :=
  {| EntryConfig.id := "main";
     EntryConfig.mode := ADVANCED;
     EntryConfig.paths := ["/src"];
     EntryConfig.inputs := None;
     EntryConfig.externs := None;
     EntryConfig.modules := Some Example.modules;
     EntryConfig.test_excludes := None;
     EntryConfig.debug := None;
     EntryConfig.language_in := None;
     EntryConfig.language_out := None;
     EntryConfig.level := None;
     EntryConfig.global_scope_name := None;
     EntryConfig.module_output_path := Some "/out/chunk-%s.js";
     EntryConfig.output_file := None;
     EntryConfig.output_wrapper := None;
     EntryConfig.pretty_print := None;
     EntryConfig.print_input_delimiter := None;
     EntryConfig.define := None;
     EntryConfig.checks := None |}.

(** More than a hundred js files. *)
Definition manyJs : list string := repeat "/src/app.js" 101.

End ExamplePage.
(** ** Facts about the insertion-ordered containers *)

Module JsFacts.
Import Js.

Lemma has_In (x : string) (s : list string) : has x s = true <-> In x s.
Proof.
  unfold has. rewrite existsb_exists. split.
  - intros [y [Hy Heq]]. apply String.eqb_eq in Heq. now subst.
  - intros H. exists x. split; [assumption | apply String.eqb_refl].
Qed.

Lemma has_false (x : string) (s : list string) : has x s = false <-> ~ In x s.
Proof.
  rewrite <- has_In. destruct (has x s); split; congruence.
Qed.

Lemma add_In (s : list string) (x y : string) :
  In y (add s x) <-> In y s \/ y = x.
Proof.
  unfold add. destruct (has x s) eqn:E.
  - apply has_In in E. split; [tauto | intros [H | ->]; assumption].
  - rewrite in_app_iff. simpl. intuition.
Qed.


Lemma add_NoDup (s : list string) (x : string) : List.NoDup s -> List.NoDup (add s x).
Proof.
  intros H. unfold add. destruct (has x s) eqn:E; [assumption |].
  apply has_false in E.
  apply List.NoDup_app; [assumption | apply List.NoDup_cons; [intros [] | apply List.NoDup_nil] |].
  intros y Hy [-> | []]. contradiction.
Qed.

Lemma fold_add_In (l s : list string) (y : string) :
  In y (fold_left add l s) <-> In y s \/ In y l.
Proof.
  revert s. induction l as [| x l IH]; intros s; simpl.
  - tauto.
  - rewrite IH, add_In. intuition.
Qed.

Lemma fold_add_NoDup (l s : list string) : List.NoDup s -> List.NoDup (fold_left add l s).
Proof.
  revert s. induction l as [| x l IH]; intros s H; simpl; [assumption |].
  apply IH, add_NoDup, H.
Qed.


Lemma newSet_In (l : list string) (y : string) : In y (newSet l) <-> In y l.
Proof. unfold newSet. rewrite fold_add_In. simpl. tauto. Qed.

Lemma newSet_NoDup (l : list string) : List.NoDup (newSet l).
Proof. apply fold_add_NoDup, List.NoDup_nil. Qed.

Lemma newSet_snoc (l : list string) (x : string) :
  newSet (l ++ [x]) = add (newSet l) x.
Proof. unfold newSet. now rewrite fold_left_app. Qed.

Section MapFacts.
Context {V : Type}.
Implicit Types (m : list (string * V)) (k : string) (v : V).

Lemma get_set_same m k v : get k (set k v m) = Some v.
Proof.
  induction m as [| [k' v'] m IH]; simpl.
  - now rewrite String.eqb_refl.
  - destruct (String.eqb k k') eqn:E; simpl; rewrite ?String.eqb_refl, ?E; auto.
Qed.

Lemma get_set_other m k k' v : k <> k' -> get k' (set k v m) = get k' m.
Proof.
  intros Hne. induction m as [| [k0 v0] m IH]; simpl.
  - apply not_eq_sym in Hne. apply String.eqb_neq in Hne. now rewrite Hne.
  - destruct (String.eqb k k0) eqn:E; simpl.
    + apply String.eqb_eq in E. subst k0.
      apply not_eq_sym in Hne. apply String.eqb_neq in Hne. now rewrite Hne.
    + now rewrite IH.
Qed.

Lemma get_Some_In m k v : get k m = Some v -> In (k, v) m.
Proof.
  induction m as [| [k' v'] m IH]; simpl; [discriminate |].
  destruct (String.eqb k k') eqn:E.
  - apply String.eqb_eq in E. intros [= ->]. subst. now left.
  - intros H. right. auto.
Qed.

Lemma get_Some_keys m k v : get k m = Some v -> In k (keys m).
Proof.
  intros H. apply get_Some_In in H. unfold keys.
  change k with (fst (k, v)). now apply in_map.
Qed.

Lemma keys_get m k : In k (keys m) -> exists v, get k m = Some v.
Proof.
  induction m as [| [k' v'] m IH]; simpl; [tauto |].
  intros [-> | H].
  - rewrite String.eqb_refl. eauto.
  - destruct (String.eqb k k'); eauto.
Qed.

Lemma In_NoDup_get m k v : List.NoDup (keys m) -> In (k, v) m -> get k m = Some v.
Proof.
  induction m as [| [k' v'] m IH]; simpl; [tauto |].
  intros Hnd Hin. apply NoDup_cons_iff in Hnd. destruct Hnd as [Hk Hnd].
  destruct Hin as [[= -> ->] | Hin].
  - now rewrite String.eqb_refl.
  - destruct (String.eqb k k') eqn:E.
    + apply String.eqb_eq in E. subst k'. exfalso. apply Hk.
      change k with (fst (k, v)). now apply in_map.
    + auto.
Qed.

Lemma keys_set_In m k v k' : In k' (keys (set k v m)) <-> In k' (keys m) \/ k' = k.
Proof.
  induction m as [| [k0 v0] m IH]; simpl.
  - intuition.
  - destruct (String.eqb k k0) eqn:E; simpl.
    + apply String.eqb_eq in E. subst. intuition.
    + rewrite IH. intuition.
Qed.

Lemma keys_set_NoDup m k v : List.NoDup (keys m) -> List.NoDup (keys (set k v m)).
Proof.
  induction m as [| [k0 v0] m IH]; simpl; intros Hnd.
  - apply List.NoDup_cons; [intros [] | apply List.NoDup_nil].
  - apply NoDup_cons_iff in Hnd. destruct Hnd as [Hk Hnd].
    destruct (String.eqb k k0) eqn:E; simpl.
    + apply String.eqb_eq in E. subst. apply NoDup_cons_iff. now split.
    + apply NoDup_cons_iff. split; [| auto].
      intros Hin. apply keys_set_In in Hin. destruct Hin as [Hin | ->].
      * contradiction.
      * now rewrite String.eqb_refl in E.
Qed.

Lemma keys_set_present m k v v0 : get k m = Some v0 -> keys (set k v m) = keys m.
Proof.
  induction m as [| [k' v'] m IH]; simpl; [discriminate |].
  destruct (String.eqb k k') eqn:E; simpl.
  - apply String.eqb_eq in E. now subst.
  - intros H. now rewrite IH.
Qed.
End MapFacts.

End JsFacts.

(** ** Facts about the loops *)

Lemma foldM_app {A B : Type} (f : A -> B -> result A) (l1 l2 : list B) (a : A) :
  foldM f (l1 ++ l2) a =
  match foldM f l1 a with
  | Ok a' => foldM f l2 a'
  | Throw e => Throw e
  end.
Proof.
  revert a. induction l1 as [| b l1 IH]; intros a; simpl; [reflexivity |].
  destruct (f a b); [apply IH | reflexivity].
Qed.

Lemma foldM_concat {A B : Type} (f : A -> B -> result A) (ls : list (list B)) (a : A) :
  foldM (fun acc l => foldM f l acc) ls a = foldM f (concat ls) a.
Proof.
  revert a. induction ls as [| l ls IH]; intros a; simpl; [reflexivity |].
  rewrite foldM_app. destruct (foldM f l a); [apply IH | reflexivity].
Qed.

Lemma foldM_In_Throw {A B : Type} (f : A -> B -> result A) (l : list B) (a : A) (b : B) :
  In b l -> (forall a', isOk (f a' b) = false) -> isOk (foldM f l a) = false.
Proof.
  revert a. induction l as [| b' l IH]; intros a Hin Hf; simpl; [destruct Hin |].
  destruct Hin as [-> | Hin].
  - specialize (Hf a). destruct (f a b); [discriminate | reflexivity].
  - destruct (f a b'); [now apply IH | reflexivity].
Qed.

Lemma mapM_In_Throw {A B : Type} (f : A -> result B) (l : list A) (a : A) :
  In a l -> isOk (f a) = false -> isOk (mapM f l) = false.
Proof.
  induction l as [| a' l IH]; intros Hin Hf; simpl; [destruct Hin |].
  destruct Hin as [-> | Hin].
  - destruct (f a); [discriminate | reflexivity].
  - destruct (f a'); [| reflexivity].
    specialize (IH Hin Hf). destruct (mapM f l); [discriminate | reflexivity].
Qed.

(** ** The splitting loop in closed form *)

Module SplitFacts.
Import Js JsFacts.

Section Loop.
Variable trans : list (string * list string).
Variable dag : Dag.t.

Lemma placedIn_true (C p : string) :
  placedIn trans dag C p = true <-> placement trans dag p = Ok C.
Proof.
  unfold placedIn. destruct (placement trans dag p) as [t | e].
  - rewrite String.eqb_eq. split; congruence.
  - split; discriminate.
Qed.

Lemma place_loop (rest : list string) :
  forall (done : list string) (acc out : list (string * list string)),
    (forall C l, get C acc = Some l ->
                 l = newSet (List.filter (placedIn trans dag C) done)) ->
    foldM (placeDepPath trans dag) rest acc = Ok out ->
    keys out = keys acc /\
    (forall C l, get C out = Some l ->
                 l = newSet (List.filter (placedIn trans dag C) (done ++ rest))) /\
    (forall p, In p rest ->
               exists t, placement trans dag p = Ok t /\ In t (keys acc)).
Proof.
  induction rest as [| p rest IH]; intros done acc out Hacc Hrun; simpl in Hrun.
  - injection Hrun as <-. rewrite app_nil_r. repeat split; auto. intros p [].
  - unfold placeDepPath at 1 in Hrun. unfold bind in Hrun.
    destruct (Dag.getLcaNode dag (chunkIdsWithDep trans p)) as [c | e] eqn:Hlca;
      [| discriminate].
    destruct (get (Dag.id c) acc) as [s |] eqn:Hget; simpl in Hrun; [| discriminate].
    assert (Hp : placement trans dag p = Ok (Dag.id c))
      by (unfold placement; now rewrite Hlca).
    specialize (IH (done ++ [p])%list (set (Dag.id c) (add s p) acc) out).
    destruct IH as (Hk & Hout & Hrest); [| assumption |].
    + intros C l HC. rewrite List.filter_app. simpl.
      destruct (String.eqb (Dag.id c) C) eqn:E.
      * apply String.eqb_eq in E. subst C.
        rewrite get_set_same in HC. injection HC as <-.
        assert (Ht : placedIn trans dag (Dag.id c) p = true)
          by now apply placedIn_true.
        rewrite Ht, newSet_snoc. f_equal. now apply Hacc.
      * apply String.eqb_neq in E.
        rewrite get_set_other in HC by assumption.
        assert (Hf : placedIn trans dag C p = false).
        { destruct (placedIn trans dag C p) eqn:Hc; [| reflexivity].
          apply placedIn_true in Hc. congruence. }
        rewrite Hf, app_nil_r. now apply Hacc.
    + rewrite (keys_set_present _ _ _ _ Hget) in Hk, Hrest.
      split; [assumption |]. split.
      * intros C l HC. specialize (Hout C l HC).
        now rewrite <- app_assoc in Hout.
      * intros q [<- | Hq]; [| now apply Hrest].
        exists (Dag.id c). split; [assumption |]. eapply get_Some_keys, Hget.
Qed.
End Loop.

Lemma init_get (sortedChunkIds : list string) :
  forall (m : list (string * list string)),
    (forall C l, get C m = Some l -> l = []) ->
    forall C l,
      get C (fold_left (fun m chunk => set chunk [] m) sortedChunkIds m) = Some l ->
      l = [].
Proof.
  induction sortedChunkIds as [| c ids IH]; intros m Hm C l; simpl; [apply Hm |].
  apply IH. intros C' l' H'.
  destruct (String.eqb c C') eqn:E.
  - apply String.eqb_eq in E. subst. rewrite get_set_same in H'. congruence.
  - apply String.eqb_neq in E. rewrite get_set_other in H' by assumption. eauto.
Qed.

Lemma init_keys (sortedChunkIds : list string) :
  forall (m : list (string * list string)),
    List.NoDup (keys m) ->
    List.NoDup (keys (fold_left (fun m chunk => set chunk [] m) sortedChunkIds m)) /\
    forall C,
      In C (keys (fold_left (fun m chunk => set chunk [] m) sortedChunkIds m)) <->
      In C (keys m) \/ In C sortedChunkIds.
Proof.
  induction sortedChunkIds as [| c ids IH]; intros m Hm; simpl.
  - split; [assumption | tauto].
  - destruct (IH (set c [] m)) as [Hnd Hin]; [now apply keys_set_NoDup |].
    split; [assumption |]. intros C. rewrite Hin, keys_set_In. intuition.
Qed.

(** What [splitDepsIntoChunks] returns: the chunk ids keep the order of
    [sortedChunkIds], and the list of a chunk holds the paths placed in it,
    in the order in which the loops first meet them. *)
Lemma splitDepsIntoChunks_closed_form
    (sortedChunkIds : list string) (trans : list (string * list string))
    (dag : Dag.t) (out : list (string * list string)) :
  splitDepsIntoChunks sortedChunkIds trans dag = Ok out ->
  List.NoDup (keys out) /\
  (forall C, In C (keys out) <-> In C sortedChunkIds) /\
  (forall C l, get C out = Some l ->
               l = newSet (List.filter (placedIn trans dag C) (concat (values trans)))) /\
  (forall p, In p (concat (values trans)) ->
             exists t, placement trans dag p = Ok t /\ In t (keys out)).
Proof.
  unfold splitDepsIntoChunks. rewrite foldM_concat. intros Hrun.
  pose proof (init_keys sortedChunkIds [] (List.NoDup_nil _)) as [Hnd Hin].
  apply (place_loop trans dag _ []) in Hrun.
  - destruct Hrun as (Hk & Hout & Hrest). rewrite Hk.
    split; [assumption |]. split.
    + intros C. rewrite Hin. simpl. tauto.
    + split; assumption.
  - intros C l H. simpl. apply (init_get sortedChunkIds []) in H; [assumption |].
    intros ? ? [=].
Qed.

End SplitFacts.

(** ** The chunk DAG: what [getLcaNode] returns *)

Module DagFacts.
Import Dag.

Lemma ancestorClosure_sound (d : t) (n : nat) :
  forall i a, In a (ancestorClosure n d i) -> ancestorOrSelf d a i.
Proof.
  induction n as [| n IH]; intros i a; simpl.
  - intros [<- | []]. constructor.
  - intros [<- | H]; [constructor |].
    apply in_flat_map in H. destruct H as (p & Hp & Ha).
    eapply aos_parent; eauto.
Qed.

Lemma commonAncestors_sound (d : t) (ids : list string) (a i : string) :
  In a (commonAncestors d ids) -> In i ids -> ancestorOrSelf d a i.
Proof.
  destruct ids as [| i0 rest]; simpl; [tauto |].
  intros Ha Hi. apply filter_In in Ha. destruct Ha as [Ha Hall].
  destruct Hi as [<- | Hi].
  - eapply ancestorClosure_sound, Ha.
  - rewrite forallb_forall in Hall. specialize (Hall i Hi).
    apply JsFacts.has_In in Hall. eapply ancestorClosure_sound, Hall.
Qed.

Lemma getLcaNode_common (d : t) (ids : list string) (c : Chunk) :
  getLcaNode d ids = Ok c -> In (id c) (commonAncestors d ids).
Proof.
  unfold getLcaNode.
  destruct (find _ (rev (getSortedIds d))) as [i |] eqn:Hfind; [| discriminate].
  destruct (findChunk d i) as [c' |] eqn:Hc; [| discriminate].
  intros [= ->]. apply find_some in Hfind. destruct Hfind as [_ Hi].
  apply andb_prop in Hi. destruct Hi as [Hi _]. apply JsFacts.has_In in Hi.
  unfold findChunk in Hc. apply find_some in Hc. destruct Hc as [_ Hc].
  apply String.eqb_eq in Hc. now rewrite Hc.
Qed.

(** The chunk returned for a set of ids is an ancestor-or-self of each. *)
Lemma getLcaNode_ancestorOrSelf (d : t) (ids : list string) (c : Chunk) (i : string) :
  getLcaNode d ids = Ok c -> In i ids -> ancestorOrSelf d (id c) i.
Proof.
  intros H Hi. eapply commonAncestors_sound; [| exact Hi].
  now apply getLcaNode_common.
Qed.

Lemma list_max_attained {A : Type} (f : A -> nat) (l : list A) :
  l <> [] -> exists x, In x l /\ f x = list_max (map f l).
Proof.
  induction l as [| a l IH]; [congruence |]. intros _.
  destruct l as [| b l].
  - exists a. simpl. split; [now left | lia].
  - destruct IH as (x & Hx & Hfx); [discriminate |].
    change (list_max (map f (a :: b :: l))) with (Nat.max (f a) (list_max (map f (b :: l)))).
    destruct (Nat.max_spec (f a) (list_max (map f (b :: l)))) as [[_ ->] | [_ ->]].
    + exists x. split; [now right | assumption].
    + exists a. split; [now left | reflexivity].
Qed.

Lemma topoOrder_NoDup (fuel : nat) :
  forall (remaining : list Chunk) (emitted : list string),
    List.NoDup emitted ->
    (forall c, In c remaining -> ~ In (id c) emitted) ->
    List.NoDup (topoOrder fuel remaining emitted).
Proof.
  induction fuel as [| fuel IH]; intros remaining emitted Hnd Hfresh; simpl; [assumption |].
  destruct (find _ remaining) as [c |] eqn:Hfind; [| assumption].
  apply find_some in Hfind. destruct Hfind as [Hc _].
  apply IH.
  - apply List.NoDup_app; [assumption | apply List.NoDup_cons; [intros [] | apply List.NoDup_nil] |].
    intros x Hx [<- | []]. exact (Hfresh c Hc Hx).
  - intros c' Hc' Hin. apply filter_In in Hc'. destruct Hc' as [Hc' Hne].
    apply in_app_or in Hin. destruct Hin as [Hin | [Heq | []]].
    + exact (Hfresh c' Hc' Hin).
    + rewrite <- Heq, String.eqb_refl in Hne. discriminate.
Qed.

Lemma getSortedIds_NoDup (d : t) : List.NoDup (getSortedIds d).
Proof.
  unfold getSortedIds. apply topoOrder_NoDup; [apply List.NoDup_nil | intros c _ []].
Qed.

Lemma topoOrder_ids (fuel : nat) :
  forall (remaining : list Chunk) (emitted : list string) (i : string),
    In i (topoOrder fuel remaining emitted) ->
    In i emitted \/ exists c, In c remaining /\ id c = i.
Proof.
  induction fuel as [| fuel IH]; intros remaining emitted i; simpl; [tauto |].
  destruct (find _ remaining) as [c |] eqn:Hfind; [| tauto].
  intros Hi. apply find_some in Hfind. destruct Hfind as [Hc _].
  apply IH in Hi. destruct Hi as [Hi | (c' & Hc' & Hid)].
  - apply in_app_or in Hi. destruct Hi as [Hi | [<- | []]]; [now left |].
    right. now exists c.
  - apply filter_In in Hc'. right. exists c'. tauto.
Qed.

Lemma getSortedIds_findChunk (d : t) (i : string) :
  In i (getSortedIds d) -> exists c, findChunk d i = Some c /\ id c = i.
Proof.
  intros Hi. apply topoOrder_ids in Hi. destruct Hi as [[] | (c & Hc & Hid)].
  unfold findChunk. destruct (find _ (chunks d)) as [c' |] eqn:Hfind.
  - exists c'. split; [reflexivity |]. apply find_some in Hfind.
    now apply String.eqb_eq.
  - apply (find_none _ _ Hfind) in Hc. rewrite Hid, String.eqb_refl in Hc. discriminate.
Qed.

(** On a DAG dominated by a single root, [getLcaNode] returns a sorted chunk
    for every non-empty set of sorted chunks. *)
Lemma getLcaNode_returns (d : t) (ids : list string) :
  dominated d = true -> ids <> [] ->
  (forall i, In i ids -> In i (getSortedIds d)) ->
  exists c, getLcaNode d ids = Ok c /\ In (id c) (getSortedIds d).
Proof.
  intros Hdom Hne Hids. unfold dominated in Hdom. apply andb_prop in Hdom.
  destruct Hdom as [Hclosed Hroot].
  rewrite forallb_forall in Hclosed. apply existsb_exists in Hroot.
  destruct Hroot as (r & Hr & Hrall). rewrite forallb_forall in Hrall.
  destruct ids as [| i0 rest]; [congruence |].
  assert (Hcommon : forall a, In a (commonAncestors d (i0 :: rest)) ->
                              In a (getSortedIds d)).
  { intros a Ha. simpl in Ha. apply filter_In in Ha. destruct Ha as [Ha _].
    specialize (Hclosed i0 (Hids i0 (or_introl eq_refl))).
    rewrite forallb_forall in Hclosed. apply JsFacts.has_In. now apply Hclosed. }
  assert (Hrc : In r (commonAncestors d (i0 :: rest))).
  { simpl. apply filter_In. split.
    - apply JsFacts.has_In, Hrall, Hids. now left.
    - apply forallb_forall. intros i Hi. apply Hrall, Hids. now right. }
  destruct (list_max_attained (depth (length (chunks d)) d) (commonAncestors d (i0 :: rest)))
    as (m & Hm & Hdepth).
  { intros Hnil. rewrite Hnil in Hrc. destruct Hrc. }
  unfold getLcaNode.
  destruct (find _ (rev (getSortedIds d))) as [i |] eqn:Hfind.
  - apply find_some in Hfind. destruct Hfind as [Hi _]. apply in_rev in Hi.
    destruct (getSortedIds_findChunk d i Hi) as (c & -> & Hid).
    exists c. split; [reflexivity |]. now rewrite Hid.
  - exfalso.
    assert (Hin : In m (rev (getSortedIds d))) by (apply -> in_rev; now apply Hcommon).
    pose proof (find_none _ _ Hfind m Hin) as Hfalse. cbv beta in Hfalse.
    apply JsFacts.has_In in Hm. rewrite Hm, Hdepth, Nat.eqb_refl in Hfalse.
    discriminate.
Qed.

End DagFacts.

(** ** Placement is a partition below the requiring chunks *)

Lemma In_values_trans (trans : list (string * list string)) (s : list string) :
  In s (Js.values trans) <-> exists R, In (R, s) trans.
Proof.
  unfold Js.values. rewrite in_map_iff. split.
  - intros [[R s'] [<- H]]. now exists R.
  - intros [R H]. now exists (R, s).
Qed.

Lemma In_visited (trans : list (string * list string)) (p : string) :
  In p (concat (Js.values trans)) <-> exists R s, In (R, s) trans /\ In p s.
Proof.
  rewrite in_concat. split.
  - intros (s & Hs & Hp). apply In_values_trans in Hs. destruct Hs as [R HR]. eauto.
  - intros (R & s & HR & Hp). exists s. split; [| assumption].
    apply In_values_trans. eauto.
Qed.

Lemma chunkIdsWithDep_In (trans : list (string * list string)) (p R : string) (s : list string) :
  In (R, s) trans -> In p s -> In R (chunkIdsWithDep trans p).
Proof.
  intros HR Hp. unfold chunkIdsWithDep.
  change R with (fst (R, s)). apply in_map. apply filter_In. split; [assumption |].
  now apply JsFacts.has_In.
Qed.

Lemma placement_ancestorOrSelf
    (trans : list (string * list string)) (dag : Dag.t) (p C R : string) (s : list string) :
  placement trans dag p = Ok C -> In (R, s) trans -> In p s ->
  Dag.ancestorOrSelf dag C R.
Proof.
  unfold placement, bind.
  destruct (Dag.getLcaNode dag (chunkIdsWithDep trans p)) as [c | e] eqn:Hlca; [| discriminate].
  intros [= <-] HR Hp.
  eapply DagFacts.getLcaNode_ancestorOrSelf; [exact Hlca |].
  eapply chunkIdsWithDep_In; eauto.
Qed.

(** ** The engine returns on a DAG with a single root *)

Lemma chunkIdsWithDep_keys (trans : list (string * list string)) (p i : string) :
  In i (chunkIdsWithDep trans p) -> In i (Js.keys trans).
Proof.
  unfold chunkIdsWithDep, Js.keys. rewrite !in_map_iff.
  intros (kv & Hfst & Hkv). apply filter_In in Hkv. exists kv. tauto.
Qed.

Lemma place_loop_returns (trans : list (string * list string)) (dag : Dag.t) :
  Dag.dominated dag = true ->
  (forall k, In k (Js.keys trans) -> In k (Dag.getSortedIds dag)) ->
  forall (rest : list string) (acc : list (string * list string)),
    (forall p, In p rest -> In p (concat (Js.values trans))) ->
    (forall C, In C (Dag.getSortedIds dag) -> In C (Js.keys acc)) ->
    exists out, foldM (placeDepPath trans dag) rest acc = Ok out.
Proof.
  intros Hdom Hkeys. induction rest as [| p rest IH]; intros acc Hrest Hacc; simpl.
  - now exists acc.
  - assert (Hp : In p (concat (Js.values trans))) by (apply Hrest; now left).
    apply In_visited in Hp. destruct Hp as (R & s & HR & Hps).
    destruct (DagFacts.getLcaNode_returns dag (chunkIdsWithDep trans p) Hdom)
      as (c & Hlca & Hc).
    + intros Hnil. pose proof (chunkIdsWithDep_In trans p R s HR Hps) as Hin.
      rewrite Hnil in Hin. destruct Hin.
    + intros i Hi. apply Hkeys. eapply chunkIdsWithDep_keys, Hi.
    + destruct (JsFacts.keys_get acc (Dag.id c) (Hacc _ Hc)) as [set Hget].
      unfold placeDepPath at 1. rewrite Hlca. simpl. rewrite Hget. simpl.
      apply IH.
      * intros q Hq. apply Hrest. now right.
      * intros C HC. rewrite (JsFacts.keys_set_present _ _ _ _ Hget). now apply Hacc.
Qed.

(** With a single dominating root and transitive sets for sorted chunks
    only, [splitDepsIntoChunks] returns a placement. *)
Lemma splitDepsIntoChunks_returns (trans : list (string * list string)) (dag : Dag.t) :
  Dag.dominated dag = true ->
  (forall k, In k (Js.keys trans) -> In k (Dag.getSortedIds dag)) ->
  exists out, splitDepsIntoChunks (Dag.getSortedIds dag) trans dag = Ok out.
Proof.
  intros Hdom Hkeys. unfold splitDepsIntoChunks. rewrite foldM_concat.
  apply place_loop_returns; try assumption; [tauto |].
  intros C HC.
  apply (proj2 (SplitFacts.init_keys (Dag.getSortedIds dag) [] (List.NoDup_nil _))).
  now right.
Qed.

Lemma foldM_keys {V B : Type} (f : list (string * V) -> B -> result (list (string * V)))
    (key : B -> string) :
  (forall acc b acc', f acc b = Ok acc' ->
     forall k, In k (Js.keys acc') <-> In k (Js.keys acc) \/ k = key b) ->
  forall (l : list B) (acc out : list (string * V)),
    foldM f l acc = Ok out ->
    forall k, In k (Js.keys out) <-> In k (Js.keys acc) \/ In k (map key l).
Proof.
  intros Hstep. induction l as [| b l IH]; intros acc out Hrun k; simpl in Hrun |- *.
  - injection Hrun as <-. tauto.
  - destruct (f acc b) as [acc' |] eqn:Hf; [| discriminate].
    rewrite (IH _ _ Hrun), (Hstep _ _ _ Hf). intuition.
Qed.

Lemma findTransitiveDeps_keys {G : depGraph.Lib}
    (sortedChunkIds : list string) (dependencies : list depGraph.Dependency)
    (modules : list (string * ModuleConfig)) (trans : list (string * list string)) :
  findTransitiveDeps sortedChunkIds dependencies modules = Ok trans ->
  forall k, In k (Js.keys trans) <-> In k sortedChunkIds.
Proof.
  unfold findTransitiveDeps, bind.
  destruct (depGraph.newGraph dependencies) as [graph | e]; [| discriminate].
  intros Hrun k.
  match type of Hrun with
  | foldM ?f _ _ = _ =>
      assert (Hstep : forall acc b acc', f acc b = Ok acc' ->
                forall k, In k (Js.keys acc') <-> In k (Js.keys acc) \/ k = b)
  end.
  { intros acc chunkId acc' Hstep k'. cbv beta in Hstep.
    destruct (Js.get chunkId modules); [| discriminate].
    destruct (mapM _ _); [| discriminate].
    destruct (depGraph.order graph _); [| discriminate].
    injection Hstep as <-. rewrite JsFacts.keys_set_In. tauto. }
  rewrite (foldM_keys _ (fun chunkId : string => chunkId) Hstep _ _ _ Hrun).
  rewrite map_id. simpl. tauto.
Qed.

(** On a DAG with a single dominating root the engine fails only where
    [findTransitiveDeps] fails. *)
Lemma splitChunks_returns {G : depGraph.Lib}
    (dag : Dag.t) (dependencies : list depGraph.Dependency)
    (modules : list (string * ModuleConfig)) (trans : list (string * list string)) :
  Dag.dominated dag = true ->
  findTransitiveDeps (Dag.getSortedIds dag) dependencies modules = Ok trans ->
  exists placed, splitChunks dag dependencies modules = Ok (Dag.getSortedIds dag, placed).
Proof.
  intros Hdom Htrans.
  destruct (splitDepsIntoChunks_returns trans dag Hdom) as [placed Hplaced].
  - intros k Hk. now apply (findTransitiveDeps_keys _ _ _ _ Htrans).
  - exists placed. unfold splitChunks. rewrite Htrans. simpl. now rewrite Hplaced.
Qed.

(** C2. On a DAG with a single dominating root [splitDepsIntoChunks]
    returns; and whenever it returns, the lists it returns are a partition of
    the files of the transitive sets: the chunk ids are distinct, no list
    repeats a file, every listed file comes from some transitive set, and
    every file of a transitive set is in the list of exactly one chunk, which
    is an ancestor-or-self of every chunk whose transitive set has the
    file. *)
Theorem splitDepsIntoChunks_partition
    (trans : list (string * list string)) (dag : Dag.t) :
  (Dag.dominated dag = true ->
   (forall k, In k (Js.keys trans) -> In k (Dag.getSortedIds dag)) ->
   exists out, splitDepsIntoChunks (Dag.getSortedIds dag) trans dag = Ok out) /\
  forall sortedChunkIds out,
    splitDepsIntoChunks sortedChunkIds trans dag = Ok out ->
    List.NoDup (Js.keys out) /\
    (forall C l, In (C, l) out -> List.NoDup l) /\
    (forall C l p, In (C, l) out -> In p l -> exists R s, In (R, s) trans /\ In p s) /\
    (forall p R s, In (R, s) trans -> In p s ->
       exists C l,
         In (C, l) out /\ In p l /\
         (forall C' l', In (C', l') out -> In p l' -> C' = C /\ l' = l) /\
         (forall R' s', In (R', s') trans -> In p s' -> Dag.ancestorOrSelf dag C R')).
Proof.
  split; [apply splitDepsIntoChunks_returns |].
  intros sortedChunkIds out Hrun.
  apply SplitFacts.splitDepsIntoChunks_closed_form in Hrun.
  destruct Hrun as (Hnd & _ & Hout & Hall).
  assert (Hmem : forall C l p, In (C, l) out -> In p l ->
                   In p (concat (Js.values trans)) /\ placement trans dag p = Ok C).
  { intros C l p HC Hp. apply JsFacts.In_NoDup_get in HC; [| assumption].
    rewrite (Hout C l HC) in Hp. apply JsFacts.newSet_In, filter_In in Hp.
    destruct Hp as [Hp Hpl]. now apply SplitFacts.placedIn_true in Hpl. }
  split; [assumption |]. split; [| split].
  - intros C l HC. apply JsFacts.In_NoDup_get in HC; [| assumption].
    rewrite (Hout C l HC). apply JsFacts.newSet_NoDup.
  - intros C l p HC Hp. apply In_visited. eapply Hmem; eauto.
  - intros p R s HR Hp.
    assert (Hv : In p (concat (Js.values trans))) by (apply In_visited; eauto).
    destruct (Hall p Hv) as (C & HC & Hk).
    apply JsFacts.keys_get in Hk. destruct Hk as [l Hl].
    exists C, l. split; [now apply JsFacts.get_Some_In |]. split; [| split].
    + rewrite (Hout C l Hl). apply JsFacts.newSet_In, filter_In. split; [assumption |].
      now apply SplitFacts.placedIn_true.
    + intros C' l' HC' Hp'. destruct (Hmem C' l' p HC' Hp') as [_ Hpl].
      assert (C' = C) by congruence. subst C'. split; [reflexivity |].
      apply JsFacts.In_NoDup_get in HC'; [| assumption]. congruence.
    + intros R' s' HR' Hp'. eapply placement_ancestorOrSelf; eauto.
Qed.

(** ** Order inside a chunk *)








(** ** Missing entry points *)

Lemma isOk_false {A : Type} (r : result A) : isOk r = false -> exists e, r = Throw e.
Proof. destruct r as [a | e]; [discriminate | eauto]. Qed.

Lemma newMap_keys {V : Type} (entries : list (string * V)) :
  forall (m : list (string * V)) (k : string),
    In k (Js.keys (fold_left (fun m kv => Js.set (fst kv) (snd kv) m) entries m)) <->
    In k (Js.keys m) \/ In k (map fst entries).
Proof.
  induction entries as [| [k0 v0] entries IH]; intros m k; simpl.
  - tauto.
  - rewrite IH, JsFacts.keys_set_In. intuition.
Qed.

Lemma get_not_key {V : Type} (m : list (string * V)) (k : string) :
  ~ In k (Js.keys m) -> Js.get k m = None.
Proof.
  intros H. destruct (Js.get k m) as [v |] eqn:E; [| reflexivity].
  exfalso. eapply H, JsFacts.get_Some_keys, E.
Qed.

Lemma pathToDep_missing (dependencies : list depGraph.Dependency) (input : string) :
  ~ In input (map depGraph.path dependencies) ->
  Js.get input (Js.newMap (map (fun dep => (depGraph.path dep, dep)) dependencies)) = None.
Proof.
  intros H. apply get_not_key. unfold Js.newMap. rewrite newMap_keys.
  rewrite map_map. simpl. tauto.
Qed.

(** [findTransitiveDeps] throws on an entry file that is the path of no
    dependency. *)
Lemma findTransitiveDeps_throws {G : depGraph.Lib}
    (sortedChunkIds : list string) (dependencies : list depGraph.Dependency)
    (modules : list (string * ModuleConfig))
    (chunkId : string) (chunkConfig : ModuleConfig) (input : string) :
  In chunkId sortedChunkIds ->
  Js.get chunkId modules = Some chunkConfig ->
  In input (inputs chunkConfig) ->
  ~ In input (map depGraph.path dependencies) ->
  exists e, findTransitiveDeps sortedChunkIds dependencies modules = Throw e.
Proof.
  intros Hchunk Hcfg Hinput Hmissing. apply isOk_false.
  unfold findTransitiveDeps, bind.
  destruct (depGraph.newGraph dependencies) as [graph | e]; [| reflexivity].
  apply (foldM_In_Throw _ _ _ chunkId Hchunk). intros acc. rewrite Hcfg.
  assert (Hm : isOk (mapM (fun input0 =>
                 assertNonNullable
                   (Js.get input0 (Js.newMap (map (fun dep => (depGraph.path dep, dep))
                                                  dependencies)))
                   ("entryConfig.paths does not include the inputs: " ++ input0))
                (inputs chunkConfig)) = false).
  { apply (mapM_In_Throw _ _ input Hinput).
    now rewrite pathToDep_missing. }
  destruct (mapM _ (inputs chunkConfig)); [discriminate | reflexivity].
Qed.

(** C7. A chunk with an entry file that is the path of no dependency makes
    [findTransitiveDeps] throw, so the splitting engine throws before
    [splitDepsIntoChunks] places anything: a placement is returned only when
    every entry file of every sorted chunk is the path of a dependency. *)
Theorem missing_entry_point_fails {G : depGraph.Lib}
    (dag : Dag.t) (dependencies : list depGraph.Dependency)
    (modules : list (string * ModuleConfig))
    (chunkId : string) (chunkConfig : ModuleConfig) (input : string) :
  In chunkId (Dag.getSortedIds dag) ->
  Js.get chunkId modules = Some chunkConfig ->
  In input (inputs chunkConfig) ->
  ~ In input (map depGraph.path dependencies) ->
  (exists e, findTransitiveDeps (Dag.getSortedIds dag) dependencies modules = Throw e) /\
  (exists e, splitChunks dag dependencies modules = Throw e) /\
  (forall split, splitChunks dag dependencies modules <> Ok split).
Proof.
  intros Hchunk Hcfg Hinput Hmissing.
  destruct (findTransitiveDeps_throws _ dependencies modules chunkId chunkConfig input
              Hchunk Hcfg Hinput Hmissing) as [e He].
  assert (Hsplit : splitChunks dag dependencies modules = Throw e)
    by (unfold splitChunks; now rewrite He).
  split; [eauto |]. split; [eauto |]. intros split. rewrite Hsplit. discriminate.
Qed.

Lemma build_sorts_all (chunkDefs : list Dag.Chunk) (d : Dag.t) :
  Dag.build chunkDefs = Ok d ->
  forall c, In c chunkDefs -> In (Dag.id c) (Dag.getSortedIds d).
Proof.
  unfold Dag.build.
  destruct (Nat.eqb _ _) eqn:Hlen; [| discriminate]. intros [= <-] c Hc.
  apply Nat.eqb_eq in Hlen.
  apply (NoDup_length_incl (DagFacts.getSortedIds_NoDup {| Dag.chunks := chunkDefs |})
           (l' := map Dag.id chunkDefs)).
  - rewrite length_map. simpl in Hlen. lia.
  - intros i Hi. apply DagFacts.topoOrder_ids in Hi.
    destruct Hi as [[] | (c' & Hc' & <-)]. now apply in_map.
  - now apply in_map.
Qed.

(** The same through [createDag]: every declared chunk is sorted, so a
    declared chunk with a missing entry file leaves no options. *)
Lemma missing_entry_point_no_options {E : Env}
    (entryConfig : EntryConfig.t) (config : DuckConfig) (outputToFile : bool)
    (createUris : string -> result (list string))
    (modules : list (string * ModuleConfig)) (own : list depGraph.Dependency)
    (chunkId : string) (chunkConfig : ModuleConfig) (input : string) :
  EntryConfig.modules entryConfig = Some modules ->
  Js.get chunkId modules = Some chunkConfig ->
  In input (inputs chunkConfig) ->
  (forall library,
     getClosureLibraryDependencies (closureLibraryDir config) = Ok library ->
     ~ In input (map depGraph.path (own ++ library))) ->
  exists e, chunkOptions entryConfig config outputToFile createUris modules own = Throw e.
Proof.
  intros Hmodules Hget Hinput Hmissing. unfold chunkOptions, bind.
  destruct (getClosureLibraryDependencies _) as [library | e] eqn:Hlib; [| eauto].
  destruct (createDag entryConfig) as [dag | e] eqn:Hdag; [| eauto].
  assert (Hsorted : In chunkId (Dag.getSortedIds dag)).
  { unfold createDag in Hdag. rewrite Hmodules in Hdag. simpl in Hdag.
    apply JsFacts.get_Some_In in Hget.
    apply (in_map (fun entry : string * ModuleConfig =>
                     {| Dag.id := fst entry;
                        Dag.explicitInputs := inputs (snd entry);
                        Dag.parentIds := deps (snd entry) |})) in Hget.
    exact (build_sorts_all _ _ Hdag _ Hget). }
  destruct (findTransitiveDeps_throws (Dag.getSortedIds dag) (own ++ library) modules
              chunkId chunkConfig input Hsorted Hget Hinput (Hmissing library eq_refl))
    as [e He].
  unfold splitChunks. rewrite He. simpl. eauto.
Qed.

(** A run of C7: the chunk [a] names an entry file nobody parsed. *)
Lemma missing_entry_point_fails_witness :
  let modules :=
    [ ("app", {| inputs := ["/src/app.js"]; deps := [] |});
      ("a", {| inputs := ["/src/missing.js"]; deps := ["app"] |});
      ("b", {| inputs := ["/src/b.js"]; deps := ["app"] |}) ] in
  @findTransitiveDeps Example.graphLib (Dag.getSortedIds Example.dag) Example.files modules
  = Throw (AssertionError "entryConfig.paths does not include the inputs: /src/missing.js")
  /\ (exists e, @findTransitiveDeps Example.graphLib (Dag.getSortedIds Example.dag)
                  Example.files modules = Throw e)
  /\ (exists e, @splitChunks Example.graphLib Example.dag Example.files modules = Throw e)
  /\ (forall split, @splitChunks Example.graphLib Example.dag Example.files modules
                    <> Ok split).
Proof.
  intros modules. split; [reflexivity |].
  apply (@missing_entry_point_fails Example.graphLib Example.dag Example.files modules
           "a" {| inputs := ["/src/missing.js"]; deps := ["app"] |} "/src/missing.js").
  - vm_compute. tauto.
  - reflexivity.
  - simpl. tauto.
  - simpl. intros H. repeat (destruct H as [H | H]; [discriminate |]). exact H.
Defined.

(** Runs of C2 and C3 on the three chunks of the example. *)
Lemma splitDepsIntoChunks_partition_witness :
  Dag.dominated Example.dag = true
  /\ (exists out,
        splitDepsIntoChunks (Dag.getSortedIds Example.dag) Example.transitive Example.dag
        = Ok out)
  /\ splitDepsIntoChunks Example.sortedChunkIds Example.transitive Example.dag
     = Ok Example.placed
  /\ List.NoDup (Js.keys Example.placed)
  /\ (forall C l, In (C, l) Example.placed -> List.NoDup l)
  /\ (forall C l p, In (C, l) Example.placed -> In p l ->
        exists R s, In (R, s) Example.transitive /\ In p s)
  /\ (forall p R s, In (R, s) Example.transitive -> In p s ->
        exists C l,
          In (C, l) Example.placed /\ In p l /\
          (forall C' l', In (C', l') Example.placed -> In p l' -> C' = C /\ l' = l) /\
          (forall R' s', In (R', s') Example.transitive -> In p s' ->
             Dag.ancestorOrSelf Example.dag C R')).
Proof.
  destruct (splitDepsIntoChunks_partition Example.transitive Example.dag) as [Hreturns Hpart].
  split; [reflexivity |]. split.
  - apply Hreturns; [reflexivity |]. vm_compute. tauto.
  - split; [reflexivity |]. apply (Hpart Example.sortedChunkIds Example.placed). reflexivity.
Defined.


(** ** The caches of gendeps.ts *)

(** C9. Once the id of an entry config is a key of [dependenciesCache],
    [getDependencies] returns the cached array and changes nothing, whatever
    the other fields of the entry config and whatever [ignoreDir]; and once
    the id is a key of [depFileTextCache], [generateDepFileText] returns the
    cached text in the same way. *)
Theorem cached_results_ignore_arguments {E : Env}
    (st : State) (entryConfig entryConfig' : EntryConfig.t) :
  EntryConfig.id entryConfig' = EntryConfig.id entryConfig ->
  (forall cached ignoreDir ignoreDir',
     dependenciesCache st !! EntryConfig.id entryConfig = Some cached ->
     getDependencies entryConfig ignoreDir st = (Ok cached, st) /\
     getDependencies entryConfig' ignoreDir' st = (Ok cached, st)) /\
  (forall cached closureLibraryDir inputsRoot closureLibraryDir' inputsRoot',
     depFileTextCache st !! EntryConfig.id entryConfig = Some cached ->
     generateDepFileText entryConfig closureLibraryDir inputsRoot st = (Ok cached, st) /\
     generateDepFileText entryConfig' closureLibraryDir' inputsRoot' st = (Ok cached, st)).
Proof.
  intros Hid. split.
  - intros cached ignoreDir ignoreDir' Hc. unfold getDependencies.
    rewrite Hid, Hc. split; reflexivity.
  - intros cached dir root dir' root' Hc. unfold generateDepFileText.
    rewrite Hid, Hc. split; reflexivity.
Qed.

(** ** One run of the compiler *)

Lemma compile_unfold {E : Env} (opts : CompilerOptions) (useNative : bool) (st : State) :
  compile opts useNative st =
  let '(opts', st1) :=
    if tooManyJs opts
    then ([("flagfile", OStr (tempy_file (length (flagfiles st))))],
          set_flagfiles
            (flagfiles st
             ++ [(tempy_file (length (flagfiles st)),
                  String.concat newline (flat_map flagfileLines opts))])%list st)
    else (opts, st) in
  let '(exitCode, stdout, stderr) := compiler_run useNative opts' (flagfiles st1) in
  let st' := set_compilerRuns (compilerRuns st1 ++ [(useNative, opts')])%list st1 in
  if truthyString stderr
  then (Throw (CompilerError (default "" stderr) exitCode), st')
  else (Ok stdout, st').
Proof.
  unfold compile, bindM. destruct (tooManyJs opts); reflexivity.
Qed.



(** ** What a request leaves untouched *)

Lemma getDependencies_frame {E : Env}
    (entryConfig : EntryConfig.t) (ignoreDir : option PathArg) (st : State) :
  let st1 := snd (getDependencies entryConfig ignoreDir st) in
  entryIdToChunkCache st1 = entryIdToChunkCache st /\
  compilerRuns st1 = compilerRuns st /\
  flagfiles st1 = flagfiles st /\
  depFileTextCache st1 = depFileTextCache st.
Proof.
  unfold getDependencies.
  destruct (dependenciesCache st !! EntryConfig.id entryConfig); simpl; [tauto |].
  destruct (parsePaths entryConfig ignoreDir); simpl; tauto.
Qed.

Lemma createCompilerOptionsForChunks_unfold {E : Env}
    (entryConfig : EntryConfig.t) (config : DuckConfig) (outputToFile : bool)
    (createUris : string -> result (list string)) (st : State) :
  createCompilerOptionsForChunks entryConfig config outputToFile createUris st =
  match EntryConfig.modules entryConfig with
  | None => (Throw (AssertionError ""), st)
  | Some modules =>
      match getDependencies entryConfig (Some (PArr [closureLibraryDir config])) st with
      | (Ok ownDependencies, st1) =>
          (chunkOptions entryConfig config outputToFile createUris modules ownDependencies, st1)
      | (Throw e, st1) => (Throw e, st1)
      end
  end.
Proof.
  unfold createCompilerOptionsForChunks, bindM, lift, assertNonNullable.
  destruct (EntryConfig.modules entryConfig); [| reflexivity].
  destruct (getDependencies entryConfig _ st) as [[deps | e] st1]; reflexivity.
Qed.

Lemma createCompilerOptionsForChunks_frame {E : Env}
    (entryConfig : EntryConfig.t) (config : DuckConfig) (outputToFile : bool)
    (createUris : string -> result (list string)) (st : State) :
  let st1 := snd (createCompilerOptionsForChunks entryConfig config outputToFile createUris st) in
  entryIdToChunkCache st1 = entryIdToChunkCache st /\
  compilerRuns st1 = compilerRuns st /\
  flagfiles st1 = flagfiles st /\
  depFileTextCache st1 = depFileTextCache st.
Proof.
  rewrite createCompilerOptionsForChunks_unfold.
  destruct (EntryConfig.modules entryConfig) as [modules |]; simpl; [| tauto].
  pose proof (getDependencies_frame entryConfig (Some (PArr [closureLibraryDir config])) st) as H.
  destruct (getDependencies entryConfig _ st) as [[deps | e] st1]; exact H.
Qed.

Lemma ensureChunkCache_chunkCacheOf (entryId : string) (st : State) :
  chunkCacheOf entryId (ensureChunkCache entryId st) = chunkCacheOf entryId st.
Proof.
  unfold ensureChunkCache, chunkCacheOf.
  destruct (entryIdToChunkCache st !! entryId) eqn:H; simpl.
  - now rewrite H.
  - now rewrite lookup_insert_eq.
Qed.

Lemma ensureChunkCache_insert (entryId : string) (st : State)
    (m : gmap string (gmap string (option CompilerOutput))) :
  <[entryId := m]> (entryIdToChunkCache (ensureChunkCache entryId st))
  = <[entryId := m]> (entryIdToChunkCache st).
Proof.
  unfold ensureChunkCache.
  destruct (entryIdToChunkCache st !! entryId); simpl; [reflexivity |].
  apply insert_insert_eq.
Qed.

Lemma ensureChunkCache_frame (entryId : string) (st : State) :
  compilerRuns (ensureChunkCache entryId st) = compilerRuns st /\
  flagfiles (ensureChunkCache entryId st) = flagfiles st /\
  dependenciesCache (ensureChunkCache entryId st) = dependenciesCache st /\
  depFileTextCache (ensureChunkCache entryId st) = depFileTextCache st.
Proof.
  unfold ensureChunkCache. destruct (entryIdToChunkCache st !! entryId); simpl; tauto.
Qed.

(** ** The compile path of [replyChunksCompile] *)

Lemma compileChunks_run {E : Env}
    (config : DuckConfig) (baseUrl : URL) (entryConfig : EntryConfig.t)
    (url requestId : string) (requestedChunkId : option string)
    (st : State) (r : result Response) (st' : State) :
  compileChunks config baseUrl entryConfig url requestId requestedChunkId
    (ensureChunkCache (EntryConfig.id entryConfig) st) = (r, st') ->
  (isOk r = false /\
   entryIdToChunkCache st'
   = entryIdToChunkCache (ensureChunkCache (EntryConfig.id entryConfig) st)) \/
  (exists options sortedChunkIds rootChunkId chunkOutputs,
     fullCompile config baseUrl entryConfig url requestId st st'
       options sortedChunkIds rootChunkId chunkOutputs /\
     r = match outputOf (assignOutputs sortedChunkIds 0 chunkOutputs ∅)
                 (sentChunkId requestedChunkId rootChunkId) with
         | Some output => Ok (Sent 200 "application/javascript" (src output))
         | None => Throw (TypeError "Cannot read property 'src' of undefined")
         end).
Proof.
  set (st0 := ensureChunkCache (EntryConfig.id entryConfig) st).
  unfold compileChunks, bindM.
  pose proof (createCompilerOptionsForChunks_frame entryConfig config false
                (createModuleUris baseUrl url requestId) st0) as Hframe.
  destruct (createCompilerOptionsForChunks entryConfig config false
              (createModuleUris baseUrl url requestId) st0)
    as [[[[options sortedChunkIds] rootChunkId] | e] st1] eqn:Hcreate;
    simpl in Hframe; destruct Hframe as (Hcache & Hruns & Hfiles & _).
  2: { intros [= <- <-]. left. split; [reflexivity | assumption]. }
  unfold convertToFlagfile, compileToJson, bindM. rewrite compile_unfold.
  simpl.
  destruct (ensureChunkCache_frame (EntryConfig.id entryConfig) st) as (Hruns0 & Hfiles0 & _).
  fold st0 in Hruns0, Hfiles0.
  destruct (compiler_run false _ _) as [[exitCode stdout] stderr] eqn:Hrun.
  destruct (truthyString stderr) eqn:Hstderr.
  { intros [= <- <-]. left. split; [reflexivity | exact Hcache]. }
  unfold lift. destruct (JSON_parse stdout) as [chunkOutputs | e] eqn:Hjson.
  2: { intros [= <- <-]. left. split; [reflexivity | exact Hcache]. }
  intros Hres. right. exists options, sortedChunkIds, rootChunkId, chunkOutputs.
  assert (Hst : st' =
    set_entryIdToChunkCache
      (<[EntryConfig.id entryConfig :=
           <[requestId := assignOutputs sortedChunkIds 0 chunkOutputs ∅]>
             (chunkCacheOf (EntryConfig.id entryConfig) st)]>
         (entryIdToChunkCache st))
      (set_compilerRuns
         (compilerRuns st ++
            [(false, [("flagfile", OStr (tempy_file (length (flagfiles st))));
                      ("json_streams", OStr "OUT")])])%list
         (set_flagfiles
            (flagfiles st ++
               [(tempy_file (length (flagfiles st)),
                 String.concat newline (flat_map flagfileLines options))])%list
            st1)) /\
    r = match outputOf (assignOutputs sortedChunkIds 0 chunkOutputs ∅)
                (sentChunkId requestedChunkId rootChunkId) with
        | Some output => Ok (Sent 200 "application/javascript" (src output))
        | None => Throw (TypeError "Cannot read property 'src' of undefined")
        end).
  { rewrite <- Hruns0, <- Hfiles0, <- Hruns, <- Hfiles.
    rewrite <- (ensureChunkCache_insert (EntryConfig.id entryConfig) st).
    rewrite <- (ensureChunkCache_chunkCacheOf (EntryConfig.id entryConfig) st).
    fold st0. rewrite <- Hcache.
    unfold chunkCacheOf in *. simpl in Hres. rewrite <- Hcache.
    destruct (outputOf _ _); injection Hres as <- <-; split; reflexivity. }
  destruct Hst as [-> ->]. split; [| reflexivity].
  exists st1, exitCode, stdout, stderr. simpl.
  rewrite Hfiles, Hfiles0 in Hrun.
  repeat split; try assumption; reflexivity.
Qed.

(** ** Requests for a chunk of an earlier session *)

Lemma truthyString_Some (s : string) : s <> "" -> truthyString (Some s) = true.
Proof. intros H. simpl. apply String.eqb_neq in H. now rewrite H. Qed.

Lemma chunkCacheOf_Some (entryId : string) (st : State) (k : string)
    (session : gmap string (option CompilerOutput)) :
  chunkCacheOf entryId st !! k = Some session ->
  ensureChunkCache entryId st = st.
Proof.
  unfold chunkCacheOf, ensureChunkCache.
  destruct (entryIdToChunkCache st !! entryId); [reflexivity |].
  simpl. rewrite lookup_empty. discriminate.
Qed.

(** The cache-hit branch of [replyChunksCompile] (lines 194-200). *)
Lemma replyChunksCompile_hit {E : Env}
    (config : DuckConfig) (baseUrl : URL) (entryConfig : EntryConfig.t)
    (url requestId : string) (query : CompileQuery) (st : State)
    (c pr : string) (session : gmap string (option CompilerOutput)) :
  chunk query = Some c -> c <> "" ->
  parentRequest query = Some pr -> pr <> "" ->
  chunkCacheOf (EntryConfig.id entryConfig) st !! pr = Some session ->
  replyChunksCompile config baseUrl entryConfig url requestId query st =
  match outputOf session c with
  | Some output => (Ok (Returned (src output)), st)
  | None => (Throw (Error ("Unexpected requested chunk: " ++ c)), st)
  end.
Proof.
  intros Hc Hcne Hpr Hprne Hsession. unfold replyChunksCompile.
  rewrite (chunkCacheOf_Some _ _ _ _ Hsession), Hc, Hpr.
  rewrite !truthyString_Some by assumption. simpl. rewrite Hsession.
  destruct (outputOf session c); reflexivity.
Qed.

(** The other branch: without a chunk id, without a parent request id, or
    without a session under the parent request id, the request takes the
    compile path. *)
Lemma replyChunksCompile_miss {E : Env}
    (config : DuckConfig) (baseUrl : URL) (entryConfig : EntryConfig.t)
    (url requestId : string) (query : CompileQuery) (st : State) :
  truthyString (chunk query) = false \/ truthyString (parentRequest query) = false \/
  chunkCacheOf (EntryConfig.id entryConfig) st !! default "" (parentRequest query) = None ->
  replyChunksCompile config baseUrl entryConfig url requestId query st =
  compileChunks config baseUrl entryConfig url requestId (chunk query)
    (ensureChunkCache (EntryConfig.id entryConfig) st).
Proof.
  intros H. unfold replyChunksCompile. rewrite ensureChunkCache_chunkCacheOf.
  destruct H as [-> | [-> | ->]]; [reflexivity | | ].
  - now rewrite andb_false_r.
  - now destruct (truthyString (chunk query) && truthyString (parentRequest query)).
Qed.



(** ** Sessions, sorted ids and the manifest *)

Lemma assignOutputs_other (ids : list string) :
  forall (k : nat) (outs : list CompilerOutput)
         (m : gmap string (option CompilerOutput)) (cid : string),
    ~ In cid ids -> assignOutputs ids k outs m !! cid = m !! cid.
Proof.
  induction ids as [| id ids IH]; intros k outs m cid Hnot; simpl; [reflexivity |].
  simpl in Hnot. rewrite IH by tauto. apply lookup_insert_ne. intros ->. tauto.
Qed.

Lemma assignOutputs_lookup (ids : list string) :
  List.NoDup ids ->
  forall (k : nat) (outs : list CompilerOutput)
         (m : gmap string (option CompilerOutput)) (i : nat) (cid : string),
    nth_error ids i = Some cid ->
    assignOutputs ids k outs m !! cid = Some (nth_error outs (k + i)).
Proof.
  induction 1 as [| id ids Hid Hnd IH]; intros k outs m i cid Hi.
  - destruct i; discriminate.
  - destruct i as [| i]; simpl in Hi |- *.
    + injection Hi as ->. rewrite assignOutputs_other by assumption.
      rewrite lookup_insert_eq. now rewrite Nat.add_0_r.
    + rewrite (IH (S k) outs _ i cid Hi). f_equal. f_equal. lia.
Qed.








Lemma splitChunks_Ok {G : depGraph.Lib}
    (dag : Dag.t) (dependencies : list depGraph.Dependency)
    (modules : list (string * ModuleConfig))
    (split : list string * list (string * list string)) :
  splitChunks dag dependencies modules = Ok split ->
  fst split = Dag.getSortedIds dag /\
  exists transitive,
    findTransitiveDeps (Dag.getSortedIds dag) dependencies modules = Ok transitive /\
    splitDepsIntoChunks (Dag.getSortedIds dag) transitive dag = Ok (snd split).
Proof.
  unfold splitChunks, bind.
  destruct (findTransitiveDeps _ dependencies modules) as [transitive | e]; [| discriminate].
  destruct (splitDepsIntoChunks _ transitive dag) as [placed | e] eqn:Hsplit; [| discriminate].
  intros [= <-]. simpl. split; [reflexivity |]. exists transitive. now split.
Qed.

(** What the options for the chunks are made of. *)
Lemma chunkOptions_Ok {E : Env}
    (entryConfig : EntryConfig.t) (config : DuckConfig) (outputToFile : bool)
    (createUris : string -> result (list string))
    (modules : list (string * ModuleConfig)) (own : list depGraph.Dependency)
    (options : CompilerOptions) (sortedChunkIds : list string) (rootChunkId : option string) :
  chunkOptions entryConfig config outputToFile createUris modules own
  = Ok (options, sortedChunkIds, rootChunkId) ->
  exists library dag placed chunk level wrappers,
    getClosureLibraryDependencies (closureLibraryDir config) = Ok library /\
    createDag entryConfig = Ok dag /\
    sortedChunkIds = Dag.getSortedIds dag /\
    rootChunkId = hd_error sortedChunkIds /\
    splitChunks dag (own ++ library) modules = Ok (sortedChunkIds, placed) /\
    Js.get "js" options = Some (OList (concat (Js.values placed))) /\
    mapM (chunkFlag modules placed) sortedChunkIds = Ok chunk /\
    Js.get "chunk" options = Some (OList chunk) /\
    createChunkWrapper entryConfig sortedChunkIds level createUris = Ok wrappers /\
    Js.get "chunk_wrapper" options = Some (OList wrappers).
Proof.
  unfold chunkOptions, bind.
  destruct (getClosureLibraryDependencies _) as [library | e]; [| discriminate].
  destruct (createDag entryConfig) as [dag | e]; [| discriminate].
  destruct (splitChunks dag (own ++ library) modules) as [[sorted placed] | e] eqn:Hsplit;
    [| discriminate].
  simpl.
  destruct (createBaseOptions entryConfig outputToFile) as [base | e]; [| discriminate].
  destruct (mapM (chunkFlag modules placed) sorted) as [chunk | e] eqn:Hchunk; [| discriminate].
  destruct (assertNonNullable _ "") as [level | e]; [| discriminate].
  destruct (createChunkWrapper entryConfig sorted level createUris) as [wrappers | e] eqn:Hwrap;
    [| discriminate].
  intros [= <- <- <-].
  exists library, dag, placed, chunk, level, wrappers.
  pose proof (splitChunks_Ok _ _ _ _ Hsplit) as [Hsorted _]. simpl in Hsorted.
  repeat split; try assumption; try reflexivity.
  - rewrite JsFacts.get_set_other, JsFacts.get_set_other by discriminate.
    apply JsFacts.get_set_same.
  - rewrite JsFacts.get_set_other by discriminate. apply JsFacts.get_set_same.
  - apply JsFacts.get_set_same.
Qed.


Lemma createCompilerOptionsForChunks_Ok {E : Env}
    (entryConfig : EntryConfig.t) (config : DuckConfig) (outputToFile : bool)
    (createUris : string -> result (list string)) (st st1 : State)
    (options : CompilerOptions) (sortedChunkIds : list string) (rootChunkId : option string) :
  createCompilerOptionsForChunks entryConfig config outputToFile createUris st
  = (Ok (options, sortedChunkIds, rootChunkId), st1) ->
  exists modules own,
    EntryConfig.modules entryConfig = Some modules /\
    getDependencies entryConfig (Some (PArr [closureLibraryDir config])) st = (Ok own, st1) /\
    chunkOptions entryConfig config outputToFile createUris modules own
    = Ok (options, sortedChunkIds, rootChunkId).
Proof.
  rewrite createCompilerOptionsForChunks_unfold.
  destruct (EntryConfig.modules entryConfig) as [modules |]; [| discriminate].
  destruct (getDependencies entryConfig _ st) as [[own | e] st2]; [| discriminate].
  intros [= H <-]. exists modules, own. repeat split; assumption.
Qed.





(** ** Requests that name a parent request *)




(** ** The cache of compiled chunks *)






(** ** Running the engine again *)




(** A run of C9: the entry config with other paths and another directory to
    ignore gets the dependencies and the text cached under its id. *)
Lemma cached_results_ignore_arguments_witness :
  let E := Example.env Example.quiet Example.outputs in
  @getDependencies E Example.movedEntryConfig (Some (PStr "/other-library")) Example.served
  = (Ok Example.files, Example.served) /\
  @generateDepFileText E Example.movedEntryConfig "/other-library" "/other-root" Example.served
  = (Ok "/src/base.js;/src/x.js;/src/app.js;/src/a.js;/src/b.js", Example.served).
Proof.
  intros E.
  destruct (@cached_results_ignore_arguments E Example.served Example.entryConfig
              Example.movedEntryConfig eq_refl) as [Hdeps Htext].
  split.
  - apply (Hdeps Example.files None (Some (PStr "/other-library"))). vm_compute. reflexivity.
  - apply (Htext _ "/closure-library" "/" "/other-library" "/other-root").
    vm_compute. reflexivity.
Defined.

(** ** Flag files *)


(** X2. With more than a hundred js files [compile] writes the options to a
    flagfile and runs the compiler with that flagfile alone; the file lists
    the js files one per line, in their order.  Otherwise it runs the
    compiler with the options as they are and writes no file. *)
Theorem compile_many_js_uses_flagfile {E : Env}
    (opts : CompilerOptions) (useNative : bool) (st : State) :
  (forall js,
     Js.get "js" opts = Some (OList js) -> 100 < length js ->
     exists before after,
       compilerRuns (snd (compile opts useNative st))
       = (compilerRuns st
          ++ [(useNative, [("flagfile", OStr (tempy_file (length (flagfiles st))))])])%list /\
       flagfiles (snd (compile opts useNative st))
       = (flagfiles st
          ++ [(tempy_file (length (flagfiles st)),
               String.concat newline
                 (before ++ map (createKeyValue "js") js ++ after))])%list) /\
  (tooManyJs opts = false ->
   compilerRuns (snd (compile opts useNative st))
   = (compilerRuns st ++ [(useNative, opts)])%list /\
   flagfiles (snd (compile opts useNative st)) = flagfiles st).
Proof.
  split.
  - intros js Hjs Hmany.
    assert (Htoo : tooManyJs opts = true).
    { unfold tooManyJs. rewrite Hjs. apply Nat.ltb_lt. exact Hmany. }
    apply JsFacts.get_Some_In, in_split in Hjs. destruct Hjs as (l1 & l2 & Hopts).
    exists (flat_map flagfileLines l1), (flat_map flagfileLines l2).
    rewrite compile_unfold, Htoo.
    assert (Hlines : flat_map flagfileLines opts
                     = (flat_map flagfileLines l1
                        ++ map (createKeyValue "js") js ++ flat_map flagfileLines l2)%list).
    { rewrite Hopts, flat_map_app. reflexivity. }
    rewrite Hlines.
    destruct (compiler_run useNative _ _) as [[exitCode stdout] stderr].
    destruct (truthyString stderr); split; reflexivity.
  - intros Htoo. rewrite compile_unfold, Htoo.
    destruct (compiler_run useNative _ _) as [[exitCode stdout] stderr].
    destruct (truthyString stderr); split; reflexivity.
Qed.

(** A run of X2: a hundred and one js files. *)
Lemma compile_many_js_uses_flagfile_witness :
  let E := Example.env Example.quiet Example.outputs in
  let opts := [("compilation_level", OStr "SIMPLE"); ("js", OList ExamplePage.manyJs)] in
  exists before after,
    compilerRuns (snd (@compile E opts false Example.initial))
    = [(false, [("flagfile", OStr "/tmp/0.closure.conf")])] /\
    flagfiles (snd (@compile E opts false Example.initial))
    = [("/tmp/0.closure.conf",
        String.concat newline
          (before ++ map (createKeyValue "js") ExamplePage.manyJs ++ after))].
Proof.
  intros E opts.
  destruct (proj1 (@compile_many_js_uses_flagfile E opts false Example.initial)
              ExamplePage.manyJs eq_refl) as (before & after & Hruns & Hfiles).
  - vm_compute. lia.
  - exists before, after. split; [exact Hruns | exact Hfiles].
Defined.

(** X3. Whatever [json_streams] the caller asked for, [compileToJson] asks
    the compiler for "OUT", never runs it natively, and runs it once: the
    option is among the options the compiler is run with, or, with more than
    a hundred js files, on a line of the flagfile it is run with. *)
Theorem compileToJson_asks_json_out {E : Env} (opts : CompilerOptions) (st : State) :
  exists runOptions,
    compilerRuns (snd (compileToJson opts st))
    = (compilerRuns st ++ [(false, runOptions)])%list /\
    (tooManyJs opts = false ->
     Js.get "json_streams" runOptions = Some (OStr "OUT") /\
     (forall key, key <> "json_streams" -> Js.get key runOptions = Js.get key opts) /\
     flagfiles (snd (compileToJson opts st)) = flagfiles st) /\
    (tooManyJs opts = true ->
     exists flagfile lines,
       runOptions = [("flagfile", OStr flagfile)] /\
       flagfiles (snd (compileToJson opts st))
       = (flagfiles st ++ [(flagfile, String.concat newline lines)])%list /\
       In (createKeyValue "json_streams" "OUT") lines).
Proof.
  set (opts' := Js.set "json_streams" (OStr "OUT") opts).
  assert (Htoo : tooManyJs opts' = tooManyJs opts).
  { unfold tooManyJs, opts'. now rewrite JsFacts.get_set_other by discriminate. }
  assert (Hstate : snd (compileToJson opts st) = snd (compile opts' false st)).
  { unfold compileToJson, bindM, lift. fold opts'.
    destruct (compile opts' false st) as [[stdout | e] st']; reflexivity. }
  rewrite Hstate.
  destruct (tooManyJs opts) eqn:Hmany.
  - exists [("flagfile", OStr (tempy_file (length (flagfiles st))))].
    rewrite compile_unfold, Htoo.
    destruct (compiler_run false _ _) as [[exitCode stdout] stderr].
    assert (Hin : In (createKeyValue "json_streams" "OUT") (flat_map flagfileLines opts')).
    { apply in_flat_map. exists ("json_streams", OStr "OUT"). split; [| now left].
      apply JsFacts.get_Some_In. unfold opts'. apply JsFacts.get_set_same. }
    destruct (truthyString stderr); simpl.
    + split; [reflexivity |]. split; [discriminate |]. intros _.
      eexists _, _. repeat split. exact Hin.
    + split; [reflexivity |]. split; [discriminate |]. intros _.
      eexists _, _. repeat split. exact Hin.
  - exists opts'. rewrite compile_unfold, Htoo.
    destruct (compiler_run false _ _) as [[exitCode stdout] stderr].
    assert (Hget : Js.get "json_streams" opts' = Some (OStr "OUT") /\
                   forall key, key <> "json_streams" -> Js.get key opts' = Js.get key opts).
    { unfold opts'. split; [apply JsFacts.get_set_same |].
      intros key Hkey. apply JsFacts.get_set_other. congruence. }
    destruct (truthyString stderr); simpl; (split; [reflexivity |]);
      (split; [intros _; split; [apply Hget | split; [apply Hget | reflexivity]]
              | discriminate]).
Qed.

(** ** The options of the compiler *)

Lemma createBaseOptions_steps (entryConfig : EntryConfig.t) (outputToFile : bool) :
  createBaseOptions entryConfig outputToFile
  = (opts <- inputOptions entryConfig outputToFile (commonOptions entryConfig outputToFile) ;;
     checkOptions entryConfig opts)%result.
Proof.
  unfold createBaseOptions, inputOptions, commonOptions, checkOptions, bind.
  destruct (EntryConfig.modules entryConfig); [reflexivity |].
  destruct (EntryConfig.inputs entryConfig); reflexivity.
Qed.

Lemma get_copy_other {A : Type} (value : option A) (inj : A -> OptValue)
    (closureKey key : string) (opts : CompilerOptions) :
  closureKey <> key -> Js.get key (copy value inj closureKey opts) = Js.get key opts.
Proof.
  intros Hne. destruct value as [v |]; simpl; [| reflexivity].
  now apply JsFacts.get_set_other.
Qed.

Lemma get_setIfNonEmpty_other (closureKey key : string) (l : list string)
    (opts : CompilerOptions) :
  closureKey <> key -> Js.get key (setIfNonEmpty closureKey l opts) = Js.get key opts.
Proof.
  intros Hne. unfold setIfNonEmpty. destruct (Nat.ltb 0 (length l)); [| reflexivity].
  now apply JsFacts.get_set_other.
Qed.

Lemma get_setIfNonEmpty_same (key : string) (l : list string) (opts : CompilerOptions) :
  Js.get key opts = None -> Js.get key (setIfNonEmpty key l opts) = listOption l.
Proof.
  intros Hnone. unfold setIfNonEmpty. destruct l as [| x l]; simpl; [exact Hnone |].
  apply JsFacts.get_set_same.
Qed.

Lemma keys_copy {A : Type} (value : option A) (inj : A -> OptValue)
    (closureKey key : string) (opts : CompilerOptions) :
  In key (Js.keys (copy value inj closureKey opts)) ->
  In key (Js.keys opts) \/ key = closureKey.
Proof.
  destruct value as [v |]; simpl; [| tauto]. apply JsFacts.keys_set_In.
Qed.

Lemma keys_setIfNonEmpty (closureKey key : string) (l : list string)
    (opts : CompilerOptions) :
  In key (Js.keys (setIfNonEmpty closureKey l opts)) ->
  In key (Js.keys opts) \/ key = closureKey.
Proof.
  unfold setIfNonEmpty. destruct (Nat.ltb 0 (length l)); [| tauto].
  apply JsFacts.keys_set_In.
Qed.

Ltac keys_step H :=
  first [ apply JsFacts.keys_set_In in H
        | apply keys_copy in H
        | apply keys_setIfNonEmpty in H ];
  destruct H as [H | ->]; [| simpl; tauto].

Lemma commonOptions_keys (entryConfig : EntryConfig.t) (outputToFile : bool) (key : string) :
  In key (Js.keys (commonOptions entryConfig outputToFile)) ->
  In key ["json_streams"; "language_in"; "language_out"; "warning_level"; "debug";
          "rename_prefix_namespace"; "compilation_level"].
Proof.
  unfold commonOptions. intros Hin.
  destruct (EntryConfig.mode entryConfig),
    (truthyString (EntryConfig.global_scope_name entryConfig)), outputToFile;
    cbn [negb] in Hin; repeat keys_step Hin; destruct Hin.
Qed.

Lemma commonOptions_level (entryConfig : EntryConfig.t) (outputToFile : bool) :
  Js.get "compilation_level" (commonOptions entryConfig outputToFile)
  = Some (OStr (compilationLevel (EntryConfig.mode entryConfig))).
Proof.
  unfold commonOptions.
  destruct (EntryConfig.mode entryConfig); apply JsFacts.get_set_same.
Qed.

Lemma commonOptions_get_None (entryConfig : EntryConfig.t) (outputToFile : bool)
    (key : string) :
  ~ In key ["json_streams"; "language_in"; "language_out"; "warning_level"; "debug";
            "rename_prefix_namespace"; "compilation_level"] ->
  Js.get key (commonOptions entryConfig outputToFile) = None.
Proof.
  intros Hkey. apply get_not_key. intros Hin. apply Hkey.
  eapply commonOptions_keys, Hin.
Qed.

Lemma checkEntry_sorted (checks : list (string * string)) :
  forall jscompError jscompWarning jscompOff,
    forallb checkAccepted checks = true ->
    foldM checkEntry checks (jscompError, jscompWarning, jscompOff)
    = Ok ((jscompError ++ checksAt "ERROR" checks)%list,
          (jscompWarning ++ checksAt "WARNING" checks)%list,
          (jscompOff ++ checksAt "OFF" checks)%list).
Proof.
  induction checks as [| [name value] checks IH]; intros e w o Hacc.
  - simpl. unfold checksAt. simpl. now rewrite !app_nil_r.
  - simpl in Hacc. apply andb_true_iff in Hacc. destruct Hacc as [Hvalue Hacc].
    unfold checkAccepted in Hvalue. simpl in Hvalue.
    cbn [foldM]. unfold checkEntry at 1. cbn [fst snd].
    destruct (String.eqb value "ERROR") eqn:Herror.
    { apply String.eqb_eq in Herror. subst value. rewrite IH by exact Hacc.
      unfold checksAt. simpl. now rewrite <- !app_assoc. }
    destruct (String.eqb value "WARNING") eqn:Hwarning.
    { apply String.eqb_eq in Hwarning. subst value. rewrite IH by exact Hacc.
      unfold checksAt. simpl. now rewrite <- !app_assoc. }
    destruct (String.eqb value "OFF") eqn:Hoff; [| discriminate].
    apply String.eqb_eq in Hoff. subst value. rewrite IH by exact Hacc.
    unfold checksAt. simpl. now rewrite <- !app_assoc.
Qed.

Lemma checkEntry_rejected (checks : list (string * string)) :
  forall acc,
    forallb checkAccepted checks = false -> isOk (foldM checkEntry checks acc) = false.
Proof.
  induction checks as [| [name value] checks IH]; intros [[e w] o] Hacc;
    [discriminate |].
  simpl in Hacc. cbn [foldM]. unfold checkEntry at 1. cbn [fst snd].
  unfold checkAccepted in Hacc. simpl in Hacc.
  destruct (String.eqb value "ERROR"); [now apply IH |].
  destruct (String.eqb value "WARNING"); [now apply IH |].
  destruct (String.eqb value "OFF"); [now apply IH | reflexivity].
Qed.

Lemma defineEntry_accepted (define : list (string * DefineValue)) :
  isOk (mapM defineEntry define) = forallb defineAccepted define.
Proof.
  induction define as [| [name value] define IH]; [reflexivity |].
  cbn [mapM forallb]. unfold defineEntry at 1, defineAccepted at 1. cbn [fst snd].
  destruct value as [value | rendered].
  - destruct (includes value "'"); [reflexivity |]. simpl.
    destruct (mapM defineEntry define); simpl in *; exact IH.
  - simpl. destruct (mapM defineEntry define); simpl in *; exact IH.
Qed.

(** What [checkOptions] returns. *)
Lemma checkOptions_Ok (entryConfig : EntryConfig.t) (opts opts' : CompilerOptions) :
  checkOptions entryConfig opts = Ok opts' ->
  exists defined,
    mapM defineEntry (default [] (EntryConfig.define entryConfig)) = Ok defined /\
    forallb checkAccepted (default [] (EntryConfig.checks entryConfig)) = true /\
    opts'
    = (let opts :=
         match EntryConfig.externs entryConfig with
         | Some externs => Js.set "externs" (OList externs) opts
         | None => opts
         end in
       let opts :=
         setIfNonEmpty "formatting"
           ((if truthyBool (EntryConfig.pretty_print entryConfig)
             then ["PRETTY_PRINT"] else [])
            ++ (if truthyBool (EntryConfig.print_input_delimiter entryConfig)
                then ["PRINT_INPUT_DELIMITER"] else []))%list opts in
       let opts :=
         match EntryConfig.define entryConfig with
         | Some _ => Js.set "define" (OList defined) opts
         | None => opts
         end in
       match EntryConfig.checks entryConfig with
       | Some checks =>
           setIfNonEmpty "jscomp_off" (checksAt "OFF" checks)
             (setIfNonEmpty "jscomp_warning" (checksAt "WARNING" checks)
                (setIfNonEmpty "jscomp_error" (checksAt "ERROR" checks) opts))
       | None => opts
       end).
Proof.
  unfold checkOptions, bind. intros Hrun.
  destruct (EntryConfig.define entryConfig) as [define |]; cbn [from_option id].
  - destruct (mapM defineEntry define) as [defined | e]; [| discriminate].
    exists defined. split; [reflexivity |].
    destruct (EntryConfig.checks entryConfig) as [checks |]; cbn [from_option id].
    + destruct (forallb checkAccepted checks) eqn:Hacc.
      * rewrite checkEntry_sorted in Hrun by exact Hacc. simpl in Hrun.
        split; [reflexivity |]. now injection Hrun as <-.
      * apply (checkEntry_rejected _ ([], [], [])) in Hacc.
        destruct (foldM checkEntry checks ([], [], [])); discriminate.
    + split; [reflexivity |]. now injection Hrun as <-.
  - exists []. split; [reflexivity |].
    destruct (EntryConfig.checks entryConfig) as [checks |]; cbn [from_option id].
    + destruct (forallb checkAccepted checks) eqn:Hacc.
      * rewrite checkEntry_sorted in Hrun by exact Hacc. simpl in Hrun.
        split; [reflexivity |]. now injection Hrun as <-.
      * apply (checkEntry_rejected _ ([], [], [])) in Hacc.
        destruct (foldM checkEntry checks ([], [], [])); discriminate.
    + split; [reflexivity |]. now injection Hrun as <-.
Qed.

Lemma checkOptions_accepts (entryConfig : EntryConfig.t) (opts : CompilerOptions) :
  isOk (checkOptions entryConfig opts)
  = forallb defineAccepted (default [] (EntryConfig.define entryConfig))
    && forallb checkAccepted (default [] (EntryConfig.checks entryConfig)).
Proof.
  unfold checkOptions, bind.
  assert (Hchecks : forall opts,
            isOk (opts <-
                    match EntryConfig.checks entryConfig with
                    | Some checks =>
                        sorted <- foldM checkEntry checks ([], [], []) ;;
                        let '(jscompError, jscompWarning, jscompOff) := sorted in
                        Ok (setIfNonEmpty "jscomp_off" jscompOff
                              (setIfNonEmpty "jscomp_warning" jscompWarning
                                 (setIfNonEmpty "jscomp_error" jscompError opts)))
                    | None => Ok opts
                    end ;; Ok opts)%result
            = forallb checkAccepted (default [] (EntryConfig.checks entryConfig))).
  { intros o. unfold bind.
    destruct (EntryConfig.checks entryConfig) as [checks |]; cbn [from_option id]; [| reflexivity].
    destruct (forallb checkAccepted checks) eqn:Hacc.
    - rewrite checkEntry_sorted by exact Hacc. reflexivity.
    - apply (checkEntry_rejected _ ([], [], [])) in Hacc.
      destruct (foldM checkEntry checks ([], [], [])); [discriminate | reflexivity]. }
  unfold bind in Hchecks.
  destruct (EntryConfig.define entryConfig) as [define |]; cbn [from_option id].
  - rewrite <- defineEntry_accepted.
    destruct (mapM defineEntry define) as [defined | e]; [| reflexivity].
    simpl. apply Hchecks.
  - simpl. apply Hchecks.
Qed.

Lemma checkOptions_get_other (entryConfig : EntryConfig.t) (opts opts' : CompilerOptions)
    (key : string) :
  checkOptions entryConfig opts = Ok opts' ->
  ~ In key ["externs"; "formatting"; "define"; "jscomp_error"; "jscomp_warning";
            "jscomp_off"] ->
  Js.get key opts' = Js.get key opts.
Proof.
  intros Hrun Hkey. apply checkOptions_Ok in Hrun.
  destruct Hrun as (defined & _ & _ & ->). cbv zeta.
  assert (Hne : forall k, In k ["externs"; "formatting"; "define"; "jscomp_error";
                                "jscomp_warning"; "jscomp_off"] -> k <> key)
    by (intros k Hin ->; exact (Hkey Hin)).
  destruct (EntryConfig.checks entryConfig), (EntryConfig.define entryConfig),
    (EntryConfig.externs entryConfig);
    rewrite ?get_setIfNonEmpty_other, ?JsFacts.get_set_other, ?get_setIfNonEmpty_other,
      ?JsFacts.get_set_other
      by (apply Hne; simpl; tauto);
    reflexivity.
Qed.

Lemma checkOptions_keys (entryConfig : EntryConfig.t) (opts opts' : CompilerOptions)
    (key : string) :
  checkOptions entryConfig opts = Ok opts' ->
  In key (Js.keys opts') ->
  In key (Js.keys opts) \/
  In key ["externs"; "formatting"; "define"; "jscomp_error"; "jscomp_warning";
          "jscomp_off"].
Proof.
  intros Hrun Hin. apply checkOptions_Ok in Hrun.
  destruct Hrun as (defined & _ & _ & ->). cbv zeta in Hin.
  destruct (EntryConfig.checks entryConfig), (EntryConfig.define entryConfig),
    (EntryConfig.externs entryConfig);
    repeat keys_step Hin; now left.
Qed.

(** What [inputOptions] returns for a chunked entry config. *)
Lemma inputOptions_chunked (entryConfig : EntryConfig.t) (outputToFile : bool)
    (opts opts' : CompilerOptions) (modules : list (string * ModuleConfig)) :
  EntryConfig.modules entryConfig = Some modules ->
  inputOptions entryConfig outputToFile opts = Ok opts' ->
  (outputToFile = false /\ opts' = Js.set "dependency_mode" (OStr "NONE") opts) \/
  (outputToFile = true /\
   truthyString (EntryConfig.module_output_path entryConfig) = true /\
   endsWith (default "" (EntryConfig.module_output_path entryConfig)) "%s.js" = true /\
   opts' = Js.set "chunk_output_path_prefix"
             (OStr (String.substring 0
                      (String.length (default "" (EntryConfig.module_output_path entryConfig))
                       - String.length "%s.js")
                      (default "" (EntryConfig.module_output_path entryConfig))))
             (Js.set "dependency_mode" (OStr "NONE") opts)).
Proof.
  intros Hmodules. unfold inputOptions. rewrite Hmodules. cbv zeta.
  destruct outputToFile.
  - destruct (truthyString (EntryConfig.module_output_path entryConfig));
      [| discriminate]. cbn [negb].
    destruct (endsWith _ "%s.js"); [| discriminate]. cbn [negb].
    intros [= <-]. right. repeat split.
  - intros [= <-]. left. split; reflexivity.
Qed.

(** What [inputOptions] returns for a page. *)
Lemma inputOptions_page (entryConfig : EntryConfig.t) (outputToFile : bool)
    (opts opts' : CompilerOptions) :
  EntryConfig.modules entryConfig = None ->
  inputOptions entryConfig outputToFile opts = Ok opts' ->
  exists inputs,
    EntryConfig.inputs entryConfig = Some inputs /\
    (outputToFile = true -> truthyString (EntryConfig.output_file entryConfig) = true) /\
    opts'
    = (let opts :=
         Js.set "entry_point" (OList inputs)
           (Js.set "js"
              (OList (EntryConfig.paths entryConfig
                      ++ match EntryConfig.externs entryConfig with
                         | Some externs => map (fun extern => String.append "!" extern) externs
                         | None => []
                         end)%list)
              (Js.set "dependency_mode" (OStr "PRUNE") opts)) in
       if outputToFile
       then copy (EntryConfig.output_file entryConfig) OStr "js_output_file" opts
       else opts).
Proof.
  intros Hmodules. unfold inputOptions. rewrite Hmodules. cbv zeta.
  destruct (EntryConfig.inputs entryConfig) as [inputs |]; [| discriminate].
  cbn [assertNonNullable bind]. exists inputs. split; [reflexivity |].
  destruct outputToFile.
  - destruct (truthyString (EntryConfig.output_file entryConfig)); [| discriminate].
    cbn [negb] in H. injection H as <-. split; reflexivity.
  - injection H as <-. split; [discriminate | reflexivity].
Qed.

Lemma inputOptions_accepts (entryConfig : EntryConfig.t) (outputToFile : bool)
    (opts : CompilerOptions) :
  isOk (inputOptions entryConfig outputToFile opts)
  = match EntryConfig.modules entryConfig with
    | Some _ =>
        negb outputToFile
        || (truthyString (EntryConfig.module_output_path entryConfig)
            && endsWith (default "" (EntryConfig.module_output_path entryConfig)) "%s.js")
    | None =>
        match EntryConfig.inputs entryConfig with
        | Some _ => negb outputToFile || truthyString (EntryConfig.output_file entryConfig)
        | None => false
        end
    end.
Proof.
  unfold inputOptions.
  destruct (EntryConfig.modules entryConfig) as [modules |]; cbv zeta.
  - destruct outputToFile; [| reflexivity]. cbn [negb orb].
    destruct (truthyString (EntryConfig.module_output_path entryConfig));
      [| reflexivity]. cbn [negb andb].
    destruct (endsWith _ "%s.js"); reflexivity.
  - destruct (EntryConfig.inputs entryConfig) as [inputs |]; [| reflexivity].
    cbn [assertNonNullable bind].
    destruct outputToFile; [| reflexivity]. cbn [negb orb].
    destruct (truthyString (EntryConfig.output_file entryConfig)); reflexivity.
Qed.

Lemma inputOptions_get_other (entryConfig : EntryConfig.t) (outputToFile : bool)
    (opts opts' : CompilerOptions) (key : string) :
  inputOptions entryConfig outputToFile opts = Ok opts' ->
  ~ In key ["dependency_mode"; "chunk_output_path_prefix"; "js"; "entry_point";
            "js_output_file"] ->
  Js.get key opts' = Js.get key opts.
Proof.
  intros Hrun Hkey.
  assert (Hne : forall k, In k ["dependency_mode"; "chunk_output_path_prefix"; "js";
                                "entry_point"; "js_output_file"] -> k <> key)
    by (intros k Hin ->; exact (Hkey Hin)).
  destruct (EntryConfig.modules entryConfig) as [modules |] eqn:Hmodules.
  - destruct (inputOptions_chunked _ _ _ _ _ Hmodules Hrun)
      as [[_ ->] | (_ & _ & _ & ->)];
      rewrite ?JsFacts.get_set_other by (apply Hne; simpl; tauto); reflexivity.
  - destruct (inputOptions_page _ _ _ _ Hmodules Hrun) as (inputs & _ & _ & ->).
    cbv zeta. destruct outputToFile;
      rewrite ?get_copy_other, ?JsFacts.get_set_other by (apply Hne; simpl; tauto);
      reflexivity.
Qed.

Lemma inputOptions_keys (entryConfig : EntryConfig.t) (outputToFile : bool)
    (opts opts' : CompilerOptions) (key : string) :
  inputOptions entryConfig outputToFile opts = Ok opts' ->
  In key (Js.keys opts') ->
  In key (Js.keys opts) \/
  In key (match EntryConfig.modules entryConfig with
          | Some _ => ["dependency_mode"; "chunk_output_path_prefix"]
          | None => ["dependency_mode"; "js"; "entry_point"; "js_output_file"]
          end).
Proof.
  intros Hrun Hin.
  destruct (EntryConfig.modules entryConfig) as [modules |] eqn:Hmodules.
  - destruct (inputOptions_chunked _ _ _ _ _ Hmodules Hrun)
      as [[_ ->] | (_ & _ & _ & ->)];
      repeat keys_step Hin; now left.
  - destruct (inputOptions_page _ _ _ _ Hmodules Hrun) as (inputs & _ & _ & ->).
    cbv zeta in Hin. destruct outputToFile; repeat keys_step Hin; now left.
Qed.

(** What [createBaseOptions] returns, step by step. *)
Lemma createBaseOptions_Ok (entryConfig : EntryConfig.t) (outputToFile : bool)
    (opts : CompilerOptions) :
  createBaseOptions entryConfig outputToFile = Ok opts ->
  exists input,
    inputOptions entryConfig outputToFile (commonOptions entryConfig outputToFile)
    = Ok input /\
    checkOptions entryConfig input = Ok opts.
Proof.
  rewrite createBaseOptions_steps. unfold bind.
  destruct (inputOptions entryConfig outputToFile _) as [input | e]; [| discriminate].
  intros Hrun. exists input. split; [reflexivity | exact Hrun].
Qed.

(** The keys [createBaseOptions] may write. *)
Lemma createBaseOptions_known_keys (entryConfig : EntryConfig.t) (outputToFile : bool)
    (opts : CompilerOptions) (key : string) :
  createBaseOptions entryConfig outputToFile = Ok opts ->
  In key (Js.keys opts) ->
  In key ["json_streams"; "language_in"; "language_out"; "warning_level";
          "debug"; "rename_prefix_namespace"; "compilation_level";
          "externs"; "formatting"; "define"; "jscomp_error";
          "jscomp_warning"; "jscomp_off"] \/
  In key (match EntryConfig.modules entryConfig with
          | Some _ => ["dependency_mode"; "chunk_output_path_prefix"]
          | None => ["dependency_mode"; "js"; "entry_point"; "js_output_file"]
          end).
Proof.
  intros Hrun Hin. apply createBaseOptions_Ok in Hrun.
  destruct Hrun as (input & Hinput & Hcheck).
  destruct (checkOptions_keys _ _ _ _ Hcheck Hin) as [Hin' | Hlast];
    [| left; simpl in *; tauto].
  destruct (inputOptions_keys _ _ _ _ _ Hinput Hin') as [Hcommon | Hstep]; [| tauto].
  left. apply commonOptions_keys in Hcommon. simpl in *. tauto.
Qed.

(** X4. [createBaseOptions] makes options of exactly the accepted entry
    configs: with modules and an output to files, a module output path that
    ends in "%s.js"; without modules, inputs, and an output file when the
    output goes to one; no single quote in a string to define; and no check
    set to anything but ERROR, WARNING or OFF.  Every other entry config
    makes it throw. *)
Theorem createBaseOptions_accepts (entryConfig : EntryConfig.t) (outputToFile : bool) :
  isOk (createBaseOptions entryConfig outputToFile)
  = entryAccepted entryConfig outputToFile.
Proof.
  rewrite createBaseOptions_steps. unfold entryAccepted, bind.
  rewrite <- (inputOptions_accepts entryConfig outputToFile
                (commonOptions entryConfig outputToFile)).
  destruct (inputOptions entryConfig outputToFile _) as [input | e]; [| reflexivity].
  rewrite checkOptions_accepts. reflexivity.
Qed.

(** X5. The options of [createBaseOptions] carry no flag but the eighteen it
    knows; the flags of a page ([js], [entry_point], [js_output_file]) are
    not among those of a chunked entry config, and
    [chunk_output_path_prefix] is not among those of a page. *)
Theorem createBaseOptions_known_flags (entryConfig : EntryConfig.t) (outputToFile : bool)
    (opts : CompilerOptions) (key : string) :
  createBaseOptions entryConfig outputToFile = Ok opts ->
  In key (Js.keys opts) ->
  In key baseOptionKeys /\
  match EntryConfig.modules entryConfig with
  | Some _ => key <> "js" /\ key <> "entry_point" /\ key <> "js_output_file"
  | None => key <> "chunk_output_path_prefix"
  end.
Proof.
  intros Hrun Hin.
  pose proof (createBaseOptions_known_keys _ _ _ _ Hrun Hin) as Hkey.
  clear Hrun Hin.
  destruct (EntryConfig.modules entryConfig); simpl in Hkey;
    repeat match goal with
           | H : _ \/ _ |- _ => destruct H as [H | H]
           | H : False |- _ => destruct H
           end;
    subst key; (split; [unfold baseOptionKeys; simpl; tauto | repeat split; discriminate]).
Qed.

(** A run of X5: the flags of the example page. *)
Lemma createBaseOptions_known_flags_witness :
  exists opts,
    createBaseOptions ExamplePage.entryConfig false = Ok opts /\
    In "jscomp_off" (Js.keys opts) /\ In "jscomp_off" baseOptionKeys.
Proof.
  eexists. split; [vm_compute; reflexivity |].
  split; [vm_compute; tauto |].
  refine (proj1 (createBaseOptions_known_flags ExamplePage.entryConfig false _
                   "jscomp_off" eq_refl _)).
  vm_compute. tauto.
Defined.

Lemma substring_all (s : string) : String.substring 0 (String.length s) s = s.
Proof. induction s as [| c s IH]; simpl; [reflexivity | now rewrite IH]. Qed.

Lemma substring_split (n : nat) :
  forall s : string,
    n <= String.length s ->
    String.append (String.substring 0 n s)
      (String.substring n (String.length s - n) s) = s.
Proof.
  induction n as [| n IH]; intros s Hle.
  - rewrite Nat.sub_0_r, substring_all. destruct s; reflexivity.
  - destruct s as [| c s]; simpl in Hle; [lia |].
    simpl.
    change (String c (String.append (String.substring 0 n s)
                        (String.substring n (String.length s - n) s)) = String c s).
    f_equal. apply IH. lia.
Qed.

Lemma endsWith_split (s suffix : string) :
  endsWith s suffix = true ->
  String.append (String.substring 0 (String.length s - String.length suffix) s) suffix = s.
Proof.
  unfold endsWith. intros H. apply andb_true_iff in H. destruct H as [Hle Heq].
  apply Nat.leb_le in Hle. apply String.eqb_eq in Heq.
  pose proof (substring_split (String.length s - String.length suffix) s) as Hsplit.
  replace (String.length s - (String.length s - String.length suffix))
    with (String.length suffix) in Hsplit by lia.
  rewrite Heq in Hsplit. apply Hsplit. lia.
Qed.

(** X6. When a chunked entry config is written to files, the
    [chunk_output_path_prefix] given to the compiler is the module output
    path without its "%s.js": putting "%s.js" back after the prefix gives
    the module output path. *)
Theorem chunk_output_path_prefix_round_trip (entryConfig : EntryConfig.t)
    (opts : CompilerOptions) (modules : list (string * ModuleConfig)) :
  EntryConfig.modules entryConfig = Some modules ->
  createBaseOptions entryConfig true = Ok opts ->
  exists prefix,
    Js.get "chunk_output_path_prefix" opts = Some (OStr prefix) /\
    EntryConfig.module_output_path entryConfig = Some (prefix ++ "%s.js").
Proof.
  intros Hmodules Hrun. apply createBaseOptions_Ok in Hrun.
  destruct Hrun as (input & Hinput & Hcheck).
  destruct (inputOptions_chunked _ _ _ _ _ Hmodules Hinput)
    as [[Hout _] | (_ & Hpath & Hends & ->)]; [discriminate |].
  eexists. split.
  - rewrite (checkOptions_get_other _ _ _ _ Hcheck)
      by (simpl; intros H; repeat (destruct H as [H | H]; try discriminate); exact H).
    apply JsFacts.get_set_same.
  - destruct (EntryConfig.module_output_path entryConfig) as [outputPath |];
      [| discriminate].
    cbn [from_option id] in *. f_equal. symmetry. apply endsWith_split. exact Hends.
Qed.

(** A run of X6: chunks written to "/out/chunk-%s.js". *)
Lemma chunk_output_path_prefix_round_trip_witness :
  exists opts,
    createBaseOptions ExamplePage.chunked true = Ok opts /\
    Js.get "chunk_output_path_prefix" opts = Some (OStr "/out/chunk-").
Proof.
  eexists. split; [vm_compute; reflexivity |].
  destruct (chunk_output_path_prefix_round_trip ExamplePage.chunked _ Example.modules
              eq_refl eq_refl) as (prefix & Hget & Hpath).
  vm_compute. reflexivity.
Defined.

(** X7. The checks of the entry config reach the compiler sorted by their
    level: [jscomp_error], [jscomp_warning] and [jscomp_off] name the checks
    set to ERROR, WARNING and OFF, each in the order of the entry config, and
    a level with no check has no option. *)
Theorem createBaseOptions_sorts_checks (entryConfig : EntryConfig.t) (outputToFile : bool)
    (opts : CompilerOptions) :
  createBaseOptions entryConfig outputToFile = Ok opts ->
  let checks := default [] (EntryConfig.checks entryConfig) in
  Js.get "jscomp_error" opts = listOption (checksAt "ERROR" checks) /\
  Js.get "jscomp_warning" opts = listOption (checksAt "WARNING" checks) /\
  Js.get "jscomp_off" opts = listOption (checksAt "OFF" checks) /\
  forall name,
    In name (map fst checks) <->
    In name (checksAt "ERROR" checks) \/ In name (checksAt "WARNING" checks) \/
    In name (checksAt "OFF" checks).
Proof.
  intros Hrun checks. apply createBaseOptions_Ok in Hrun.
  destruct Hrun as (input & Hinput & Hcheck).
  assert (Hnone : forall key,
            In key ["define"; "externs"; "formatting"; "jscomp_error"; "jscomp_warning";
                    "jscomp_off"] ->
            Js.get key input = None).
  { intros key Hkey.
    rewrite (inputOptions_get_other _ _ _ _ _ Hinput)
      by (simpl in *; intros H;
          repeat (destruct Hkey as [<- | Hkey]; [repeat (destruct H as [H | H]; try discriminate); exact H |]);
          exact Hkey).
    apply commonOptions_get_None.
    simpl in *; intros H;
      repeat (destruct Hkey as [<- | Hkey]; [repeat (destruct H as [H | H]; try discriminate); exact H |]);
      exact Hkey. }
  apply checkOptions_Ok in Hcheck. destruct Hcheck as (defined & _ & Hacc & ->).
  cbv zeta. fold checks in Hacc.
  assert (Hbefore : forall key,
            In key ["jscomp_error"; "jscomp_warning"; "jscomp_off"] ->
            Js.get key
              match EntryConfig.define entryConfig with
              | Some _ =>
                  Js.set "define" (OList defined)
                    (setIfNonEmpty "formatting"
                       ((if truthyBool (EntryConfig.pretty_print entryConfig)
                         then ["PRETTY_PRINT"] else [])
                        ++ (if truthyBool (EntryConfig.print_input_delimiter entryConfig)
                            then ["PRINT_INPUT_DELIMITER"] else []))%list
                       match EntryConfig.externs entryConfig with
                       | Some externs => Js.set "externs" (OList externs) input
                       | None => input
                       end)
              | None =>
                  setIfNonEmpty "formatting"
                    ((if truthyBool (EntryConfig.pretty_print entryConfig)
                      then ["PRETTY_PRINT"] else [])
                     ++ (if truthyBool (EntryConfig.print_input_delimiter entryConfig)
                         then ["PRINT_INPUT_DELIMITER"] else []))%list
                    match EntryConfig.externs entryConfig with
                    | Some externs => Js.set "externs" (OList externs) input
                    | None => input
                    end
              end = None).
  { intros key Hkey.
    assert (Hne : key <> "define" /\ key <> "formatting" /\ key <> "externs")
      by (simpl in Hkey; repeat split; intros ->;
          repeat (destruct Hkey as [Hkey | Hkey]; try discriminate); exact Hkey).
    destruct Hne as (Hdefine & Hformatting & Hexterns).
    destruct (EntryConfig.define entryConfig), (EntryConfig.externs entryConfig);
      rewrite ?JsFacts.get_set_other, ?get_setIfNonEmpty_other, ?JsFacts.get_set_other
        by congruence;
      apply Hnone; simpl in *; tauto. }
  split; [| split; [| split]].
  - unfold checks. destruct (EntryConfig.checks entryConfig) as [cs |]; cbn [from_option id].
    + rewrite !get_setIfNonEmpty_other by discriminate.
      apply get_setIfNonEmpty_same, Hbefore. simpl. tauto.
    + apply Hbefore. simpl. tauto.
  - unfold checks. destruct (EntryConfig.checks entryConfig) as [cs |]; cbn [from_option id].
    + rewrite get_setIfNonEmpty_other by discriminate.
      apply get_setIfNonEmpty_same. rewrite get_setIfNonEmpty_other by discriminate.
      apply Hbefore. simpl. tauto.
    + apply Hbefore. simpl. tauto.
  - unfold checks. destruct (EntryConfig.checks entryConfig) as [cs |]; cbn [from_option id].
    + apply get_setIfNonEmpty_same. rewrite !get_setIfNonEmpty_other by discriminate.
      apply Hbefore. simpl. tauto.
    + apply Hbefore. simpl. tauto.
  - intros name. unfold checksAt. rewrite !in_map_iff. split.
    + intros ([n value] & <- & Hin).
      pose proof (proj1 (forallb_forall _ _) Hacc _ Hin) as Hvalue.
      unfold checkAccepted in Hvalue. cbn [fst snd] in *.
      apply orb_true_iff in Hvalue. destruct Hvalue as [Hvalue | Hoff].
      * apply orb_true_iff in Hvalue. destruct Hvalue as [Herror | Hwarning].
        -- left. exists (n, value). split; [reflexivity |].
           apply filter_In. split; assumption.
        -- right. left. exists (n, value). split; [reflexivity |].
           apply filter_In. split; assumption.
      * right. right. exists (n, value). split; [reflexivity |].
        apply filter_In. split; assumption.
    + intros [(kv & <- & Hin) | [(kv & <- & Hin) | (kv & <- & Hin)]];
        apply filter_In in Hin; exists kv; tauto.
Qed.

(** A run of X7: the checks of the example page. *)
Lemma createBaseOptions_sorts_checks_witness :
  exists opts,
    createBaseOptions ExamplePage.entryConfig false = Ok opts /\
    Js.get "jscomp_error" opts = Some (OList ["checkTypes"; "checkVars"]) /\
    Js.get "jscomp_warning" opts = None /\
    Js.get "jscomp_off" opts = Some (OList ["deprecated"]).
Proof.
  eexists. split; [vm_compute; reflexivity |].
  destruct (createBaseOptions_sorts_checks ExamplePage.entryConfig false _ eq_refl)
    as (Herror & Hwarning & Hoff & _).
  split; [exact Herror | split; [exact Hwarning | exact Hoff]].
Defined.

Lemma createBaseOptions_level (entryConfig : EntryConfig.t) (outputToFile : bool)
    (opts : CompilerOptions) :
  createBaseOptions entryConfig outputToFile = Ok opts ->
  Js.get "compilation_level" opts
  = Some (OStr (compilationLevel (EntryConfig.mode entryConfig))).
Proof.
  intros Hrun. apply createBaseOptions_Ok in Hrun.
  destruct Hrun as (input & Hinput & Hcheck).
  rewrite (checkOptions_get_other _ _ _ _ Hcheck)
    by (simpl; intros H; repeat (destruct H as [H | H]; try discriminate); exact H).
  rewrite (inputOptions_get_other _ _ _ _ _ Hinput)
    by (simpl; intros H; repeat (destruct H as [H | H]; try discriminate); exact H).
  apply commonOptions_level.
Qed.

(** X8. The options of a page: the entry points are the inputs of the entry
    config, which has some; the dependency mode is PRUNE; the externs are
    given as [externs]; and [js] holds the paths of the entry config followed
    by every extern behind a "!", in their order. *)
Theorem createBaseOptions_page_inputs (entryConfig : EntryConfig.t) (outputToFile : bool)
    (opts : CompilerOptions) :
  EntryConfig.modules entryConfig = None ->
  createBaseOptions entryConfig outputToFile = Ok opts ->
  let externs := default [] (EntryConfig.externs entryConfig) in
  Js.get "entry_point" opts = OList <$> EntryConfig.inputs entryConfig /\
  EntryConfig.inputs entryConfig <> None /\
  Js.get "dependency_mode" opts = Some (OStr "PRUNE") /\
  Js.get "externs" opts = OList <$> EntryConfig.externs entryConfig /\
  Js.get "js" opts
  = Some (OList (EntryConfig.paths entryConfig
                 ++ map (fun extern => String.append "!" extern) externs)%list).
Proof.
  intros Hmodules Hrun externs. apply createBaseOptions_Ok in Hrun.
  destruct Hrun as (input & Hinput & Hcheck).
  assert (Hexterns : Js.get "externs" input = None).
  { rewrite (inputOptions_get_other _ _ _ _ _ Hinput)
      by (simpl; intros H; repeat (destruct H as [H | H]; try discriminate); exact H).
    apply commonOptions_get_None.
    simpl; intros H; repeat (destruct H as [H | H]; try discriminate); exact H. }
  rewrite (checkOptions_get_other _ _ _ "entry_point" Hcheck),
    (checkOptions_get_other _ _ _ "dependency_mode" Hcheck),
    (checkOptions_get_other _ _ _ "js" Hcheck)
    by (simpl; intros H; repeat (destruct H as [H | H]; try discriminate); exact H).
  apply checkOptions_Ok in Hcheck. destruct Hcheck as (defined & _ & _ & ->).
  destruct (inputOptions_page _ _ _ _ Hmodules Hinput) as (inputs & Hinputs & _ & Heq).
  cbv zeta in Heq. rewrite Hinputs. cbn [fmap option_fmap option_map].
  split; [| split; [discriminate | split; [| split]]].
  - subst input. destruct outputToFile;
      rewrite ?get_copy_other by discriminate; apply JsFacts.get_set_same.
  - subst input. destruct outputToFile;
      rewrite ?get_copy_other by discriminate;
      rewrite !JsFacts.get_set_other by discriminate; apply JsFacts.get_set_same.
  - cbv zeta. clear Heq.
    destruct (EntryConfig.checks entryConfig), (EntryConfig.define entryConfig),
      (EntryConfig.externs entryConfig);
      rewrite ?get_setIfNonEmpty_other, ?JsFacts.get_set_other, ?get_setIfNonEmpty_other
        by discriminate;
      first [ apply JsFacts.get_set_same | exact Hexterns ].
  - subst input. unfold externs.
    destruct outputToFile;
      rewrite ?get_copy_other by discriminate;
      rewrite !JsFacts.get_set_other by discriminate;
      rewrite JsFacts.get_set_same;
      destruct (EntryConfig.externs entryConfig); reflexivity.
Qed.

(** A run of X8: the example page. *)
Lemma createBaseOptions_page_inputs_witness :
  exists opts,
    createBaseOptions ExamplePage.entryConfig false = Ok opts /\
    Js.get "js" opts = Some (OList ["/src"; "!/externs/e.js"]) /\
    Js.get "externs" opts = Some (OList ["/externs/e.js"]).
Proof.
  eexists. split; [vm_compute; reflexivity |].
  destruct (createBaseOptions_page_inputs ExamplePage.entryConfig false _ eq_refl eq_refl)
    as (_ & _ & _ & Hexterns & Hjs).
  split; [exact Hjs | exact Hexterns].
Defined.

(** X9. [createCompilerOptionsForPage] fails only as [createBaseOptions]
    does: the compilation level it asserts is always there, and is never
    RAW.  Its options are those of [createBaseOptions] and, when the output
    wrapper is neither empty nor the bare marker, the output wrapper. *)
Theorem createCompilerOptionsForPage_as_base {E : Env}
    (entryConfig : EntryConfig.t) (outputToFile : bool) :
  match createBaseOptions entryConfig outputToFile with
  | Ok base =>
      exists opts,
        createCompilerOptionsForPage entryConfig outputToFile = Ok opts /\
        (forall key, key <> "output_wrapper" -> Js.get key opts = Js.get key base) /\
        let level := compilationLevel (EntryConfig.mode entryConfig) in
        let wrapper := createOutputWrapper entryConfig level in
        Js.get "compilation_level" opts = Some (OStr level) /\
        level <> "RAW" /\
        Js.get "output_wrapper" opts
        = if String.eqb wrapper "" || String.eqb wrapper wrapperMarker
          then None
          else Some (OStr wrapper)
  | Throw e => createCompilerOptionsForPage entryConfig outputToFile = Throw e
  end.
Proof.
  unfold createCompilerOptionsForPage.
  destruct (createBaseOptions entryConfig outputToFile) as [base | e] eqn:Hbase;
    [| reflexivity].
  cbn [bind].
  pose proof (createBaseOptions_level _ _ _ Hbase) as Hlevel.
  assert (Hwrapper : Js.get "output_wrapper" base = None).
  { apply get_not_key. intros Hin.
    destruct (createBaseOptions_known_keys _ _ _ _ Hbase Hin) as [H | H];
      [| destruct (EntryConfig.modules entryConfig)];
      repeat (destruct H as [H | H]; try discriminate); exact H. }
  unfold compilationLevelOf. rewrite Hlevel. cbn [assertNonNullable bind].
  set (level := compilationLevel (EntryConfig.mode entryConfig)).
  set (wrapper := createOutputWrapper entryConfig level).
  assert (Hraw : level <> "RAW")
    by (unfold level; destruct (EntryConfig.mode entryConfig); discriminate).
  destruct (String.eqb wrapper "") eqn:Hempty; cbn [negb andb orb].
  - exists base. repeat split; try assumption.
  - destruct (String.eqb wrapper wrapperMarker) eqn:Hmarker; cbn [negb].
    + exists base. repeat split; try assumption.
    + eexists. split; [reflexivity |]. split; [| split; [| split]].
      * intros key Hkey. apply JsFacts.get_set_other. congruence.
      * rewrite JsFacts.get_set_other by discriminate. exact Hlevel.
      * exact Hraw.
      * apply JsFacts.get_set_same.
Qed.

(** ** Pages *)

(** One call of [compile] is one run of the compiler, and nothing else. *)
Lemma compile_run {E : Env} (opts : CompilerOptions) (useNative : bool) (st : State) :
  exists runOptions exitCode stdout stderr,
    let st' := snd (compile opts useNative st) in
    compiler_run useNative runOptions (flagfiles st') = (exitCode, stdout, stderr) /\
    fst (compile opts useNative st)
    = (if truthyString stderr
       then Throw (CompilerError (default "" stderr) exitCode)
       else Ok stdout) /\
    compilerRuns st' = (compilerRuns st ++ [(useNative, runOptions)])%list /\
    entryIdToChunkCache st' = entryIdToChunkCache st /\
    depFileTextCache st' = depFileTextCache st /\
    dependenciesCache st' = dependenciesCache st.
Proof.
  rewrite compile_unfold.
  destruct (tooManyJs opts).
  - destruct (compiler_run useNative _ _) as [[exitCode stdout] stderr] eqn:Hrun.
    exists [("flagfile", OStr (tempy_file (length (flagfiles st))))],
      exitCode, stdout, stderr.
    destruct (truthyString stderr); cbv zeta; (split; [exact Hrun | repeat split]).
  - destruct (compiler_run useNative _ _) as [[exitCode stdout] stderr] eqn:Hrun.
    exists opts, exitCode, stdout, stderr.
    destruct (truthyString stderr); cbv zeta; (split; [exact Hrun | repeat split]).
Qed.

(** X10. A page is compiled for every answer: when [replyPageCompile]
    answers, it has run the compiler once (not the native one), the run
    printed nothing to stderr and exactly one output, and the answer is the
    source of that output with status 200 and the JavaScript content type.
    The caches are left as they were: nothing of a page is kept for the next
    request. *)
Theorem replyPageCompile_sends_the_one_output {E : Env}
    (entryConfig : EntryConfig.t) (st : State) (response : Response) (st' : State) :
  replyPageCompile entryConfig st = (Ok response, st') ->
  exists runOptions exitCode stdout stderr output,
    compilerRuns st' = (compilerRuns st ++ [(false, runOptions)])%list /\
    compiler_run false runOptions (flagfiles st') = (exitCode, stdout, stderr) /\
    truthyString stderr = false /\
    JSON_parse stdout = Ok [output] /\
    response = Sent 200 "application/javascript" (src output) /\
    entryIdToChunkCache st' = entryIdToChunkCache st /\
    depFileTextCache st' = depFileTextCache st /\
    dependenciesCache st' = dependenciesCache st.
Proof.
  unfold replyPageCompile, compileToJson, bindM, lift, ret.
  destruct (createCompilerOptionsForPage entryConfig false) as [options | e];
    [| discriminate].
  destruct (compile_run (Js.set "json_streams" (OStr "OUT") options) false st)
    as (runOptions & exitCode & stdout & stderr & Hrun & Hfst & Hruns & Hcaches).
  cbv zeta in *.
  destruct (compile (Js.set "json_streams" (OStr "OUT") options) false st)
    as [r st1]. cbn [fst snd] in *.
  destruct (truthyString stderr) eqn:Hstderr; subst r; [discriminate |].
  destruct (JSON_parse stdout) as [[| output [| output' outputs]] | e] eqn:Hparse;
    try discriminate.
  intros [= <- <-].
  exists runOptions, exitCode, stdout, stderr, output.
  repeat split; try assumption; apply Hcaches.
Qed.

(** A run of X10: the compiler prints the one output of the example page. *)
Lemma replyPageCompile_sends_the_one_output_witness :
  let E := Example.env Example.quiet [Example.output "page"] in
  let run := @replyPageCompile E ExamplePage.entryConfig Example.initial in
  fst run = Ok (Sent 200 "application/javascript" "/* page */") /\
  length (compilerRuns (snd run)) = 1.
Proof.
  intros E run. split; [vm_compute; reflexivity |].
  assert (Hrun : run = (Ok (Sent 200 "application/javascript" "/* page */"), snd run))
    by (vm_compute; reflexivity).
  destruct (@replyPageCompile_sends_the_one_output E ExamplePage.entryConfig
              Example.initial _ _ Hrun)
    as (runOptions & exitCode & stdout & stderr & output & Hruns & _).
  rewrite Hruns. reflexivity.
Defined.

(** ** Reading the dependencies *)

Lemma mapM_Ok_In {A B : Type} (f : A -> result B) (l : list A) (out : list B) (b : B) :
  mapM f l = Ok out -> In b out -> exists a, In a l /\ f a = Ok b.
Proof.
  revert out. induction l as [| a l IH]; intros out; simpl.
  - intros [= <-] [].
  - destruct (f a) as [b' |] eqn:Hf; [| discriminate].
    destruct (mapM f l) as [bs |]; [| discriminate].
    intros [= <-] [<- | Hin]; [eauto |].
    destruct (IH bs eq_refl Hin) as (a' & Ha' & Hfa'). eauto.
Qed.

Lemma mapM_In_Ok {A B : Type} (f : A -> result B) (l : list A) (out : list B) (a : A) :
  mapM f l = Ok out -> In a l -> exists b, f a = Ok b /\ In b out.
Proof.
  revert out. induction l as [| a' l IH]; intros out; simpl.
  - intros _ [].
  - destruct (f a') as [b' |] eqn:Hf; [| discriminate].
    destruct (mapM f l) as [bs |]; [| discriminate].
    intros [= <-] [<- | Hin]; [exists b'; simpl; auto |].
    destruct (IH bs eq_refl Hin) as (b & Hb & Hin'). exists b. simpl. auto.
Qed.

Lemma parsedFile_filter (entryConfig : EntryConfig.t) (files : list string) (file : string) :
  In file
    (List.filter
       (fun file =>
          match EntryConfig.test_excludes entryConfig with
          | Some excludes =>
              if existsb (fun exclude => startsWith file exclude) excludes
              then negb (endsWith file "_test.js")
              else true
          | None => true
          end)
       (List.filter (fun file => endsWith file ".js") files))
  <-> In file files /\ parsedFile entryConfig file = true.
Proof.
  rewrite !filter_In. unfold parsedFile. rewrite andb_true_iff. tauto.
Qed.

(** What [parsePaths] returns, file by file. *)
Lemma parsePaths_Ok {E : Env} (entryConfig : EntryConfig.t) (ignoreDir : option PathArg)
    (deps : list depGraph.Dependency) :
  parsePaths entryConfig ignoreDir = Ok deps ->
  (forall dep,
     In dep deps ->
     exists p ignoreDirs files file parsed,
       In p (EntryConfig.paths entryConfig) /\
       recursive p ignoreDirs = Ok files /\
       In file files /\
       parsedFile entryConfig file = true /\
       parseFileAsync file = Ok parsed /\
       parser.hasFatalError parsed = false /\
       In dep (parser.dependencies parsed)) /\
  (forall p,
     In p (EntryConfig.paths entryConfig) ->
     exists ignoreDirs files,
       recursive p ignoreDirs = Ok files /\
       (ignoreDir = None -> ignoreDirs = []) /\
       forall file,
         In file files ->
         parsedFile entryConfig file = true ->
         exists parsed,
           parseFileAsync file = Ok parsed /\
           parser.hasFatalError parsed = false /\
           forall dep, In dep (parser.dependencies parsed) -> In dep deps).
Proof.
  unfold parsePaths, bind.
  destruct (mapM _ (EntryConfig.paths entryConfig)) as [parseResults | e] eqn:Hpaths;
    [| discriminate].
  destruct (existsb parser.hasFatalError (concat parseResults)) eqn:Hfatal;
    [discriminate |].
  intros [= <-].
  assert (Hnofatal : forall parsed, In parsed (concat parseResults) ->
                                    parser.hasFatalError parsed = false).
  { intros parsed Hin. destruct (parser.hasFatalError parsed) eqn:Hp; [| reflexivity].
    assert (existsb parser.hasFatalError (concat parseResults) = true)
      by (apply existsb_exists; eauto).
    congruence. }
  split.
  - intros dep Hdep. apply in_concat in Hdep. destruct Hdep as (ds & Hds & Hdep).
    apply in_map_iff in Hds. destruct Hds as (parsed & <- & Hparsed).
    pose proof (Hnofatal _ Hparsed) as Hok.
    apply in_concat in Hparsed. destruct Hparsed as (rs & Hrs & Hparsed).
    destruct (mapM_Ok_In _ _ _ _ Hpaths Hrs) as (p & Hp & Hrun).
    cbv beta in Hrun.
    destruct (match ignoreDir with Some _ => _ | None => _ end) as [ignoreDirs | e];
      [| discriminate].
    destruct (recursive p ignoreDirs) as [files | e] eqn:Hfiles; [| discriminate].
    destruct (mapM_Ok_In _ _ _ _ Hrun Hparsed) as (file & Hfile & Hparse).
    apply parsedFile_filter in Hfile. destruct Hfile as [Hfile Haccepted].
    exists p, ignoreDirs, files, file, parsed. repeat split; assumption.
  - intros p Hp.
    destruct (mapM_In_Ok _ _ _ _ Hpaths Hp) as (rs & Hrun & Hrs).
    cbv beta in Hrun.
    destruct (match ignoreDir with Some _ => _ | None => _ end) as [ignoreDirs | e]
      eqn:Hignore; [| discriminate].
    destruct (recursive p ignoreDirs) as [files | e] eqn:Hfiles; [| discriminate].
    exists ignoreDirs, files. split; [exact Hfiles |]. split.
    { intros ->. now injection Hignore as <-. }
    intros file Hfile Haccepted.
    destruct (mapM_In_Ok _ _ _ file Hrun) as (parsed & Hparse & Hparsed).
    { apply parsedFile_filter. now split. }
    assert (Hin : In parsed (concat parseResults)) by (apply in_concat; eauto).
    exists parsed. split; [assumption |]. split; [now apply Hnofatal |].
    intros dep Hdep. apply in_concat. exists (parser.dependencies parsed).
    split; [now apply in_map | assumption].
Qed.

(** X11. On a miss of its cache [getDependencies] returns the dependencies
    of the accepted files and of no other: every dependency was parsed,
    without a fatal error, from a file listed under a path of the entry
    config that ends in ".js" and is no "_test.js" file under a test-excluded
    prefix, and every dependency parsed from such a file is returned.  The
    dependencies are cached under the id of the entry config, and no other
    entry of the dependencies cache changes. *)
Theorem getDependencies_parses_accepted_files {E : Env}
    (entryConfig : EntryConfig.t) (ignoreDir : option PathArg)
    (st st' : State) (deps : list depGraph.Dependency) :
  dependenciesCache st !! EntryConfig.id entryConfig = None ->
  getDependencies entryConfig ignoreDir st = (Ok deps, st') ->
  dependenciesCache st'
  = <[EntryConfig.id entryConfig := deps]> (dependenciesCache st) /\
  (forall dep,
     In dep deps ->
     exists p ignoreDirs files file parsed,
       In p (EntryConfig.paths entryConfig) /\
       recursive p ignoreDirs = Ok files /\
       In file files /\
       parsedFile entryConfig file = true /\
       parseFileAsync file = Ok parsed /\
       parser.hasFatalError parsed = false /\
       In dep (parser.dependencies parsed)) /\
  (forall p,
     In p (EntryConfig.paths entryConfig) ->
     exists ignoreDirs files,
       recursive p ignoreDirs = Ok files /\
       (ignoreDir = None -> ignoreDirs = []) /\
       forall file,
         In file files ->
         parsedFile entryConfig file = true ->
         exists parsed,
           parseFileAsync file = Ok parsed /\
           parser.hasFatalError parsed = false /\
           forall dep, In dep (parser.dependencies parsed) -> In dep deps).
Proof.
  intros Hmiss. unfold getDependencies. rewrite Hmiss.
  destruct (parsePaths entryConfig ignoreDir) as [parsed | e] eqn:Hparse; [| discriminate].
  intros [= <- <-]. split; [reflexivity |]. now apply parsePaths_Ok.
Qed.

(** A run of X11: the five files of the example, none of them excluded. *)
Lemma getDependencies_parses_accepted_files_witness :
  let E := Example.env Example.quiet Example.outputs in
  let run := @getDependencies E ExamplePage.entryConfig None Example.initial in
  fst run = Ok Example.files /\
  dependenciesCache (snd run) !! "page" = Some Example.files.
Proof.
  intros E run.
  assert (Hrun : run = (Ok Example.files, snd run)) by (vm_compute; reflexivity).
  split; [vm_compute; reflexivity |].
  destruct (@getDependencies_parses_accepted_files E ExamplePage.entryConfig None
              Example.initial (snd run) Example.files eq_refl Hrun) as (Hcache & _).
  rewrite Hcache. apply lookup_insert_eq.
Defined.

Lemma scriptAsProvide_no_script (dep : depGraph.Dependency) :
  depGraph.type (scriptAsProvide dep) <> depGraph.SCRIPT /\
  depGraph.path (scriptAsProvide dep) = depGraph.path dep /\
  depGraph.closureSymbols (scriptAsProvide dep) = depGraph.closureSymbols dep /\
  depGraph.imports (scriptAsProvide dep) = depGraph.imports dep.
Proof.
  unfold scriptAsProvide.
  destruct (depGraph.type dep) eqn:Htype; simpl; rewrite ?Htype;
    repeat split; discriminate.
Qed.

(** X12. On a miss of its cache [generateDepFileText] either fails and
    leaves every cache as it was, or caches the text under the id of the
    entry config and leaves the dependencies it was made of in the
    dependencies cache.  The text is made of the dependencies with every
    SCRIPT handed over as a CLOSURE_PROVIDE of the same path, symbols and
    imports, while the cached dependencies keep their types.  It never runs
    the compiler and never touches the chunk cache. *)
Theorem generateDepFileText_caches_text_and_dependencies {E : Env}
    (entryConfig : EntryConfig.t) (closureLibraryDir inputsRoot : string) (st : State) :
  depFileTextCache st !! EntryConfig.id entryConfig = None ->
  let run := generateDepFileText entryConfig closureLibraryDir inputsRoot st in
  match fst run with
  | Ok text =>
      exists deps given,
        dependenciesCache (snd run) !! EntryConfig.id entryConfig = Some deps /\
        depFileTextCache (snd run)
        = <[EntryConfig.id entryConfig := text]> (depFileTextCache st) /\
        text
        = getDepFileText
            (path_dirname
               (path_resolve inputsRoot (path_relative inputsUrlPath googBaseUrlPath)))
            given /\
        Forall2
          (fun dep dep' =>
             depGraph.type dep' <> depGraph.SCRIPT /\
             (depGraph.type dep <> depGraph.SCRIPT -> dep' = dep) /\
             depGraph.path dep' = depGraph.path dep /\
             depGraph.closureSymbols dep' = depGraph.closureSymbols dep /\
             depGraph.imports dep' = depGraph.imports dep)
          deps given
  | Throw _ => snd run = st
  end /\
  entryIdToChunkCache (snd run) = entryIdToChunkCache st /\
  compilerRuns (snd run) = compilerRuns st /\
  flagfiles (snd run) = flagfiles st.
Proof.
  intros Hmiss run. unfold run, generateDepFileText. rewrite Hmiss. unfold bindM.
  pose proof (getDependencies_frame entryConfig (Some (PStr closureLibraryDir)) st)
    as (Hchunks & Hruns & Hfiles & Htexts).
  cbv zeta in *.
  destruct (getDependencies entryConfig (Some (PStr closureLibraryDir)) st)
    as [[deps | e] st1] eqn:Hdeps; cbn [fst snd] in *.
  - split; [| tauto].
    exists deps, (map scriptAsProvide deps). split.
    + unfold getDependencies in Hdeps.
      destruct (dependenciesCache st !! EntryConfig.id entryConfig) as [cached |] eqn:Hc.
      * injection Hdeps as <- <-. exact Hc.
      * destruct (parsePaths entryConfig _); [| discriminate].
        injection Hdeps as <- <-. simpl. apply lookup_insert_eq.
    + split; [now rewrite Htexts |]. split; [reflexivity |].
      clear. induction deps as [| dep deps IH]; simpl; constructor; [| exact IH].
      destruct (scriptAsProvide_no_script dep) as (Htype & Hpath & Hsymbols & Himports).
      repeat split; try assumption.
      intros Hdep. unfold scriptAsProvide.
      destruct (depGraph.type dep); [reflexivity .. | contradiction].
  - split; [| tauto].
    unfold getDependencies in Hdeps.
    destruct (dependenciesCache st !! EntryConfig.id entryConfig); [discriminate |].
    destruct (parsePaths entryConfig _); [discriminate |].
    now injection Hdeps as _ <-.
Qed.

(** A run of X12: the deps file of the example. *)
Lemma generateDepFileText_caches_text_and_dependencies_witness :
  let E := Example.env Example.quiet Example.outputs in
  let run := @generateDepFileText E Example.entryConfig "/closure-library" "/"
               Example.initial in
  fst run = Ok "/src/base.js;/src/x.js;/src/app.js;/src/a.js;/src/b.js" /\
  compilerRuns (snd run) = [].
Proof.
  intros E run. split; [vm_compute; reflexivity |].
  destruct (@generateDepFileText_caches_text_and_dependencies E Example.entryConfig
              "/closure-library" "/" Example.initial eq_refl) as (_ & _ & Hruns & _).
  exact Hruns.
Defined.

(** ** The options of the chunks *)

Lemma keys_set_fresh {V : Type} (m : list (string * V)) (k : string) (v : V) :
  ~ In k (Js.keys m) -> Js.keys (Js.set k v m) = (Js.keys m ++ [k])%list.
Proof.
  induction m as [| [k' v'] m IH]; intros Hfresh; simpl; [reflexivity |].
  simpl in Hfresh. destruct (String.eqb k k') eqn:Hk.
  - apply String.eqb_eq in Hk. subst k'. tauto.
  - simpl. f_equal. apply IH. tauto.
Qed.

Lemma init_keys_order (sortedChunkIds : list string) :
  forall m : list (string * list string),
    List.NoDup (Js.keys m ++ sortedChunkIds) ->
    Js.keys (fold_left (fun m chunk => Js.set chunk [] m) sortedChunkIds m)
    = (Js.keys m ++ sortedChunkIds)%list.
Proof.
  induction sortedChunkIds as [| c ids IH]; intros m Hnd; simpl.
  - now rewrite app_nil_r.
  - assert (Hfresh : ~ In c (Js.keys m)).
    { intros Hin. apply NoDup_remove_2 in Hnd. apply Hnd, in_or_app. now left. }
    rewrite IH; rewrite keys_set_fresh by exact Hfresh.
    + now rewrite <- app_assoc.
    + now rewrite <- app_assoc.
Qed.

(** The lists of [splitDepsIntoChunks] stand in the order of the sorted
    chunk ids. *)
Lemma splitDepsIntoChunks_keys
    (sortedChunkIds : list string) (trans : list (string * list string))
    (dag : Dag.t) (out : list (string * list string)) :
  List.NoDup sortedChunkIds ->
  splitDepsIntoChunks sortedChunkIds trans dag = Ok out ->
  Js.keys out = sortedChunkIds.
Proof.
  intros Hnd. unfold splitDepsIntoChunks. rewrite foldM_concat. intros Hrun.
  apply (SplitFacts.place_loop trans dag _ []) in Hrun.
  - destruct Hrun as (Hkeys & _). rewrite Hkeys.
    now rewrite (init_keys_order sortedChunkIds []).
  - intros C l H. simpl. apply (SplitFacts.init_get sortedChunkIds []) in H; [assumption |].
    intros ? ? [=].
Qed.

Lemma mapM_Forall2 {A B : Type} (f : A -> result B) (l : list A) (out : list B) :
  mapM f l = Ok out -> Forall2 (fun a b => f a = Ok b) l out.
Proof.
  revert out. induction l as [| a l IH]; intros out; simpl.
  - intros [= <-]. constructor.
  - destruct (f a) as [b |] eqn:Hf; [| discriminate].
    destruct (mapM f l) as [bs |]; [| discriminate].
    intros [= <-]. constructor; [exact Hf | now apply IH].
Qed.

(** X13. The options for the chunks fit together: [js] lists the files of
    the first sorted chunk, then those of the second, and so on, and the i-th
    [chunk] flag is made of the id of the i-th sorted chunk, the number of
    the files of that chunk and the parent chunks of its declaration.  So the
    file counts of the flags cut [js] into the file lists of the chunks. *)
Theorem chunk_flags_count_their_files {E : Env}
    (entryConfig : EntryConfig.t) (config : DuckConfig) (outputToFile : bool)
    (createUris : string -> result (list string)) (st st1 : State)
    (options : CompilerOptions) (sortedChunkIds : list string)
    (rootChunkId : option string) :
  createCompilerOptionsForChunks entryConfig config outputToFile createUris st
  = (Ok (options, sortedChunkIds, rootChunkId), st1) ->
  exists modules (placed : list (string * list string)) chunkFlags,
    EntryConfig.modules entryConfig = Some modules /\
    map fst placed = sortedChunkIds /\
    Js.get "js" options = Some (OList (concat (map snd placed))) /\
    Js.get "chunk" options = Some (OList chunkFlags) /\
    Forall2
      (fun entry flag =>
         exists module,
           Js.get (fst entry) modules = Some module /\
           flag = fst entry ++ ":" ++ pretty (length (snd entry)) ++ ":"
                  ++ String.concat "," (deps module))
      placed chunkFlags.
Proof.
  intros Hrun. apply createCompilerOptionsForChunks_Ok in Hrun.
  destruct Hrun as (modules & own & Hmodules & _ & Hopts).
  apply chunkOptions_Ok in Hopts.
  destruct Hopts as (library & dag & placed & flags & level & wrappers & _ & _ & Hsorted
                     & _ & Hsplit & Hjs & Hflags & Hchunk & _).
  apply splitChunks_Ok in Hsplit. destruct Hsplit as (_ & trans & _ & Hplaced).
  cbn [snd] in Hplaced.
  pose proof (DagFacts.getSortedIds_NoDup dag) as Hnd.
  pose proof (splitDepsIntoChunks_keys _ _ _ _ Hnd Hplaced) as Hkeys.
  exists modules, placed, flags.
  split; [assumption |]. split; [now rewrite Hsorted |].
  split; [exact Hjs |]. split; [exact Hchunk |].
  rewrite Hsorted, <- Hkeys in Hflags. rewrite <- Hkeys in Hnd.
  apply mapM_Forall2 in Hflags. clear - Hflags Hnd.
  assert (Hget : forall entry, In entry placed -> Js.get (fst entry) placed = Some (snd entry)).
  { intros [id files] Hin. now apply JsFacts.In_NoDup_get. }
  clear Hnd.
  assert (Hgen : forall (part : list (string * list string)) flags,
            (forall entry, In entry part ->
                           Js.get (fst entry) placed = Some (snd entry)) ->
            Forall2 (fun id flag => chunkFlag modules placed id = Ok flag)
              (Js.keys part) flags ->
            Forall2
              (fun entry flag =>
                 exists module,
                   Js.get (fst entry) modules = Some module /\
                   flag = fst entry ++ ":" ++ pretty (length (snd entry)) ++ ":"
                          ++ String.concat "," (deps module))
              part flags).
  { induction part as [| entry part IH]; intros fs Hpart Hfs;
      inversion Hfs as [| id flag ids flags' Hflag Hrest]; subst; constructor.
    - unfold chunkFlag in Hflag. rewrite Hpart in Hflag by now left.
      destruct (Js.get (fst entry) modules) as [module |]; [| discriminate].
      injection Hflag as <-. exists module. split; reflexivity.
    - apply IH; [| assumption]. intros e He. apply Hpart. now right. }
  now apply Hgen.
Qed.

(** A run of X13: the three chunks of the example. *)
Lemma chunk_flags_count_their_files_witness :
  let E := Example.env Example.quiet Example.outputs in
  let createUris := @createModuleUris E Example.baseUrl "/compile?id=main" "1" in
  let run :=
    @createCompilerOptionsForChunks E Example.entryConfig Example.config false createUris
      Example.initial in
  exists options,
    fst run = Ok (options, ["app"; "a"; "b"], Some "app") /\
    Js.get "chunk" options = Some (OList ["app:3:"; "a:1:app"; "b:1:app"]) /\
    Js.get "js" options
    = Some (OList ["/src/base.js"; "/src/app.js"; "/src/x.js"; "/src/a.js"; "/src/b.js"]).
Proof.
  intros E createUris run.
  destruct run as [[[[options sorted] root] | e] st1] eqn:Hrun;
    [| exfalso; revert Hrun; vm_compute; discriminate].
  destruct (@chunk_flags_count_their_files E Example.entryConfig Example.config false
              createUris Example.initial st1 options sorted root Hrun)
    as (modules & placed & flags & _).
  exists options. revert Hrun. unfold run. vm_compute. intros [= <- <- <- <-].
  repeat split.
Defined.

(** ** The URLs of the manifest *)

Lemma filter_searchParams_set (keep : string * string -> bool) (name value : string)
    (params : list (string * string)) :
  (forall v, keep (name, v) = false) ->
  List.filter keep (searchParams_set name value params) = List.filter keep params.
Proof.
  intros Hname. induction params as [| [n v] params IH]; simpl.
  - now rewrite Hname.
  - destruct (String.eqb n name) eqn:Hn.
    + apply String.eqb_eq in Hn. subst n. simpl. rewrite !Hname.
      clear IH. induction params as [| [n' v'] params IH]; simpl; [reflexivity |].
      destruct (String.eqb n' name) eqn:Hn'; simpl.
      * apply String.eqb_eq in Hn'. subst n'. now rewrite Hname.
      * now rewrite IH.
    + simpl. now rewrite IH.
Qed.

Lemma paramsNamed_set (name value : string) (params : list (string * string)) :
  paramsNamed name (searchParams_set name value params) = [(name, value)].
Proof.
  unfold paramsNamed. induction params as [| [n v] params IH]; simpl.
  - now rewrite String.eqb_refl.
  - destruct (String.eqb n name) eqn:Hn; simpl.
    + rewrite String.eqb_refl. f_equal.
      clear. induction params as [| [n' v'] params IH]; simpl; [reflexivity |].
      destruct (String.eqb n' name) eqn:Hn'; simpl; [exact IH |].
      now rewrite Hn'.
    + now rewrite Hn.
Qed.

(** X14. The URL [createModuleUris] makes for a chunk is the requested URL
    with its search parameters [chunk] and [parentRequest] replaced: it has
    one [chunk], the id of the chunk, and one [parentRequest], the id of the
    request being served, however many the requested URL had, and keeps
    every other parameter, in order. *)
Theorem createModuleUris_replaces_chunk_and_parentRequest {E : Env}
    (baseUrl : URL) (url requestId chunkId : string) (uris : list string) :
  createModuleUris baseUrl url requestId chunkId = Ok uris ->
  exists requested uri,
    new_URL url baseUrl = Ok requested /\
    uris = [URL_toString uri] /\
    beforeSearch uri = beforeSearch requested /\
    paramsNamed "chunk" (searchParams uri) = [("chunk", chunkId)] /\
    paramsNamed "parentRequest" (searchParams uri) = [("parentRequest", requestId)] /\
    forall name,
      name <> "chunk" -> name <> "parentRequest" ->
      paramsNamed name (searchParams uri) = paramsNamed name (searchParams requested).
Proof.
  unfold createModuleUris, bind.
  destruct (new_URL url baseUrl) as [requested | e]; [| discriminate].
  intros [= <-]. eexists requested, _. split; [reflexivity |]. split; [reflexivity |].
  cbn [beforeSearch searchParams]. split; [reflexivity |]. split; [| split].
  - unfold paramsNamed at 1. rewrite filter_searchParams_set by reflexivity.
    apply paramsNamed_set.
  - apply paramsNamed_set.
  - intros name Hchunk Hparent. unfold paramsNamed.
    rewrite !filter_searchParams_set; [reflexivity | |];
      intros v; cbn [fst]; apply String.eqb_neq; congruence.
Qed.

(** A run of X14: the URL of chunk [a] in the manifest of request [7]. *)
Lemma createModuleUris_replaces_chunk_and_parentRequest_witness :
  let E := Example.env Example.quiet Example.outputs in
  @createModuleUris E Example.baseUrl "/compile" "7" "a"
  = Ok ["http://localhost:9810/compile?id=main&chunk=a&parentRequest=7"] /\
  exists uri,
    paramsNamed "chunk" (searchParams uri) = [("chunk", "a")] /\
    paramsNamed "parentRequest" (searchParams uri) = [("parentRequest", "7")].
Proof.
  intros E. split; [vm_compute; reflexivity |].
  destruct (@createModuleUris_replaces_chunk_and_parentRequest E Example.baseUrl
              "/compile" "7" "a" _ eq_refl)
    as (requested & uri & _ & _ & _ & Hchunk & Hparent & _).
  exists uri. split; assumption.
Defined.

(** ** From the manifest back to the server *)

Lemma replyChunksCompile_Sent {E : Env}
    (config : DuckConfig) (baseUrl : URL) (entryConfig : EntryConfig.t)
    (url requestId : string) (query : CompileQuery) (st st' : State)
    (code : Z) (contentType body : string) :
  replyChunksCompile config baseUrl entryConfig url requestId query st
  = (Ok (Sent code contentType body), st') ->
  compileChunks config baseUrl entryConfig url requestId (chunk query)
    (ensureChunkCache (EntryConfig.id entryConfig) st)
  = (Ok (Sent code contentType body), st').
Proof.
  unfold replyChunksCompile. cbv zeta.
  destruct (if truthyString (chunk query) && truthyString (parentRequest query)
            then _ else None) as [session |]; [| tauto].
  destruct (outputOf session _); discriminate.
Qed.

(** X15. The chunk URLs of a manifest work: once a request has been
    answered by a compile, a request for the i-th sorted chunk that names the
    answered request as its parent is answered with the source of the i-th
    output the compiler printed, without compiling and without a change of
    state, whatever its own URL and request id; when the compiler printed
    fewer outputs than there are chunks, a chunk without an output is an
    error. *)
Theorem chunk_requests_after_a_compile {E : Env}
    (config : DuckConfig) (baseUrl : URL) (entryConfig : EntryConfig.t)
    (url requestId : string) (query : CompileQuery) (st st' : State)
    (code : Z) (contentType body : string) (dag : Dag.t) :
  requestId <> "" ->
  createDag entryConfig = Ok dag ->
  replyChunksCompile config baseUrl entryConfig url requestId query st
  = (Ok (Sent code contentType body), st') ->
  exists runOptions exitCode stdout stderr chunkOutputs,
    compilerRuns st' = (compilerRuns st ++ [(false, runOptions)])%list /\
    compiler_run false runOptions (flagfiles st') = (exitCode, stdout, stderr) /\
    JSON_parse stdout = Ok chunkOutputs /\
    forall i chunkId config' baseUrl' entryConfig' url' requestId' queryId queryMode,
      EntryConfig.id entryConfig' = EntryConfig.id entryConfig ->
      nth_error (Dag.getSortedIds dag) i = Some chunkId ->
      chunkId <> "" ->
      replyChunksCompile config' baseUrl' entryConfig' url' requestId'
        {| query_id := queryId; query_mode := queryMode;
           chunk := Some chunkId; parentRequest := Some requestId |} st'
      = match nth_error chunkOutputs i with
        | Some output => (Ok (Returned (src output)), st')
        | None => (Throw (Error ("Unexpected requested chunk: " ++ chunkId)), st')
        end.
Proof.
  intros Hrequest Hdag Hrun. apply replyChunksCompile_Sent in Hrun.
  apply compileChunks_run in Hrun.
  destruct Hrun as [[Hfail _] | (options & sorted & root & outs & Hfull & _)];
    [discriminate |].
  destruct Hfull as (st1 & exitCode & stdout & stderr & Hfull). cbv zeta in Hfull.
  destruct Hfull as (Hoptions & _ & Hruns & Hcompiler & _ & Hparse & Hcache).
  apply createCompilerOptionsForChunks_Ok in Hoptions.
  destruct Hoptions as (modules & own & _ & _ & Hoptions).
  apply chunkOptions_Ok in Hoptions.
  destruct Hoptions as (library & dag' & placed & flags & level & wrappers & _ & Hdag'
                        & Hsorted & _).
  rewrite Hdag in Hdag'. injection Hdag' as <-.
  eexists _, exitCode, stdout, stderr, outs.
  split; [exact Hruns |]. split; [exact Hcompiler |]. split; [exact Hparse |].
  intros i chunkId config' baseUrl' entryConfig' url' requestId' queryId queryMode
    Hid Hchunk Hne.
  assert (Hsession : chunkCacheOf (EntryConfig.id entryConfig') st' !! requestId
                     = Some (assignOutputs sorted 0 outs ∅)).
  { unfold chunkCacheOf. rewrite Hid, Hcache, lookup_insert_eq. simpl.
    apply lookup_insert_eq. }
  rewrite (replyChunksCompile_hit config' baseUrl' entryConfig' url' requestId'
             {| query_id := queryId; query_mode := queryMode;
                chunk := Some chunkId; parentRequest := Some requestId |} st'
             chunkId requestId _ eq_refl Hne eq_refl Hrequest Hsession).
  unfold outputOf. subst sorted.
  rewrite (assignOutputs_lookup _ (DagFacts.getSortedIds_NoDup dag) 0 outs ∅ i chunkId Hchunk).
  simpl. destruct (nth_error outs i); reflexivity.
Qed.

(** A run of X15: chunk [a] of the session stored under request [1]. *)
Lemma chunk_requests_after_a_compile_witness :
  let E := Example.env Example.quiet Example.outputs in
  @replyChunksCompile E Example.config Example.baseUrl Example.entryConfig
    "/compile?id=main&chunk=a&parentRequest=1" "2"
    (Example.query (Some "a") (Some "1")) Example.served
  = (Ok (Returned "/* a */"), Example.served).
Proof.
  intros E.
  assert (Hdag : exists dag, @createDag Example.entryConfig = Ok dag /\
                             Dag.getSortedIds dag = ["app"; "a"; "b"])
    by (eexists; split; vm_compute; reflexivity).
  destruct Hdag as (dag & Hdag & Hsorted).
  destruct (@chunk_requests_after_a_compile E Example.config Example.baseUrl
              Example.entryConfig "/compile?id=main" "1" (Example.query None None)
              (snd (@generateDepFileText E Example.entryConfig "/closure-library" "/"
                      Example.initial))
              Example.served 200 "application/javascript" "/* app */" dag)
    as (runOptions & exitCode & stdout & stderr & outs & _ & _ & Hparse & Hchunks).
  - discriminate.
  - exact Hdag.
  - vm_compute. reflexivity.
  - injection Hparse as <-. unfold Example.query.
    rewrite (Hchunks 1 "a" Example.config Example.baseUrl Example.entryConfig
               "/compile?id=main&chunk=a&parentRequest=1" "2" "main" None eq_refl).
    + reflexivity.
    + rewrite Hsorted. reflexivity.
    + discriminate.
Defined.

(** X16. [clearEntryIdToChunkCache] forgets every session: the next request
    is answered as the same request without [parentRequest] is, never out of
    the cache.  The caches of gendeps.ts are not cleared with it, so the
    compile that follows is made of the dependencies that were read before
    the sessions were cleared. *)
Theorem clearEntryIdToChunkCache_forgets_sessions {E : Env} (st : State) :
  let cleared := snd (clearEntryIdToChunkCache st) in
  (forall config baseUrl entryConfig url requestId query,
     replyChunksCompile config baseUrl entryConfig url requestId query cleared
     = replyChunksCompile config baseUrl entryConfig url requestId
         {| query_id := query_id query; query_mode := query_mode query;
            chunk := chunk query; parentRequest := None |} cleared /\
     forall body,
       fst (replyChunksCompile config baseUrl entryConfig url requestId query cleared)
       <> Ok (Returned body)) /\
  depFileTextCache cleared = depFileTextCache st /\
  dependenciesCache cleared = dependenciesCache st /\
  forall entryConfig ignoreDir deps,
    dependenciesCache st !! EntryConfig.id entryConfig = Some deps ->
    getDependencies entryConfig ignoreDir cleared = (Ok deps, cleared).
Proof.
  intros cleared. split; [| split; [reflexivity | split; [reflexivity |]]].
  - intros config baseUrl entryConfig url requestId query.
    assert (Hnone : forall key,
              chunkCacheOf (EntryConfig.id entryConfig) cleared !! key = None).
    { intros key. unfold chunkCacheOf, cleared. simpl. rewrite lookup_empty. simpl.
      apply lookup_empty. }
    assert (Hmiss : replyChunksCompile config baseUrl entryConfig url requestId query cleared
                    = compileChunks config baseUrl entryConfig url requestId (chunk query)
                        (ensureChunkCache (EntryConfig.id entryConfig) cleared)).
    { apply replyChunksCompile_miss. right. right. apply Hnone. }
    split.
    + rewrite Hmiss. rewrite replyChunksCompile_miss; [reflexivity |]. simpl. tauto.
    + intros body Hbody. rewrite Hmiss in Hbody.
      destruct (compileChunks config baseUrl entryConfig url requestId (chunk query)
                  (ensureChunkCache (EntryConfig.id entryConfig) cleared))
        as [r st'] eqn:Hrun.
      apply compileChunks_run in Hrun. simpl in Hbody. subst r.
      destruct Hrun as [[Hfail _] | (options & sorted & root & outs & _ & Hr)];
        [discriminate |].
      destruct (outputOf _ _); discriminate.
  - intros entryConfig ignoreDir deps Hdeps. unfold getDependencies.
    change (dependenciesCache cleared) with (dependenciesCache st).
    now rewrite Hdeps.
Qed.

(** ** The manifest *)





Lemma imap_Forall2 {A B : Type} (R : A -> B -> Prop) (l : list A) :
  forall f : nat -> A -> B,
    (forall i a, R a (f i a)) -> Forall2 R l (imap f l).
Proof.
  induction l as [| a l IH]; intros f Hf; simpl; constructor; [apply Hf |].
  apply IH. intros i a'. apply Hf.
Qed.

(** X18. Every chunk gets its wrapper: [chunk_wrapper] holds one wrapper
    for every sorted chunk, in the order of the chunks, and each stands
    behind the id of its chunk and a colon. *)
Theorem chunk_wrappers_name_their_chunks {E : Env}
    (entryConfig : EntryConfig.t) (config : DuckConfig) (outputToFile : bool)
    (createUris : string -> result (list string)) (st st1 : State)
    (options : CompilerOptions) (sortedChunkIds : list string)
    (rootChunkId : option string) :
  createCompilerOptionsForChunks entryConfig config outputToFile createUris st
  = (Ok (options, sortedChunkIds, rootChunkId), st1) ->
  exists wrappers,
    Js.get "chunk_wrapper" options = Some (OList wrappers) /\
    Forall2 (fun chunkId wrapper => exists body, wrapper = chunkId ++ ":" ++ body)
      sortedChunkIds wrappers.
Proof.
  intros Hrun. apply createCompilerOptionsForChunks_Ok in Hrun.
  destruct Hrun as (modules & own & _ & _ & Hopts).
  apply chunkOptions_Ok in Hopts.
  destruct Hopts as (library & dag & placed & flags & level & wrappers & _ & _ & _
                     & _ & _ & _ & _ & _ & Hwrappers & Hget).
  exists wrappers. split; [exact Hget |].
  unfold createChunkWrapper, bind in Hwrappers.
  destruct (convertModuleInfos entryConfig createUris) as [[moduleInfo moduleUris] | e];
    [| discriminate].
  injection Hwrappers as <-.
  apply imap_Forall2. intros i chunkId. eexists. reflexivity.
Qed.

(** A run of X18: the wrappers of the three chunks of the example. *)
Lemma chunk_wrappers_name_their_chunks_witness :
  let E := Example.env Example.quiet Example.outputs in
  let createUris := @createModuleUris E Example.baseUrl "/compile" "7" in
  let run :=
    @createCompilerOptionsForChunks E Example.entryConfig Example.config false createUris
      Example.initial in
  exists options wrappers,
    fst run = Ok (options, ["app"; "a"; "b"], Some "app") /\
    Js.get "chunk_wrapper" options = Some (OList wrappers) /\
    Forall2 (fun chunkId wrapper => exists body, wrapper = chunkId ++ ":" ++ body)
      ["app"; "a"; "b"] wrappers.
Proof.
  intros E createUris run.
  destruct run as [[[[options sorted] root] | e] st1] eqn:Hrun;
    [| exfalso; revert Hrun; vm_compute; discriminate].
  destruct (@chunk_wrappers_name_their_chunks E Example.entryConfig Example.config false
              createUris Example.initial st1 options sorted root Hrun)
    as (wrappers & Hget & Hall).
  assert (Hsorted : sorted = ["app"; "a"; "b"] /\ root = Some "app").
  { revert Hrun. unfold run. vm_compute. intros [= _ <- <- _]. split; reflexivity. }
  destruct Hsorted as [-> ->].
  exists options, wrappers. repeat split; assumption.
Defined.

(** ** The transitive dependencies of a chunk *)

Lemma get_newMap_In {V : Type} (entries : list (string * V)) :
  forall (m : list (string * V)) (k : string) (v : V),
    Js.get k (fold_left (fun m kv => Js.set (fst kv) (snd kv) m) entries m) = Some v ->
    Js.get k m = Some v \/ In (k, v) entries.
Proof.
  induction entries as [| [k0 v0] entries IH]; intros m k v; simpl; [tauto |].
  intros Hget. apply IH in Hget. destruct Hget as [Hget | Hin]; [| tauto].
  destruct (String.eqb k0 k) eqn:Hk.
  - apply String.eqb_eq in Hk. subst k0. rewrite JsFacts.get_set_same in Hget.
    injection Hget as <-. right. now left.
  - apply String.eqb_neq in Hk. rewrite JsFacts.get_set_other in Hget by exact Hk.
    now left.
Qed.

(** X19. The transitive set of a chunk is made of the chunk's own inputs:
    when [findTransitiveDeps] returns, every sorted chunk has a set, and it
    is the set of the paths, first occurrences in order, of what the
    dependency graph orders for the entry points of the chunk; the entry
    points are dependencies handed to [findTransitiveDeps], one for every
    input of the chunk's declaration and of that input's path. *)
Theorem findTransitiveDeps_orders_the_inputs {G : depGraph.Lib}
    (sortedChunkIds : list string) (dependencies : list depGraph.Dependency)
    (modules : list (string * ModuleConfig)) (trans : list (string * list string)) :
  findTransitiveDeps sortedChunkIds dependencies modules = Ok trans ->
  exists graph,
    depGraph.newGraph dependencies = Ok graph /\
    forall chunkId,
      In chunkId sortedChunkIds ->
      exists chunkConfig entryPoints ordered,
        Js.get chunkId modules = Some chunkConfig /\
        Forall2
          (fun input dep => depGraph.path dep = input /\ In dep dependencies)
          (inputs chunkConfig) entryPoints /\
        depGraph.order graph entryPoints = Ok ordered /\
        Js.get chunkId trans = Some (Js.newSet (map depGraph.path ordered)).
Proof.
  unfold findTransitiveDeps, bind.
  destruct (depGraph.newGraph dependencies) as [graph | e]; [| discriminate].
  intros Hrun. exists graph. split; [reflexivity |].
  set (pathToDep := Js.newMap (map (fun dep => (depGraph.path dep, dep)) dependencies))
    in Hrun.
  set (described := fun (chunkId : string) (set : list string) =>
         exists chunkConfig entryPoints ordered,
           Js.get chunkId modules = Some chunkConfig /\
           Forall2
             (fun input dep => depGraph.path dep = input /\ In dep dependencies)
             (inputs chunkConfig) entryPoints /\
           depGraph.order graph entryPoints = Ok ordered /\
           set = Js.newSet (map depGraph.path ordered)).
  assert (Hloop : forall ids acc out,
            foldM
              (fun chunkToTransitiveDepPathSet chunkId =>
                 match
                   match Js.get chunkId modules with
                   | Some c => Ok c
                   | None => Throw (TypeError "Cannot read property 'inputs' of undefined")
                   end
                 with
                 | Ok chunkConfig =>
                     match
                       mapM
                         (fun input =>
                            assertNonNullable (Js.get input pathToDep)
                              ("entryConfig.paths does not include the inputs: " ++ input))
                         (inputs chunkConfig)
                     with
                     | Ok entryPoints =>
                         match depGraph.order graph entryPoints with
                         | Ok ordered =>
                             Ok (Js.set chunkId (Js.newSet (map depGraph.path ordered))
                                   chunkToTransitiveDepPathSet)
                         | Throw e => Throw e
                         end
                     | Throw e => Throw e
                     end
                 | Throw e => Throw e
                 end) ids acc = Ok out ->
            (forall chunkId set, Js.get chunkId acc = Some set -> described chunkId set) ->
            (forall chunkId set, Js.get chunkId out = Some set -> described chunkId set) /\
            (forall chunkId, In chunkId ids -> exists set, Js.get chunkId out = Some set) /\
            (forall chunkId set, Js.get chunkId acc = Some set ->
                                 exists set', Js.get chunkId out = Some set')).
  { induction ids as [| id ids IH]; intros acc out Hfold Hacc; simpl in Hfold.
    - injection Hfold as <-. split; [exact Hacc |]. split; [intros ? [] | eauto].
    - destruct (Js.get id modules) as [chunkConfig |] eqn:Hconfig; [| discriminate].
      destruct (mapM _ (inputs chunkConfig)) as [entryPoints |] eqn:Hentries;
        [| discriminate].
      destruct (depGraph.order graph entryPoints) as [ordered |] eqn:Hordered;
        [| discriminate].
      apply IH in Hfold.
      + destruct Hfold as (Hout & Hids & Hkept). split; [exact Hout |]. split.
        * intros chunkId [<- | Hin]; [| now apply Hids].
          apply (Hkept id (Js.newSet (map depGraph.path ordered))).
          apply JsFacts.get_set_same.
        * intros chunkId set Hget. destruct (String.eqb id chunkId) eqn:Hid.
          -- apply String.eqb_eq in Hid. subst chunkId.
             apply (Hkept id (Js.newSet (map depGraph.path ordered))).
             apply JsFacts.get_set_same.
          -- apply String.eqb_neq in Hid. apply (Hkept chunkId set).
             now rewrite JsFacts.get_set_other.
      + intros chunkId set Hget. destruct (String.eqb id chunkId) eqn:Hid.
        * apply String.eqb_eq in Hid. subst chunkId.
          rewrite JsFacts.get_set_same in Hget. injection Hget as <-.
          exists chunkConfig, entryPoints, ordered.
          split; [exact Hconfig |]. split; [| split; [exact Hordered | reflexivity]].
          apply mapM_Forall2 in Hentries.
          clear - Hentries. induction Hentries as [| input dep ins ds Hdep _ IH];
            constructor; [| exact IH].
          unfold assertNonNullable in Hdep.
          destruct (Js.get input pathToDep) as [found |] eqn:Hfound; [| discriminate].
          injection Hdep as ->. unfold pathToDep, Js.newMap in Hfound.
          apply get_newMap_In in Hfound. destruct Hfound as [Hnone | Hin];
            [discriminate |].
          apply in_map_iff in Hin. destruct Hin as (dep' & [= <- <-] & Hin).
          split; [reflexivity | exact Hin].
        * apply String.eqb_neq in Hid. rewrite JsFacts.get_set_other in Hget by exact Hid.
          now apply Hacc. }
  apply Hloop in Hrun; [| intros ? ? [=]].
  destruct Hrun as (Hout & Hids & _).
  intros chunkId Hin. destruct (Hids chunkId Hin) as [set Hset].
  destruct (Hout chunkId set Hset) as (chunkConfig & entryPoints & ordered & H1 & H2 & H3 & ->).
  exists chunkConfig, entryPoints, ordered. repeat split; assumption.
Qed.

(** A run of X19: the transitive sets of the three chunks of the example. *)
Lemma findTransitiveDeps_orders_the_inputs_witness :
  @findTransitiveDeps Example.graphLib Example.sortedChunkIds Example.files Example.modules
  = Ok Example.transitive /\
  exists ordered,
    Js.get "a" Example.transitive = Some (Js.newSet (map depGraph.path ordered)).
Proof.
  split; [vm_compute; reflexivity |].
  destruct (@findTransitiveDeps_orders_the_inputs Example.graphLib Example.sortedChunkIds
              Example.files Example.modules Example.transitive)
    as (graph & _ & Hchunks).
  - vm_compute. reflexivity.
  - destruct (Hchunks "a") as (chunkConfig & entryPoints & ordered & _ & _ & _ & Hset).
    + simpl. tauto.
    + exists ordered. exact Hset.
Defined.
